(** * EDGEBOTPRO: policy engine and paper-trading monitor

    A shallow embedding of [src/services/policyEngine.ts] (class
    [PolicyEngine]) and of [src/services/parityDiagnostics.ts]: the parity
    matcher ([matchPaperToWatch] and the thresholds of
    [printParityDiagnostics]) and the paper-trading monitor
    ([cleanupExpiredMarketsAndPositions], [updatePrices],
    [buildPositionIncrementally], [finalizePosition],
    [executeArbitrageTrade], [settlePositions], [settlePosition] and the
    body of the monitor's loop over the discovered markets).

    Numbers.  A JavaScript [number] is modelled as an exact rational [Q]:
    comparisons, sums and quotients are the mathematical ones and there is
    no NaN or infinity.  Where a property gives the value of a number, it
    gives it as the expression the code computes, operation by operation,
    or bounds it; identities that hold only after rearranging sums are not
    stated.

    Maps and sets.  A JS [Map], [Set] or plain object iterates in insertion
    order, and the code relies on that order ([Array.from(set).slice(..)]),
    so they are association lists and lists here. *)

From Stdlib Require Import QArith Qabs Qround ZArith List Sorted String Bool Lia Lqa.
From Stdlib Require Import DecimalString Permutation.
Import ListNotations.
Open Scope Q_scope.

(** ** JavaScript comparison and rounding primitives on numbers *)

Module JS.

Definition ge (x y : Q) : bool := Qle_bool y x.          (* x >= y *)
Definition le (x y : Q) : bool := Qle_bool x y.          (* x <= y *)
Definition lt (x y : Q) : bool := negb (Qle_bool y x).   (* x <  y *)
Definition gt (x y : Q) : bool := negb (Qle_bool x y).   (* x >  y *)

(** [!x] on a number: true exactly on 0 (NaN is not modelled). *)
Definition falsy (x : Q) : bool := Qeq_bool x 0.

(** [Math.min], [Math.floor] (as a number). *)
Definition min (x y : Q) : Q := if le x y then x else y.
Definition floor (x : Q) : Q := inject_Z (Qfloor x).

(** [parseFloat(x.toFixed(4))]: the nearest multiple of 1/10000; [toFixed]
    rounds the absolute value, taking the larger multiple on a tie, and puts
    the sign back, so a tie goes away from zero. *)
Definition toFixed4 (x : Q) : Q :=
  if le 0 x then Qfloor (x * 10000 + (1 # 2)) # 10000
  else - (Qfloor (- x * 10000 + (1 # 2)) # 10000).

(** [arr[i]] for a possibly negative or out-of-range index: [None] is
    [undefined]. *)
Definition index {A : Type} (l : list A) (i : Z) : option A :=
  if (i <? 0)%Z then None else nth_error l (Z.to_nat i).

(** Property lookup [obj[key]] on an object used as a string-keyed map. *)
Fixpoint prop {A : Type} (obj : list (string * A)) (key : string) : option A :=
  match obj with
  | [] => None
  | (k, v) :: rest => if String.eqb k key then Some v else prop rest key
  end.

(** [Set.prototype.has] and [Set.prototype.add] on an insertion-ordered set
    of strings. *)
Definition has (s : list string) (k : string) : bool :=
  existsb (String.eqb k) s.
Definition add (s : list string) (k : string) : list string :=
  if has s k then s else s ++ [k].

(** [[...a].sort((x, y) => key(x) - key(y))]: a stable sort, ascending in
    the key. *)
Section Sort.
Context {A : Type} (key : A -> Q).
Fixpoint insert (x : A) (l : list A) : list A :=
  match l with
  | [] => [x]
  | y :: l' => if le (key x) (key y) then x :: y :: l' else y :: insert x l'
  end.
Definition sort (l : list A) : list A := fold_right insert [] l.
End Sort.

(** [Map.prototype.get], [set] and [delete] on an insertion-ordered map with
    string keys: [set] on a present key keeps its place. *)
Definition get {A : Type} (m : list (string * A)) (key : string) : option A :=
  prop m key.

Fixpoint set {A : Type} (m : list (string * A)) (key : string) (v : A)
    : list (string * A) :=
  match m with
  | [] => [(key, v)]
  | (k, w) :: rest =>
      if String.eqb k key then (k, v) :: rest else (k, w) :: set rest key v
  end.

Definition delete {A : Type} (m : list (string * A)) (key : string)
    : list (string * A) :=
  filter (fun kv => negb (String.eqb (fst kv) key)) m.

End JS.

(** ** policyEngine.ts *)

Inductive Side : Type := UP | DOWN.

Record TapeState : Type := {
  timestamp : Q;
  up_px : Q;
  down_px : Q;
  market : string
}.

Record PriceHistory : Type := {
  h_timestamp : Q;
  h_up_px : Q;
  h_down_px : Q
}.

(** Optional fields ([?:]) are [option]: [None] is an absent property. *)
Record Features : Type := {
  delta_1s_side_px : option Q;
  delta_5s_side_px : option Q;
  delta_30s_side_px : option Q;
  delta_1s_up_px : option Q;
  delta_5s_up_px : option Q;
  delta_30s_up_px : option Q;
  delta_1s_down_px : option Q;
  delta_5s_down_px : option Q;
  delta_30s_down_px : option Q;
  volatility_5s : option Q;
  volatility_30s : option Q;
  distance_from_50 : Q
}.

Record InventoryState : Type := {
  inv_up_shares : Q;
  inv_down_shares : Q;
  avg_cost_up : option Q;
  avg_cost_down : option Q
}.

Record EntrySignal : Type := {
  should_trade : bool;
  side : option Side;
  reason : string
}.

(** The parameter records are imported from [./paramLoader], which is not
    part of the sources at hand; the fields are the ones the engine reads,
    with the types its null checks and comparisons give them. *)
Record EntryParams : Type := {
  up_price_min : option Q;
  up_price_max : option Q;
  down_price_min : option Q;
  down_price_max : option Q;
  mode : string;
  momentum_threshold : Q
}.

Record SizeParams : Type := {
  bin_edges : option (list Q);
  size_table : option (list (string * Q))
}.

Record InventoryParams : Type := {
  max_up_shares : Q;
  max_down_shares : Q;
  max_total_shares : Q;
  rebalance_ratio_R : Q
}.

Record CadenceParams : Type := {
  min_inter_trade_ms : Q;
  max_trades_per_sec : Q;
  max_trades_per_min : Q
}.

Module PolicyEngine.

Section Engine.

(** The two runtime functions whose results are not rational
    computations: [Math.sqrt] and the number-to-string conversion of a
    template literal. *)
Variable Math_sqrt : Q -> Q.
Variable Number_toString : Q -> string.

(** *** computeFeatures *)

Definition emptyFeatures (d50 : Q) : Features :=
  {| delta_1s_side_px := None; delta_5s_side_px := None;
     delta_30s_side_px := None;
     delta_1s_up_px := None; delta_5s_up_px := None;
     delta_30s_up_px := None;
     delta_1s_down_px := None; delta_5s_down_px := None;
     delta_30s_down_px := None;
     volatility_5s := None; volatility_30s := None;
     distance_from_50 := d50 |}.

(** The loop of [findClosest], started from [sortedHistory[0]]. *)
Definition closerStep (targetTs : Q) (acc : PriceHistory * Q)
    (h : PriceHistory) : PriceHistory * Q :=
  let diff := Qabs (h_timestamp h - targetTs) in
  if JS.lt diff (snd acc) then (h, diff) else acc.

(** [None] where the source would read [.timestamp] of [undefined]. *)
Definition findClosest (sortedHistory : list PriceHistory) (targetTs : Q)
    : option PriceHistory :=
  match sortedHistory with
  | [] => None
  | first :: _ =>
      Some (fst (fold_left (closerStep targetTs) sortedHistory
                   (first, Qabs (h_timestamp first - targetTs))))
  end.

(** [(features as any)[`delta_${seconds}s_*`] = ...] for the three keys
    of one window. *)
Definition setDeltas (seconds : Z) (deltaUp deltaDown : Q) (f : Features)
    : Features :=
  match seconds with
  | 1%Z =>
      {| delta_1s_side_px := Some deltaUp;
         delta_5s_side_px := delta_5s_side_px f;
         delta_30s_side_px := delta_30s_side_px f;
         delta_1s_up_px := Some deltaUp;
         delta_5s_up_px := delta_5s_up_px f;
         delta_30s_up_px := delta_30s_up_px f;
         delta_1s_down_px := Some deltaDown;
         delta_5s_down_px := delta_5s_down_px f;
         delta_30s_down_px := delta_30s_down_px f;
         volatility_5s := volatility_5s f;
         volatility_30s := volatility_30s f;
         distance_from_50 := distance_from_50 f |}
  | 5%Z =>
      {| delta_1s_side_px := delta_1s_side_px f;
         delta_5s_side_px := Some deltaUp;
         delta_30s_side_px := delta_30s_side_px f;
         delta_1s_up_px := delta_1s_up_px f;
         delta_5s_up_px := Some deltaUp;
         delta_30s_up_px := delta_30s_up_px f;
         delta_1s_down_px := delta_1s_down_px f;
         delta_5s_down_px := Some deltaDown;
         delta_30s_down_px := delta_30s_down_px f;
         volatility_5s := volatility_5s f;
         volatility_30s := volatility_30s f;
         distance_from_50 := distance_from_50 f |}
  | 30%Z =>
      {| delta_1s_side_px := delta_1s_side_px f;
         delta_5s_side_px := delta_5s_side_px f;
         delta_30s_side_px := Some deltaUp;
         delta_1s_up_px := delta_1s_up_px f;
         delta_5s_up_px := delta_5s_up_px f;
         delta_30s_up_px := Some deltaUp;
         delta_1s_down_px := delta_1s_down_px f;
         delta_5s_down_px := delta_5s_down_px f;
         delta_30s_down_px := Some deltaDown;
         volatility_5s := volatility_5s f;
         volatility_30s := volatility_30s f;
         distance_from_50 := distance_from_50 f |}
  | _ => f
  end.

Definition setVolatility (seconds : Z) (v : Q) (f : Features) : Features :=
  match seconds with
  | 5%Z =>
      {| delta_1s_side_px := delta_1s_side_px f;
         delta_5s_side_px := delta_5s_side_px f;
         delta_30s_side_px := delta_30s_side_px f;
         delta_1s_up_px := delta_1s_up_px f;
         delta_5s_up_px := delta_5s_up_px f;
         delta_30s_up_px := delta_30s_up_px f;
         delta_1s_down_px := delta_1s_down_px f;
         delta_5s_down_px := delta_5s_down_px f;
         delta_30s_down_px := delta_30s_down_px f;
         volatility_5s := Some v;
         volatility_30s := volatility_30s f;
         distance_from_50 := distance_from_50 f |}
  | 30%Z =>
      {| delta_1s_side_px := delta_1s_side_px f;
         delta_5s_side_px := delta_5s_side_px f;
         delta_30s_side_px := delta_30s_side_px f;
         delta_1s_up_px := delta_1s_up_px f;
         delta_5s_up_px := delta_5s_up_px f;
         delta_30s_up_px := delta_30s_up_px f;
         delta_1s_down_px := delta_1s_down_px f;
         delta_5s_down_px := delta_5s_down_px f;
         delta_30s_down_px := delta_30s_down_px f;
         volatility_5s := volatility_5s f;
         volatility_30s := Some v;
         distance_from_50 := distance_from_50 f |}
  | _ => f
  end.

(** Body of the first [forEach]: one window of [seconds] seconds. *)
Definition deltaStep (state : TapeState) (sortedHistory : list PriceHistory)
    (f : Features) (seconds : Z) : Features :=
  let now := timestamp state in
  let windowTs := now - inject_Z seconds * 1000 in
  match findClosest sortedHistory windowTs with
  | None => f
  | Some past =>
      if JS.lt (Qabs (h_timestamp past - windowTs)) (inject_Z seconds * 2000)
      then setDeltas seconds (up_px state - h_up_px past)
             (down_px state - h_down_px past) f
      else f
  end.

Definition sumQ (l : list Q) : Q := fold_left Qplus l 0.

(** Body of the second [forEach]: population standard deviation of the
    UP prices in the window. *)
Definition volatilityStep (state : TapeState)
    (sortedHistory : list PriceHistory) (f : Features) (seconds : Z)
    : Features :=
  let now := timestamp state in
  let windowTs := now - inject_Z seconds * 1000 in
  let windowPrices :=
    map h_up_px
      (filter (fun h => JS.ge (h_timestamp h) windowTs
                        && JS.le (h_timestamp h) now) sortedHistory) in
  if (1 <? List.length windowPrices)%nat then
    let n := inject_Z (Z.of_nat (List.length windowPrices)) in
    let mean := sumQ windowPrices / n in
    let variance :=
      fold_left (fun sum p => sum + (p - mean) ^ 2) windowPrices 0 / n in
    setVolatility seconds (Math_sqrt variance) f
  else f.

Definition computeFeatures (state : TapeState) (history : list PriceHistory)
    : Features :=
  let features := emptyFeatures (Qabs (up_px state - (1 # 2))) in
  match history with
  | [] => features
  | _ :: _ =>
      let sortedHistory := JS.sort h_timestamp history in
      let features :=
        fold_left (deltaStep state sortedHistory) [1; 5; 30]%Z features in
      fold_left (volatilityStep state sortedHistory) [5; 30]%Z features
  end.

(** *** entrySignal *)

Definition NoTrade (why : string) : EntrySignal :=
  {| should_trade := false; side := None; reason := why |}.

Definition Trade (s : Side) (why : string) : EntrySignal :=
  {| should_trade := true; side := Some s; reason := why |}.

(** [min !== null && max !== null && px >= min && px <= max] *)
Definition inBand (lo hi : option Q) (px : Q) : bool :=
  match lo, hi with
  | Some lo, Some hi => JS.ge px lo && JS.le px hi
  | _, _ => false
  end.

(** The [let signal = true; let reason = ...; if (mode === ...)] block, the
    same for both sides up to the delta it reads and the default reason. *)
Definition modeCheck (entryParams : EntryParams) (delta : Q)
    (bandReason : string) : bool * string :=
  if String.eqb (mode entryParams) "momentum" then
    if JS.lt delta (momentum_threshold entryParams)
    then (false, "momentum_not_met"%string)
    else (true, "momentum_met"%string)
  else if String.eqb (mode entryParams) "reversion" then
    if JS.gt delta (- momentum_threshold entryParams)
    then (false, "reversion_not_met"%string)
    else (true, "reversion_met"%string)
  else (true, bandReason).

Definition orElse (o : option Q) (d : Q) : Q :=
  match o with Some v => v | None => d end.

(** The block [if (upInBand) { ... if (upSignal) return ... }]: [Some r] is
    the early [return r], [None] falls through to the next statement. *)
Definition upBlock (state : TapeState) (entryParams : EntryParams)
    (delta5s : Q) : option EntrySignal :=
  let upInBand :=
    inBand (up_price_min entryParams) (up_price_max entryParams)
           (up_px state) in
  if upInBand then
    let '(upSignal, upReason) :=
      modeCheck entryParams delta5s "up_price_band" in
    if upSignal then Some (Trade UP upReason) else None
  else None.

Definition downBlock (state : TapeState) (features : Features)
    (entryParams : EntryParams) (delta5s : Q) : option EntrySignal :=
  let downInBand :=
    inBand (down_price_min entryParams) (down_price_max entryParams)
           (down_px state) in
  if downInBand then
    let delta5sDown := orElse (delta_5s_down_px features) delta5s in
    let '(downSignal, downReason) :=
      modeCheck entryParams delta5sDown "down_price_band" in
    if downSignal then Some (Trade DOWN downReason) else None
  else None.

Definition entrySignal (state : TapeState) (features : Features)
    (entryParams : option EntryParams) : EntrySignal :=
  match entryParams with
  | None => NoTrade "no_entry_params"
  | Some entryParams =>
      let delta5s := orElse (delta_5s_side_px features) 0 in
      match upBlock state entryParams delta5s with
      | Some signal => signal
      | None =>
          match downBlock state features entryParams delta5s with
          | Some signal => signal
          | None => NoTrade "no_band_match"
          end
      end
  end.

(** *** sizeForTrade *)

(** The [for] loop over [i < binEdges.length - 1]: the first [i] with
    [binEdges[i] <= sidePx <= binEdges[i+1]], counting from [i]. *)
Fixpoint scanBuckets (i : nat) (binEdges : list Q) (sidePx : Q) : option nat :=
  match binEdges with
  | lower :: ((upper :: _) as rest) =>
      if JS.ge sidePx lower && JS.le sidePx upper then Some i
      else scanBuckets (S i) rest sidePx
  | _ => None
  end.

(** [bucketIndex] after the scan and the out-of-range fallback.  A
    comparison with [binEdges[0] === undefined] is false. *)
Definition bucketIndex (binEdges : list Q) (sidePx : Q) : Z :=
  match scanBuckets 0 binEdges sidePx with
  | Some i => Z.of_nat i
  | None =>
      match binEdges with
      | e0 :: _ =>
          if JS.lt sidePx e0 then 0%Z
          else (Z.of_nat (List.length binEdges) - 2)%Z
      | [] => (Z.of_nat (List.length binEdges) - 2)%Z
      end
  end.

Definition showEdge (e : option Q) : string :=
  match e with
  | Some q => Number_toString q
  | None => "undefined"%string
  end.

Definition bucketKey (binEdges : list Q) (i : Z) : string :=
  ("(" ++ showEdge (JS.index binEdges i) ++ ", "
       ++ showEdge (JS.index binEdges (i + 1)) ++ "]")%string.

Definition sizeForTrade (state : TapeState) (features : Features)
    (sizeParams : option SizeParams) (side : Side) : Q :=
  match sizeParams with
  | None => 1
  | Some sizeParams =>
      match size_table sizeParams with
      | None | Some [] => 1
      | Some table =>
          let sidePx :=
            match side with UP => up_px state | DOWN => down_px state end in
          let binEdges :=
            match bin_edges sizeParams with Some e => e | None => [] end in
          let key := bucketKey binEdges (bucketIndex binEdges sidePx) in
          match JS.prop table key with
          | Some size => JS.toFixed4 size
          | None =>
              let sorted := JS.sort (fun x => x) (map snd table) in
              match nth_error sorted (Nat.div2 (List.length sorted)) with
              | Some median => JS.toFixed4 median
              | None => 1
              end
          end
      end
  end.

(** *** inventoryOkAndRebalance *)

Definition isSide (a b : Side) : bool :=
  match a, b with
  | UP, UP | DOWN, DOWN => true
  | _, _ => false
  end.

Definition inventoryOkAndRebalance (inventory : InventoryState)
    (inventoryParams : option InventoryParams) (proposedSide : Side)
    : option Side :=
  match inventoryParams with
  | None => Some proposedSide
  | Some inventoryParams =>
      let total := inv_up_shares inventory + inv_down_shares inventory in
      let eps := 1 # 1000000 in
      if JS.ge total (max_total_shares inventoryParams) then None
      else if isSide proposedSide UP
              && JS.ge (inv_up_shares inventory)
                       (max_up_shares inventoryParams) then None
      else if isSide proposedSide DOWN
              && JS.ge (inv_down_shares inventory)
                       (max_down_shares inventoryParams) then None
      else
        let R := rebalance_ratio_R inventoryParams in
        if JS.gt (inv_up_shares inventory) eps
           && JS.gt (inv_down_shares inventory) eps then
          let ratio :=
            inv_up_shares inventory
            / (inv_up_shares inventory + inv_down_shares inventory) in
          if JS.gt ratio R && isSide proposedSide UP then
            if JS.lt (inv_down_shares inventory)
                     (max_down_shares inventoryParams)
               && JS.lt total (max_total_shares inventoryParams)
            then Some DOWN else None
          else if JS.lt ratio (1 - R) && isSide proposedSide DOWN then
            if JS.lt (inv_up_shares inventory)
                     (max_up_shares inventoryParams)
               && JS.lt total (max_total_shares inventoryParams)
            then Some UP else None
          else Some proposedSide
        else Some proposedSide
  end.

(** *** cadenceOk *)

(** [recentTradeTimes.filter(ts => ts >= start && ts <= currentTs).length] *)
Definition tradesInWindow (recentTradeTimes : list Q) (start currentTs : Q)
    : nat :=
  List.length
    (filter (fun ts => JS.ge ts start && JS.le ts currentTs) recentTradeTimes).

Definition ofNat (n : nat) : Q := inject_Z (Z.of_nat n).

Definition cadenceOk (lastTradeTs : option Q) (recentTradeTimes : list Q)
    (cadenceParams : option CadenceParams) (currentTs : Q) : bool :=
  match cadenceParams with
  | None => true
  | Some cadenceParams =>
      if match lastTradeTs with
         | Some lastTradeTs =>
             JS.lt (currentTs - lastTradeTs) (min_inter_trade_ms cadenceParams)
         | None => false
         end then false
      else
        let trades1s :=
          tradesInWindow recentTradeTimes (currentTs - 1000) currentTs in
        if JS.ge (ofNat trades1s) (max_trades_per_sec cadenceParams) then false
        else
          let trades60s :=
            tradesInWindow recentTradeTimes (currentTs - 60000) currentTs in
          if JS.ge (ofNat trades60s) (max_trades_per_min cadenceParams)
          then false
          else true
  end.

End Engine.

End PolicyEngine.

(** ** The paper-trading position lifecycle *)

Module Market.
(** An entry of [discoveredMarkets]. *)
Record t : Type := {
  conditionId : string;
  marketKey : string;
  marketName : string;
  marketSlug : string;
  assetUp : string;
  assetDown : string;
  endDate : Q;
  priceUp : Q;
  priceDown : Q;
  lastUpdate : Q
}.
End Market.

Module BuildState.
(** [PositionBuildState] *)
Record t : Type := {
  marketKey : string;
  targetUp : Q;
  targetDown : Q;
  investedUp : Q;
  investedDown : Q;
  lastTradeTime : Q;
  nextTradeTime : Q;
  tradeCount : Z;
  avgPriceUp : Q;
  avgPriceDown : Q;
  initialPriceUp : Q;
  initialPriceDown : Q;
  lastRebalanceTime : Q;
  momentumBias : Q
}.
End BuildState.

Record MarketPosition : Type := {
  conditionId : string;
  marketKey : string;
  marketName : string;
  marketSlug : string;
  assetUp : string;
  assetDown : string;
  endDate : Q;
  sharesUp : Q;
  sharesDown : Q;
  costUp : Q;
  costDown : Q;
  arbSharesUp : Q;
  arbSharesDown : Q;
  arbCostUp : Q;
  arbCostDown : Q;
  currentPriceUp : Q;
  currentPriceDown : Q;
  hasSplitPosition : bool;
  hasArbitragePosition : bool;
  isSettled : bool;
  settlementPnL : Q;
  createdAt : Q
}.

(** What [logPaperTrade] hands to the tracker and the CSV logger (every
    paper trade is a BUY). *)
Record PaperTrade : Type := {
  trade_conditionId : string;
  trade_side : Side;
  trade_shares : Q;
  trade_cost : Q;
  trade_price : Q
}.

(** The module-level mutable state.  [tradeLog] collects the calls of
    [logPaperTrade]; [pendingDeletes] the position keys whose
    [setTimeout(.., 5000)] removal has been scheduled. *)
Record Globals : Type := {
  currentCapital : Q;
  totalPnL : Q;
  totalTrades : Z;
  totalCycles : Z;
  positions : list (string * MarketPosition);
  discoveredMarkets : list (string * Market.t);
  processedCycles : list string;
  buildingPositions : list (string * BuildState.t);
  tradeLog : list PaperTrade;
  pendingDeletes : list string
}.

Module PaperBot.

Definition EXPIRATION_WINDOW_MS : Q := 2 * 60 * 1000.
Definition CLEAR_OUTCOME_THRESHOLD : Q := 95 # 100.
Definition MAX_LOSER_PRICE : Q := 5 # 100.
Definition MIN_LOSER_PRICE : Q := 1 # 1000.

Section Lifecycle.

(** [PAPER_MIN_TRADE] and [PAPER_MAX_TRADE] are read from the environment
    (defaults 0.50 and 15); [getOrderBookPrice] is the order-book fetch, which
    yields [null] on any failure. *)
Variable PAPER_MIN_TRADE : Q.
Variable PAPER_MAX_TRADE : Q.
Variable Number_toString : Q -> string.
Variable getOrderBookPrice : string -> option Q.

(** *** finalizePosition *)

Definition builtPosition (now : Q) (market : Market.t)
    (buildState : BuildState.t) : MarketPosition :=
  let sharesUp :=
    if JS.gt (BuildState.avgPriceUp buildState) 0
    then BuildState.investedUp buildState / BuildState.avgPriceUp buildState
    else 0 in
  let sharesDown :=
    if JS.gt (BuildState.avgPriceDown buildState) 0
    then BuildState.investedDown buildState
         / BuildState.avgPriceDown buildState
    else 0 in
  {| conditionId := Market.conditionId market;
     marketKey := Market.marketKey market;
     marketName := Market.marketName market;
     marketSlug := Market.marketSlug market;
     assetUp := Market.assetUp market;
     assetDown := Market.assetDown market;
     endDate := Market.endDate market;
     sharesUp := sharesUp;
     sharesDown := sharesDown;
     costUp := BuildState.investedUp buildState;
     costDown := BuildState.investedDown buildState;
     arbSharesUp := 0;
     arbSharesDown := 0;
     arbCostUp := 0;
     arbCostDown := 0;
     currentPriceUp := Market.priceUp market;
     currentPriceDown := Market.priceDown market;
     hasSplitPosition := true;
     hasArbitragePosition := false;
     isSettled := false;
     settlementPnL := 0;
     createdAt := now |}.

Definition finalizePosition (now : Q) (g : Globals) (market : Market.t)
    (buildState : BuildState.t) : Globals :=
  let positionKey := Market.conditionId market in
  let position := builtPosition now market buildState in
  {| currentCapital := currentCapital g;
     totalPnL := totalPnL g;
     totalTrades := totalTrades g;
     totalCycles := totalCycles g;
     positions := JS.set (positions g) positionKey position;
     discoveredMarkets := discoveredMarkets g;
     processedCycles := processedCycles g;
     buildingPositions := JS.delete (buildingPositions g) positionKey;
     tradeLog := tradeLog g;
     pendingDeletes := pendingDeletes g |}.

(** *** executeArbitrageTrade *)

Definition cycleKey (position : MarketPosition) : string :=
  (conditionId position ++ ":"
     ++ Number_toString (JS.floor (endDate position / 60000)))%string.

(** The clear winner and the loser's price, if the outcome is clear. *)
Definition clearWinner (priceUp priceDown : Q) : option (Side * Q) :=
  if JS.ge priceUp CLEAR_OUTCOME_THRESHOLD
     && JS.le priceDown MAX_LOSER_PRICE
     && JS.ge priceDown MIN_LOSER_PRICE
  then Some (UP, priceDown)
  else if JS.ge priceDown CLEAR_OUTCOME_THRESHOLD
          && JS.le priceUp MAX_LOSER_PRICE
          && JS.ge priceUp MIN_LOSER_PRICE
  then Some (DOWN, priceUp)
  else None.

Definition markCycle (g : Globals) (key : string) : Globals :=
  {| currentCapital := currentCapital g;
     totalPnL := totalPnL g;
     totalTrades := totalTrades g;
     totalCycles := totalCycles g;
     positions := positions g;
     discoveredMarkets := discoveredMarkets g;
     processedCycles := JS.add (processedCycles g) key;
     buildingPositions := buildingPositions g;
     tradeLog := tradeLog g;
     pendingDeletes := pendingDeletes g |}.

(** [currentCapital -= arbCost; totalTrades++; await logPaperTrade(..)] *)
Definition payTrade (g : Globals) (trade : PaperTrade) : Globals :=
  {| currentCapital := currentCapital g - trade_cost trade;
     totalPnL := totalPnL g;
     totalTrades := totalTrades g + 1;
     totalCycles := totalCycles g;
     positions := positions g;
     discoveredMarkets := discoveredMarkets g;
     processedCycles := processedCycles g;
     buildingPositions := buildingPositions g;
     tradeLog := tradeLog g ++ [trade];
     pendingDeletes := pendingDeletes g |}.

(** The position after buying [arbShares] of the loser for [arbCost]. *)
Definition withArbitrage (position : MarketPosition) (winner : Side)
    (arbShares arbCost : Q) : MarketPosition :=
  {| conditionId := conditionId position;
     marketKey := marketKey position;
     marketName := marketName position;
     marketSlug := marketSlug position;
     assetUp := assetUp position;
     assetDown := assetDown position;
     endDate := endDate position;
     sharesUp := sharesUp position;
     sharesDown := sharesDown position;
     costUp := costUp position;
     costDown := costDown position;
     arbSharesUp :=
       match winner with
       | UP => arbSharesUp position
       | DOWN => arbSharesUp position + arbShares
       end;
     arbSharesDown :=
       match winner with
       | UP => arbSharesDown position + arbShares
       | DOWN => arbSharesDown position
       end;
     arbCostUp :=
       match winner with
       | UP => arbCostUp position
       | DOWN => arbCostUp position + arbCost
       end;
     arbCostDown :=
       match winner with
       | UP => arbCostDown position + arbCost
       | DOWN => arbCostDown position
       end;
     currentPriceUp := currentPriceUp position;
     currentPriceDown := currentPriceDown position;
     hasSplitPosition := hasSplitPosition position;
     hasArbitragePosition := true;
     isSettled := isSettled position;
     settlementPnL := settlementPnL position;
     createdAt := createdAt position |}.

Definition otherSide (s : Side) : Side :=
  match s with UP => DOWN | DOWN => UP end.

(** An [endDate] below 10000000000 is taken to be in seconds. *)
Definition timeToExpiration (now : Q) (position : MarketPosition) : Q :=
  let endDateMs :=
    if JS.lt (endDate position) 10000000000
    then endDate position * 1000 else endDate position in
  endDateMs - now.

(** The position object is passed by reference and mutated in place: the
    function returns the globals and the object as they are afterwards. *)
Definition executeArbitrageTrade (now : Q) (g : Globals)
    (position : MarketPosition) (market : Market.t)
    : Globals * MarketPosition :=
  if hasArbitragePosition position || isSettled position then (g, position)
  else
    let timeToExpiration := timeToExpiration now position in
    if JS.gt timeToExpiration EXPIRATION_WINDOW_MS
       || JS.lt timeToExpiration 10000 then (g, position)
    else
      match clearWinner (Market.priceUp market) (Market.priceDown market) with
      | None => (g, position)
      | Some (winner, loserPrice) =>
          let key := cycleKey position in
          if JS.has (processedCycles g) key then (g, position)
          else
            let g := markCycle g key in
            let availableCapital :=
              JS.min (currentCapital g) PAPER_MAX_TRADE in
            if JS.lt availableCapital PAPER_MIN_TRADE then (g, position)
            else
              let arbShares := availableCapital / loserPrice in
              let arbCost := availableCapital in
              let trade :=
                {| trade_conditionId := conditionId position;
                   trade_side := otherSide winner;
                   trade_shares := arbShares;
                   trade_cost := arbCost;
                   trade_price := loserPrice |} in
              (payTrade g trade,
               withArbitrage position winner arbShares arbCost)
      end.

(** *** settlePosition *)

Definition totalCost (position : MarketPosition) : Q :=
  costUp position + costDown position
  + arbCostUp position + arbCostDown position.

Inductive Outcome : Type := UpWon | DownWon | Unclear.

(** The [if (upWon) .. else if (downWon) .. else ..] cascade. *)
Definition outcome (upWon downWon : bool) : Outcome :=
  if upWon then UpWon else if downWon then DownWon else Unclear.

Definition finalValue (position : MarketPosition) (upWon downWon : bool) : Q :=
  match outcome upWon downWon with
  | UpWon => (sharesUp position + arbSharesUp position) * 1
  | DownWon => (sharesDown position + arbSharesDown position) * 1
  | Unclear => totalCost position
  end.

Definition withSettlement (position : MarketPosition) (pnl : Q)
    : MarketPosition :=
  {| conditionId := conditionId position;
     marketKey := marketKey position;
     marketName := marketName position;
     marketSlug := marketSlug position;
     assetUp := assetUp position;
     assetDown := assetDown position;
     endDate := endDate position;
     sharesUp := sharesUp position;
     sharesDown := sharesDown position;
     costUp := costUp position;
     costDown := costDown position;
     arbSharesUp := arbSharesUp position;
     arbSharesDown := arbSharesDown position;
     arbCostUp := arbCostUp position;
     arbCostDown := arbCostDown position;
     currentPriceUp := currentPriceUp position;
     currentPriceDown := currentPriceDown position;
     hasSplitPosition := hasSplitPosition position;
     hasArbitragePosition := hasArbitragePosition position;
     isSettled := true;
     settlementPnL := pnl;
     createdAt := createdAt position |}.

(** [currentCapital += finalValue; totalPnL += pnl; totalCycles++] and the
    scheduling of the delayed [positions.delete]. *)
Definition creditSettlement (g : Globals) (value pnl : Q) (key : string)
    : Globals :=
  {| currentCapital := currentCapital g + value;
     totalPnL := totalPnL g + pnl;
     totalTrades := totalTrades g;
     totalCycles := totalCycles g + 1;
     positions := positions g;
     discoveredMarkets := discoveredMarkets g;
     processedCycles := processedCycles g;
     buildingPositions := buildingPositions g;
     tradeLog := tradeLog g;
     pendingDeletes := pendingDeletes g ++ [key] |}.

Definition settlePosition (g : Globals) (position : MarketPosition)
    (upWon downWon : bool) : Globals * MarketPosition :=
  if isSettled position then (g, position)
  else
    let value := finalValue position upWon downWon in
    let pnl := value - totalCost position in
    (creditSettlement g value pnl (conditionId position),
     withSettlement position pnl).

(** *** settlePositions *)

(** The final prices of a position: the discovered market's, else the
    position's own; both are fetched again when either is missing or 0. *)
Definition finalPrices (g : Globals) (key : string)
    (position : MarketPosition) : Q * Q :=
  let market := JS.get (discoveredMarkets g) key in
  let priceUp :=
    match market with
    | Some m => Market.priceUp m
    | None => currentPriceUp position
    end in
  let priceDown :=
    match market with
    | Some m => Market.priceDown m
    | None => currentPriceDown position
    end in
  if JS.falsy priceUp || JS.falsy priceDown then
    (match getOrderBookPrice (assetUp position) with
     | Some fetchedUp => fetchedUp
     | None => priceUp
     end,
     match getOrderBookPrice (assetDown position) with
     | Some fetchedDown => fetchedDown
     | None => priceDown
     end)
  else (priceUp, priceDown).

(** One iteration of the loop over [positions.entries()]. *)
Definition settleEntry (now : Q) (g : Globals)
    (entry : string * MarketPosition) : Globals * MarketPosition :=
  let '(key, position) := entry in
  if isSettled position then (g, position)
  else if JS.falsy (endDate position) || Qeq_bool (endDate position) 0
          || JS.gt (endDate position) now
  then (g, position)
  else
    let '(priceUp, priceDown) := finalPrices g key position in
    let upWon := JS.ge priceUp (95 # 100) in
    let downWon := JS.ge priceDown (95 # 100) in
    settlePosition g position upWon downWon.

Fixpoint settleLoop (now : Q) (g : Globals)
    (entries : list (string * MarketPosition))
    : Globals * list (string * MarketPosition) :=
  match entries with
  | [] => (g, [])
  | (key, position) :: rest =>
      let '(g, position) := settleEntry now g (key, position) in
      let '(g, rest) := settleLoop now g rest in
      (g, (key, position) :: rest)
  end.

(** [Array.from(processedCycles).slice(0, size - 500)] is deleted once the
    set holds more than 1000 keys. *)
Definition pruneCycles (cycles : list string) : list string :=
  if (1000 <? List.length cycles)%nat
  then skipn (List.length cycles - 500) cycles
  else cycles.

Definition settlePositions (now : Q) (g : Globals) : Globals :=
  let '(g, entries) := settleLoop now g (positions g) in
  {| currentCapital := currentCapital g;
     totalPnL := totalPnL g;
     totalTrades := totalTrades g;
     totalCycles := totalCycles g;
     positions := entries;
     discoveredMarkets := discoveredMarkets g;
     processedCycles := pruneCycles (processedCycles g);
     buildingPositions := buildingPositions g;
     tradeLog := tradeLog g;
     pendingDeletes := pendingDeletes g |}.

End Lifecycle.

End PaperBot.

(** ** The monitor around the lifecycle: cleanup *)

Module Monitor.

Definition EXPIRED_THRESHOLD_MS : Q := 60000.

(** [endDate && endDate > 0 && endDate < now - EXPIRED_THRESHOLD_MS] *)
Definition longExpired (now endDate : Q) : bool :=
  negb (JS.falsy endDate) && JS.gt endDate 0
  && JS.lt endDate (now - EXPIRED_THRESHOLD_MS).

(** First loop of [cleanupExpiredMarketsAndPositions]: unsettled positions
    whose market is gone, or whose own end date passed more than a minute
    ago, are deleted and their split cost is added to the capital.  A [Map]
    may be deleted from while it is iterated; its keys are unique, so
    deleting the current key drops the current entry. *)
Fixpoint cleanupPositions (now : Q) (markets : list (string * Market.t))
    (capital : Q) (entries : list (string * MarketPosition))
    : Q * list (string * MarketPosition) :=
  match entries with
  | [] => (capital, [])
  | (conditionId, position) :: rest =>
      if isSettled position then
        let '(capital, rest) := cleanupPositions now markets capital rest in
        (capital, (conditionId, position) :: rest)
      else
        match JS.get markets conditionId with
        | None =>
            cleanupPositions now markets
              (capital + (costUp position + costDown position)) rest
        | Some market =>
            if longExpired now (endDate position) then
              cleanupPositions now markets
                (capital + (costUp position + costDown position)) rest
            else
              let '(capital, rest) :=
                cleanupPositions now markets capital rest in
              (capital, (conditionId, position) :: rest)
        end
  end.

(** Second loop: build states whose market is gone or long expired. *)
Fixpoint cleanupBuilding (now : Q) (markets : list (string * Market.t))
    (capital : Q) (entries : list (string * BuildState.t))
    : Q * list (string * BuildState.t) :=
  match entries with
  | [] => (capital, [])
  | (conditionId, buildState) :: rest =>
      match JS.get markets conditionId with
      | None =>
          cleanupBuilding now markets
            (capital + (BuildState.investedUp buildState
                        + BuildState.investedDown buildState)) rest
      | Some market =>
          if longExpired now (Market.endDate market) then
            cleanupBuilding now markets
              (capital + (BuildState.investedUp buildState
                          + BuildState.investedDown buildState)) rest
          else
            let '(capital, rest) := cleanupBuilding now markets capital rest in
            (capital, (conditionId, buildState) :: rest)
      end
  end.

(** [market.endDate && market.endDate < now - EXPIRED_THRESHOLD_MS] *)
Definition marketExpired (now : Q) (market : Market.t) : bool :=
  negb (JS.falsy (Market.endDate market))
  && JS.lt (Market.endDate market) (now - EXPIRED_THRESHOLD_MS).

(** Third loop: expired markets leave [discoveredMarkets] and
    [proactivelyDiscoveredIds]. *)
Definition cleanupMarkets (now : Q) (markets : list (string * Market.t))
    : list (string * Market.t) :=
  filter (fun entry => negb (marketExpired now (snd entry))) markets.

Definition cleanupProactive (now : Q) (markets : list (string * Market.t))
    (proactivelyDiscoveredIds : list string) : list string :=
  filter
    (fun id =>
       negb (existsb
               (fun entry =>
                  String.eqb (fst entry) id && marketExpired now (snd entry))
               markets))
    proactivelyDiscoveredIds.

(** The globals and [proactivelyDiscoveredIds] after a cleanup at [now]. *)
Definition cleanupExpiredMarketsAndPositions (now : Q) (g : Globals)
    (proactivelyDiscoveredIds : list string) : Globals * list string :=
  let markets := discoveredMarkets g in
  let '(capital, positions') :=
    cleanupPositions now markets (currentCapital g) (positions g) in
  let '(capital, building') :=
    cleanupBuilding now markets capital (buildingPositions g) in
  ({| currentCapital := capital;
      totalPnL := totalPnL g;
      totalTrades := totalTrades g;
      totalCycles := totalCycles g;
      positions := positions';
      discoveredMarkets := cleanupMarkets now markets;
      processedCycles := processedCycles g;
      buildingPositions := building';
      tradeLog := tradeLog g;
      pendingDeletes := pendingDeletes g |},
   cleanupProactive now markets proactivelyDiscoveredIds).

End Monitor.

(** ** parityDiagnostics.ts: matching PAPER trades to WATCH trades *)

(** A parsed trade row, as [parseTrade] returns it. *)
Record ParsedTrade : Type := {
  pt_timestamp : Q;
  pt_side : string;
  pt_shares : Q;
  pt_fill_px : Q;
  pt_notes : string
}.

Record TradeMatch : Type := {
  watch_timestamp : Q;
  paper_timestamp : Q;
  dt_ms : Q;
  tm_market : string;
  watch_side : string;
  paper_side : string;
  same_side : bool;
  watch_shares : Q;
  paper_shares : Q;
  size_ratio : Q;
  watch_fill_px : Q;
  paper_fill_px : Q;
  fill_px_diff : Q;
  watch_notes : string;
  paper_notes : string
}.

(** An entry of [worst_mismatches]. *)
Record Mismatch : Type := {
  mm_dt_ms : Q;
  mm_same_side : bool;
  mm_size_ratio : Q;
  mm_fill_px_diff : Q;
  mm_watch_notes : string;
  mm_paper_notes : string;
  mm_timestamp : string
}.

Record ParityStats : Type := {
  ps_market : string;
  matched_count : nat;
  watch_total : nat;
  paper_total : nat;
  matched_percent : Q;
  same_side_percent : Q;
  median_dt_ms : Q;
  median_size_ratio : Q;
  median_abs_size_ratio_error : Q;
  median_fill_px_diff : Q;
  worst_mismatches : list Mismatch
}.

Module Parity.

Section Matching.

(** [new Date(t).toISOString()] *)
Variable toISOString : Q -> string.

Definition countQ (n : nat) : Q := inject_Z (Z.of_nat n).

(** The object literal assigned to [bestMatch]. *)
Definition makeMatch (market : string) (watchTrade paperTrade : ParsedTrade)
    (dt : Q) : TradeMatch :=
  {| watch_timestamp := pt_timestamp watchTrade;
     paper_timestamp := pt_timestamp paperTrade;
     dt_ms := dt;
     tm_market := market;
     watch_side := pt_side watchTrade;
     paper_side := pt_side paperTrade;
     same_side := String.eqb (pt_side watchTrade) (pt_side paperTrade);
     watch_shares := pt_shares watchTrade;
     paper_shares := pt_shares paperTrade;
     size_ratio := pt_shares paperTrade / pt_shares watchTrade;
     watch_fill_px := pt_fill_px watchTrade;
     paper_fill_px := pt_fill_px paperTrade;
     fill_px_diff := Qabs (pt_fill_px watchTrade - pt_fill_px paperTrade);
     watch_notes := pt_notes watchTrade;
     paper_notes := pt_notes paperTrade |}.

(** Body of the inner loop over the PAPER trades; the accumulator is
    [(bestMatch, minDt)]. *)
Definition matchStep (windowMs : Q) (market : string)
    (watchTrade : ParsedTrade) (acc : option TradeMatch * Q)
    (paperTrade : ParsedTrade) : option TradeMatch * Q :=
  let dt := Qabs (pt_timestamp paperTrade - pt_timestamp watchTrade) in
  if JS.le dt windowMs && JS.lt dt (snd acc)
  then (Some (makeMatch market watchTrade paperTrade dt), dt)
  else acc.

Definition bestMatch (windowMs : Q) (market : string)
    (watchTrade : ParsedTrade) (paperTrades : list ParsedTrade)
    : option TradeMatch :=
  fst (fold_left (matchStep windowMs market watchTrade) paperTrades
         (None, windowMs + 1)).

(** The outer loop: [matches.push(bestMatch)] for each WATCH trade that has
    one. *)
Fixpoint matchTrades (windowMs : Q) (market : string)
    (watchTrades paperTrades : list ParsedTrade) : list TradeMatch :=
  match watchTrades with
  | [] => []
  | watchTrade :: rest =>
      match bestMatch windowMs market watchTrade paperTrades with
      | Some m => m :: matchTrades windowMs market rest paperTrades
      | None => matchTrades windowMs market rest paperTrades
      end
  end.

(** [xs.length > 0 ? sorted(xs)[Math.floor(xs.length / 2)] : 0] *)
Definition medianOf (xs : list Q) : Q :=
  let sorted := JS.sort (fun x => x) xs in
  match nth_error sorted (Nat.div2 (List.length sorted)) with
  | Some m => m
  | None => 0
  end.

Definition toMismatch (m : TradeMatch) : Mismatch :=
  {| mm_dt_ms := dt_ms m;
     mm_same_side := same_side m;
     mm_size_ratio := size_ratio m;
     mm_fill_px_diff := fill_px_diff m;
     mm_watch_notes := watch_notes m;
     mm_paper_notes := paper_notes m;
     mm_timestamp := toISOString (watch_timestamp m) |}.

(** [.sort((a, b) => b.fill_px_diff - a.fill_px_diff).slice(0, 10)] *)
Definition worstMismatches (matches : list TradeMatch) : list Mismatch :=
  firstn 10
    (JS.sort (fun m => - mm_fill_px_diff m) (map toMismatch matches)).

(** The statistics of one market, from its WATCH and PAPER trades. *)
Definition marketStats (windowMs : Q) (market : string)
    (watchTrades paperTrades : list ParsedTrade) : ParityStats :=
  let matches := matchTrades windowMs market watchTrades paperTrades in
  let matchedPercent :=
    if (0 <? List.length watchTrades)%nat
    then countQ (List.length matches) / countQ (List.length watchTrades)
         * 100
    else 0 in
  let sameSidePercent :=
    if (0 <? List.length matches)%nat
    then countQ (List.length (filter same_side matches))
         / countQ (List.length matches) * 100
    else 0 in
  let sizeRatios := JS.sort (fun x => x) (map size_ratio matches) in
  {| ps_market := market;
     matched_count := List.length matches;
     watch_total := List.length watchTrades;
     paper_total := List.length paperTrades;
     matched_percent := matchedPercent;
     same_side_percent := sameSidePercent;
     median_dt_ms := medianOf (map dt_ms matches);
     median_size_ratio := medianOf (map size_ratio matches);
     median_abs_size_ratio_error :=
       match sizeRatios with
       | [] => 0
       | _ :: _ =>
           match nth_error
                   (JS.sort (fun x => x)
                      (map (fun r => Qabs (r - 1)) sizeRatios))
                   (Nat.div2 (List.length sizeRatios)) with
           | Some m => m
           | None => 0
           end
       end;
     median_fill_px_diff := medianOf (map fill_px_diff matches);
     worst_mismatches := worstMismatches matches |}.

End Matching.

(** The threshold checks of [printParityDiagnostics] for one market. *)
Definition sameSideOk (stat : ParityStats) : bool :=
  JS.ge (same_side_percent stat) 95 && JS.le (same_side_percent stat) 98.

Definition sizeRatioOk (stat : ParityStats) : bool :=
  JS.lt (median_abs_size_ratio_error stat * 100) 5.

Definition missedTradesOk (stat : ParityStats) : bool :=
  JS.lt (100 - matched_percent stat) 5.

Definition allMetricsOk (stat : ParityStats) : bool :=
  sameSideOk stat && sizeRatioOk stat && missedTradesOk stat.

End Parity.

(** ** The monitor around the lifecycle: building a position *)

(** What the monitor holds besides the lifecycle globals: the set
    [discoveredConditionIds], which also receives the "skip-assets" markers,
    and the number of [Math.random()] values drawn so far. *)
Record Runtime : Type := {
  globals : Globals;
  discoveredConditionIds : list string;
  draws : nat
}.

Module Builder.

Definition TARGET_SHARE_AMOUNTS : list Q :=
  [5; 16; 28; 1; 2; 14; 10; 3; 22; 15; 6; 4; 8; 12; 7].
Definition SHARE_WEIGHTS : list Q :=
  [12; 11; 10; 5; 45 # 10; 55 # 10; 5; 4; 4; 4; 35 # 10; 35 # 10; 3; 3; 3].
Definition MIN_SHARES : Q := 1 # 2.
Definition UP_BIAS : Q := 507 # 1000.
Definition DIRECTION_VARIANCE : Q := 2 # 100.
Definition MOMENTUM_CHASE_FACTOR : Q := 6 # 10.
Definition PRICE_THRESHOLD_FOR_CHASE : Q := 10 # 100.
Definition REBALANCE_CHECK_INTERVAL_MS : Q := 10000.

(** [Math.max], [String.prototype.includes], the truth value of a string,
    and [Map.prototype.has]. *)
Definition max (x y : Q) : Q := if JS.le x y then y else x.

Definition includes (s sub : string) : bool :=
  match index 0 sub s with
  | Some _ => true
  | None => false
  end.

Definition emptyString (s : string) : bool := String.eqb s "".

Definition has {A : Type} (m : list (string * A)) (key : string) : bool :=
  match JS.get m key with
  | Some _ => true
  | None => false
  end.

Section Build.

(** [PAPER_BTC_MAX_PER_MARKET] and [PAPER_ETH_MAX_PER_MARKET] are read from
    the environment (defaults 2400 and 1800); [random n] is the value of the
    [n]-th call of [Math.random()]. *)
Variable PAPER_BTC_MAX_PER_MARKET : Q.
Variable PAPER_ETH_MAX_PER_MARKET : Q.
Variable random : nat -> Q.

(** *** selectTargetShares *)

(** The loop [rand -= SHARE_WEIGHTS[i]; if (rand <= 0) return ..] *)
Fixpoint pickAmount (rand : Q) (amounts weights : list Q) : option Q :=
  match amounts, weights with
  | amount :: amounts', weight :: weights' =>
      let rand := rand - weight in
      if JS.le rand 0 then Some amount
      else pickAmount rand amounts' weights'
  | _, _ => None
  end.

(** The share count selected with the draws from number [n] on, and the
    number of the next draw. *)
Definition selectTargetShares (n : nat) : Q * nat :=
  let totalWeight := fold_left Qplus SHARE_WEIGHTS 0 in
  let rand := random n * totalWeight in
  match pickAmount rand TARGET_SHARE_AMOUNTS SHARE_WEIGHTS with
  | Some amount =>
      let variance := (9 # 10) + random (S n) * (2 # 10) in
      (amount * variance, S (S n))
  | None => (12, S n)
  end.

(** *** The build state and its in-place updates *)

(** The state created for a market that has none, unless the position
    would be worth less than $10; [r] is the draw for the session
    variance. *)
Definition newBuildState (now capital : Q) (market : Market.t) (r : Q)
    : option BuildState.t :=
  let isBTC := includes (Market.marketKey market) "BTC" in
  let maxPerMarket :=
    if isBTC then PAPER_BTC_MAX_PER_MARKET else PAPER_ETH_MAX_PER_MARKET in
  let positionSize := JS.min maxPerMarket (capital * (70 # 100)) in
  if JS.lt positionSize 10 then None
  else
    let sessionVariance := (r - (5 # 10)) * 2 * DIRECTION_VARIANCE in
    let upRatio :=
      max (49 # 100) (JS.min (52 # 100) (UP_BIAS + sessionVariance)) in
    let downRatio := 1 - upRatio in
    Some {| BuildState.marketKey := Market.marketKey market;
            BuildState.targetUp := positionSize * upRatio;
            BuildState.targetDown := positionSize * downRatio;
            BuildState.investedUp := 0;
            BuildState.investedDown := 0;
            BuildState.lastTradeTime := 0;
            BuildState.nextTradeTime := now;
            BuildState.tradeCount := 0;
            BuildState.avgPriceUp := 0;
            BuildState.avgPriceDown := 0;
            BuildState.initialPriceUp := Market.priceUp market;
            BuildState.initialPriceDown := Market.priceDown market;
            BuildState.lastRebalanceTime := now;
            BuildState.momentumBias := 0 |}.

Definition withTargets (b : BuildState.t) (up down : Q) : BuildState.t :=
  {| BuildState.marketKey := BuildState.marketKey b;
     BuildState.targetUp := up;
     BuildState.targetDown := down;
     BuildState.investedUp := BuildState.investedUp b;
     BuildState.investedDown := BuildState.investedDown b;
     BuildState.lastTradeTime := BuildState.lastTradeTime b;
     BuildState.nextTradeTime := BuildState.nextTradeTime b;
     BuildState.tradeCount := BuildState.tradeCount b;
     BuildState.avgPriceUp := BuildState.avgPriceUp b;
     BuildState.avgPriceDown := BuildState.avgPriceDown b;
     BuildState.initialPriceUp := BuildState.initialPriceUp b;
     BuildState.initialPriceDown := BuildState.initialPriceDown b;
     BuildState.lastRebalanceTime := BuildState.lastRebalanceTime b;
     BuildState.momentumBias := BuildState.momentumBias b |}.

Definition withMomentum (b : BuildState.t) (bias lastRebalance : Q)
    : BuildState.t :=
  {| BuildState.marketKey := BuildState.marketKey b;
     BuildState.targetUp := BuildState.targetUp b;
     BuildState.targetDown := BuildState.targetDown b;
     BuildState.investedUp := BuildState.investedUp b;
     BuildState.investedDown := BuildState.investedDown b;
     BuildState.lastTradeTime := BuildState.lastTradeTime b;
     BuildState.nextTradeTime := BuildState.nextTradeTime b;
     BuildState.tradeCount := BuildState.tradeCount b;
     BuildState.avgPriceUp := BuildState.avgPriceUp b;
     BuildState.avgPriceDown := BuildState.avgPriceDown b;
     BuildState.initialPriceUp := BuildState.initialPriceUp b;
     BuildState.initialPriceDown := BuildState.initialPriceDown b;
     BuildState.lastRebalanceTime := lastRebalance;
     BuildState.momentumBias := bias |}.

(** An executed UP trade of [trade] dollars at [price]: the average price
    is re-weighted by dollars, the investment and the count grow. *)
Definition boughtUp (b : BuildState.t) (price trade : Q) : BuildState.t :=
  let totalInvestedUp := BuildState.investedUp b + trade in
  {| BuildState.marketKey := BuildState.marketKey b;
     BuildState.targetUp := BuildState.targetUp b;
     BuildState.targetDown := BuildState.targetDown b;
     BuildState.investedUp := totalInvestedUp;
     BuildState.investedDown := BuildState.investedDown b;
     BuildState.lastTradeTime := BuildState.lastTradeTime b;
     BuildState.nextTradeTime := BuildState.nextTradeTime b;
     BuildState.tradeCount := (BuildState.tradeCount b + 1)%Z;
     BuildState.avgPriceUp :=
       (BuildState.avgPriceUp b * BuildState.investedUp b + price * trade)
       / totalInvestedUp;
     BuildState.avgPriceDown := BuildState.avgPriceDown b;
     BuildState.initialPriceUp := BuildState.initialPriceUp b;
     BuildState.initialPriceDown := BuildState.initialPriceDown b;
     BuildState.lastRebalanceTime := BuildState.lastRebalanceTime b;
     BuildState.momentumBias := BuildState.momentumBias b |}.

Definition boughtDown (b : BuildState.t) (price trade : Q) : BuildState.t :=
  let totalInvestedDown := BuildState.investedDown b + trade in
  {| BuildState.marketKey := BuildState.marketKey b;
     BuildState.targetUp := BuildState.targetUp b;
     BuildState.targetDown := BuildState.targetDown b;
     BuildState.investedUp := BuildState.investedUp b;
     BuildState.investedDown := totalInvestedDown;
     BuildState.lastTradeTime := BuildState.lastTradeTime b;
     BuildState.nextTradeTime := BuildState.nextTradeTime b;
     BuildState.tradeCount := (BuildState.tradeCount b + 1)%Z;
     BuildState.avgPriceUp := BuildState.avgPriceUp b;
     BuildState.avgPriceDown :=
       (BuildState.avgPriceDown b * BuildState.investedDown b + price * trade)
       / totalInvestedDown;
     BuildState.initialPriceUp := BuildState.initialPriceUp b;
     BuildState.initialPriceDown := BuildState.initialPriceDown b;
     BuildState.lastRebalanceTime := BuildState.lastRebalanceTime b;
     BuildState.momentumBias := BuildState.momentumBias b |}.

Definition withTiming (b : BuildState.t) (lastTrade nextTrade : Q)
    : BuildState.t :=
  {| BuildState.marketKey := BuildState.marketKey b;
     BuildState.targetUp := BuildState.targetUp b;
     BuildState.targetDown := BuildState.targetDown b;
     BuildState.investedUp := BuildState.investedUp b;
     BuildState.investedDown := BuildState.investedDown b;
     BuildState.lastTradeTime := lastTrade;
     BuildState.nextTradeTime := nextTrade;
     BuildState.tradeCount := BuildState.tradeCount b;
     BuildState.avgPriceUp := BuildState.avgPriceUp b;
     BuildState.avgPriceDown := BuildState.avgPriceDown b;
     BuildState.initialPriceUp := BuildState.initialPriceUp b;
     BuildState.initialPriceDown := BuildState.initialPriceDown b;
     BuildState.lastRebalanceTime := BuildState.lastRebalanceTime b;
     BuildState.momentumBias := BuildState.momentumBias b |}.

(** *** The steps of one trading tick *)

Definition upComplete (b : BuildState.t) : bool :=
  JS.ge (BuildState.investedUp b) (BuildState.targetUp b * (98 # 100)).

Definition downComplete (b : BuildState.t) : bool :=
  JS.ge (BuildState.investedDown b) (BuildState.targetDown b * (98 # 100)).

(** Both sides complete: both targets grow by 10%. *)
Definition raiseTargets (b : BuildState.t) : BuildState.t :=
  if upComplete b && downComplete b
  then withTargets b (BuildState.targetUp b * (11 # 10))
                     (BuildState.targetDown b * (11 # 10))
  else b.

(** The momentum bias, looked at every [REBALANCE_CHECK_INTERVAL_MS]. *)
Definition rebalance (now : Q) (market : Market.t) (b : BuildState.t)
    : BuildState.t :=
  if JS.ge (now - BuildState.lastRebalanceTime b) REBALANCE_CHECK_INTERVAL_MS
  then
    let priceChangeUp := Market.priceUp market - BuildState.initialPriceUp b in
    let bias :=
      if JS.ge (Qabs priceChangeUp) PRICE_THRESHOLD_FOR_CHASE then
        if JS.gt priceChangeUp 0
        then JS.min 1 (priceChangeUp * MOMENTUM_CHASE_FACTOR * 2)
        else max (- (1)) (priceChangeUp * MOMENTUM_CHASE_FACTOR * 2)
      else BuildState.momentumBias b in
    withMomentum b bias now
  else b.

(** The locals [sharesUp], [sharesDown], [tradeUp], [tradeDown]. *)
Record Batch : Type := {
  sharesUp : Q;
  sharesDown : Q;
  tradeUp : Q;
  tradeDown : Q
}.

(** The side or sides to trade and their share counts; [upDone] and
    [downDone] are [upComplete] and [downComplete], taken before the targets
    were raised.  Returns the number of the next draw as well. *)
Definition chooseBatch (market : Market.t) (b : BuildState.t)
    (upDone downDone : bool) (n : nat) : Batch * nat :=
  let upProgress := BuildState.investedUp b / BuildState.targetUp b in
  let downProgress := BuildState.investedDown b / BuildState.targetDown b in
  let tradeBothSides := JS.lt (random n) (32 # 100) in
  let n := S n in
  if negb upDone && negb downDone then
    if tradeBothSides then
      let '(up, n) := selectTargetShares n in
      let '(down, n) := selectTargetShares n in
      let bias := BuildState.momentumBias b in
      let '(up, down) :=
        if JS.gt bias (1 # 10)
        then (up * (1 + bias * (3 # 10)), down * (1 - bias * (2 # 10)))
        else if JS.lt bias (- (1 # 10))
        then (up * (1 - Qabs bias * (2 # 10)),
              down * (1 + Qabs bias * (3 # 10)))
        else (up, down) in
      ({| sharesUp := up; sharesDown := down;
          tradeUp := up * Market.priceUp market;
          tradeDown := down * Market.priceDown market |}, n)
    else
      let upProbability :=
        (50 # 100) + BuildState.momentumBias b * (20 # 100) in
      let upProbability :=
        if JS.ge (Qabs (upProgress - downProgress)) (5 # 100) then
          if JS.lt upProgress downProgress
          then upProbability + (10 # 100)
          else upProbability - (10 # 100)
        else upProbability in
      let upProbability := max (30 # 100) (JS.min (70 # 100) upProbability) in
      let preferUp := JS.lt (random n) upProbability in
      let n := S n in
      let '(shares, n) := selectTargetShares n in
      if preferUp
      then ({| sharesUp := shares; sharesDown := 0;
               tradeUp := shares * Market.priceUp market;
               tradeDown := 0 |}, n)
      else ({| sharesUp := 0; sharesDown := shares;
               tradeUp := 0;
               tradeDown := shares * Market.priceDown market |}, n)
  else if negb upDone then
    let '(shares, n) := selectTargetShares n in
    ({| sharesUp := shares; sharesDown := 0;
        tradeUp := shares * Market.priceUp market; tradeDown := 0 |}, n)
  else if negb downDone then
    let '(shares, n) := selectTargetShares n in
    ({| sharesUp := 0; sharesDown := shares;
        tradeUp := 0; tradeDown := shares * Market.priceDown market |}, n)
  else ({| sharesUp := 0; sharesDown := 0; tradeUp := 0; tradeDown := 0 |}, n).

(** Each side is capped at what remains of its target. *)
Definition capToTargets (market : Market.t) (b : BuildState.t)
    (batch : Batch) : Batch :=
  let remainingUp := BuildState.targetUp b - BuildState.investedUp b in
  let remainingDown := BuildState.targetDown b - BuildState.investedDown b in
  let '(sUp, tUp) :=
    if JS.gt (tradeUp batch) remainingUp
    then (remainingUp / Market.priceUp market, remainingUp)
    else (sharesUp batch, tradeUp batch) in
  let '(sDown, tDown) :=
    if JS.gt (tradeDown batch) remainingDown
    then (remainingDown / Market.priceDown market, remainingDown)
    else (sharesDown batch, tradeDown batch) in
  {| sharesUp := sUp; sharesDown := sDown;
     tradeUp := tUp; tradeDown := tDown |}.

(** Both sides are scaled down when together they exceed the capital. *)
Definition capToCapital (market : Market.t) (capital : Q) (batch : Batch)
    : Batch :=
  if JS.gt (tradeUp batch + tradeDown batch) capital then
    let scale := capital / (tradeUp batch + tradeDown batch) in
    {| sharesUp := tradeUp batch * scale / Market.priceUp market;
       sharesDown := tradeDown batch * scale / Market.priceDown market;
       tradeUp := tradeUp batch * scale;
       tradeDown := tradeDown batch * scale |}
  else batch.

(** The execution of the UP and of the DOWN trade of a batch, on the
    globals and the build state. *)
Definition executeUp (key : string) (market : Market.t) (batch : Batch)
    (s : Globals * BuildState.t) : Globals * BuildState.t :=
  let '(g, b) := s in
  if JS.ge (sharesUp batch) MIN_SHARES && JS.gt (tradeUp batch) 0
     && JS.ge (currentCapital g) (tradeUp batch)
  then
    (PaperBot.payTrade g
       {| trade_conditionId := key; trade_side := UP;
          trade_shares := sharesUp batch; trade_cost := tradeUp batch;
          trade_price := Market.priceUp market |},
     boughtUp b (Market.priceUp market) (tradeUp batch))
  else (g, b).

Definition executeDown (key : string) (market : Market.t) (batch : Batch)
    (s : Globals * BuildState.t) : Globals * BuildState.t :=
  let '(g, b) := s in
  if JS.ge (sharesDown batch) MIN_SHARES && JS.gt (tradeDown batch) 0
     && JS.ge (currentCapital g) (tradeDown batch)
  then
    (PaperBot.payTrade g
       {| trade_conditionId := key; trade_side := DOWN;
          trade_shares := sharesDown batch; trade_cost := tradeDown batch;
          trade_price := Market.priceDown market |},
     boughtDown b (Market.priceDown market) (tradeDown batch))
  else (g, b).

(** [logPaperTrade] draws one [Math.random()] for the transaction hash of
    each trade it logs: the draws made between [g] and [g']. *)
Definition logged (g g' : Globals) : nat :=
  List.length (tradeLog g') - List.length (tradeLog g).

(** The gap to the next batch, in four tiers, and the number of the next
    draw. *)
Definition nextGap (n : nat) : Q * nat :=
  let gapRoll := random n in
  let gap :=
    if JS.lt gapRoll (80 # 100) then 2000 + random (S n) * 3000
    else if JS.lt gapRoll (88 # 100) then 5000 + random (S n) * 5000
    else if JS.lt gapRoll (94 # 100) then 10000 + random (S n) * 10000
    else 20000 + random (S n) * 40000 in
  (gap, S (S n)).

(** The build state is an object held by [buildingPositions]: its
    mutations show in the map. *)
Definition withBuildState (g : Globals) (key : string) (b : BuildState.t)
    : Globals :=
  {| currentCapital := currentCapital g;
     totalPnL := totalPnL g;
     totalTrades := totalTrades g;
     totalCycles := totalCycles g;
     positions := positions g;
     discoveredMarkets := discoveredMarkets g;
     processedCycles := processedCycles g;
     buildingPositions := JS.set (buildingPositions g) key b;
     tradeLog := tradeLog g;
     pendingDeletes := pendingDeletes g |}.

(** The function from the timing gate on, for the build state [b] that
    [buildingPositions] holds under [key]. *)
Definition tradeBatch (now : Q) (g : Globals) (n : nat) (market : Market.t)
    (key : string) (b : BuildState.t) : Globals * nat :=
  if JS.lt now (BuildState.nextTradeTime b) then (g, n)
  else
    let upDone := upComplete b in
    let downDone := downComplete b in
    let b := raiseTargets b in
    let b := rebalance now market b in
    let '(batch, n) := chooseBatch market b upDone downDone n in
    let batch := capToTargets market b batch in
    let batch := capToCapital market (currentCapital g) batch in
    let '(g', b) := executeUp key market batch (g, b) in
    let '(g', b) := executeDown key market batch (g', b) in
    let n := (n + logged g g')%nat in
    let '(gap, n) := nextGap n in
    (withBuildState g' key (withTiming b now (now + gap)), n).

(** *** buildPositionIncrementally *)

Definition skipAssetsMarker (key : string) : string :=
  ("skip-assets-" ++ key)%string.

(** An [endDate] below 10000000000 is taken to be in seconds. *)
Definition timeToExpiration (now : Q) (market : Market.t) : Q :=
  let endDateMs :=
    if JS.lt (Market.endDate market) 10000000000
    then Market.endDate market * 1000 else Market.endDate market in
  endDateMs - now.

Definition withGlobals (rt : Runtime) (g : Globals) (n : nat) : Runtime :=
  {| globals := g;
     discoveredConditionIds := discoveredConditionIds rt;
     draws := n |}.

(** [now] is the function's reading of the clock and [finalizedAt] the
    reading [finalizePosition] takes when it is called. *)
Definition buildPositionIncrementally (now finalizedAt : Q) (rt : Runtime)
    (market : Market.t) : Runtime :=
  let g := globals rt in
  let positionKey := Market.conditionId market in
  if emptyString (Market.assetUp market)
     || emptyString (Market.assetDown market)
  then
    {| globals := g;
       discoveredConditionIds :=
         JS.add (discoveredConditionIds rt) (skipAssetsMarker positionKey);
       draws := draws rt |}
  else if JS.falsy (Market.priceUp market) || JS.falsy (Market.priceDown market)
          || JS.le (Market.priceUp market) 0
          || JS.le (Market.priceDown market) 0
  then rt
  else if negb (JS.falsy (Market.endDate market))
          && JS.gt (Market.endDate market) 0
          && JS.lt (timeToExpiration now market) PaperBot.EXPIRATION_WINDOW_MS
  then
    match JS.get (buildingPositions g) positionKey with
    | Some buildState =>
        if JS.gt (BuildState.investedUp buildState) 0
           && JS.gt (BuildState.investedDown buildState) 0
           && negb (has (positions g) positionKey)
        then
          withGlobals rt
            (PaperBot.finalizePosition finalizedAt g market buildState)
            (draws rt)
        else rt
    | None => rt
    end
  else
    match JS.get (buildingPositions g) positionKey with
    | Some buildState =>
        let '(g, n) :=
          tradeBatch now g (draws rt) market positionKey buildState in
        withGlobals rt g n
    | None =>
        match newBuildState now (currentCapital g) market (random (draws rt))
        with
        | None => rt
        | Some buildState =>
            let '(g, n) :=
              tradeBatch now (withBuildState g positionKey buildState)
                (S (draws rt)) market positionKey buildState in
            withGlobals rt g n
        end
    end.

(** *** The monitor's loop over the discovered markets *)

Variable PAPER_MIN_TRADE : Q.
Variable PAPER_MAX_TRADE : Q.
Variable Number_toString : Q -> string.

Definition withPosition (g : Globals) (key : string)
    (position : MarketPosition) : Globals :=
  {| currentCapital := currentCapital g;
     totalPnL := totalPnL g;
     totalTrades := totalTrades g;
     totalCycles := totalCycles g;
     positions := JS.set (positions g) key position;
     discoveredMarkets := discoveredMarkets g;
     processedCycles := processedCycles g;
     buildingPositions := buildingPositions g;
     tradeLog := tradeLog g;
     pendingDeletes := pendingDeletes g |}.

(** The body of [for (const [conditionId, market] of
    discoveredMarkets.entries())].  [now] is the loop's reading of the clock,
    [calledAt] the reading of the function called, [finalizedAt] that of
    [finalizePosition]. *)
Definition processMarket (now calledAt finalizedAt : Q) (rt : Runtime)
    (entry : string * Market.t) : Runtime :=
  let '(conditionId, market) := entry in
  let g := globals rt in
  if negb (JS.falsy (Market.endDate market))
     && JS.gt (Market.endDate market) 0
     && JS.le (Market.endDate market) now
  then rt
  else
    let position := JS.get (positions g) conditionId in
    let isBuilding := has (buildingPositions g) conditionId in
    let hasAssets :=
      negb (emptyString (Market.assetUp market))
      && negb (emptyString (Market.assetDown market)) in
    if negb hasAssets then rt
    else if isBuilding
    then buildPositionIncrementally calledAt finalizedAt rt market
    else
      match position with
      | None => buildPositionIncrementally calledAt finalizedAt rt market
      | Some position =>
          if negb (hasArbitragePosition position)
             && negb (isSettled position)
          then
            let '(g', position) :=
              PaperBot.executeArbitrageTrade PAPER_MIN_TRADE PAPER_MAX_TRADE
                Number_toString calledAt g position market in
            withGlobals rt (withPosition g' conditionId position)
              (draws rt + logged g g')
          else rt
      end.

End Build.

End Builder.

(** ** The monitor's operations on its state *)

Module Session.

Section Operations.

Variable PAPER_BTC_MAX_PER_MARKET : Q.
Variable PAPER_ETH_MAX_PER_MARKET : Q.
Variable random : nat -> Q.
Variable PAPER_MIN_TRADE : Q.
Variable PAPER_MAX_TRADE : Q.
Variable Number_toString : Q -> string.

(** *** updatePrices *)

(** [m.assetUp && m.assetDown && (!m.endDate || m.endDate > now)] *)
Definition updatable (now : Q) (market : Market.t) : bool :=
  negb (Builder.emptyString (Market.assetUp market))
  && negb (Builder.emptyString (Market.assetDown market))
  && (JS.falsy (Market.endDate market) || JS.gt (Market.endDate market) now).

(** [if (price !== null) field = price], for the answer [book asset] of
    [getOrderBookPrice]. *)
Definition quoted (book : string -> option Q) (asset : string) (old : Q)
    : Q :=
  match book asset with
  | Some price => price
  | None => old
  end.

Definition updateMarket (now : Q) (book : string -> option Q)
    (market : Market.t) : Market.t :=
  if updatable now market then
    {| Market.conditionId := Market.conditionId market;
       Market.marketKey := Market.marketKey market;
       Market.marketName := Market.marketName market;
       Market.marketSlug := Market.marketSlug market;
       Market.assetUp := Market.assetUp market;
       Market.assetDown := Market.assetDown market;
       Market.endDate := Market.endDate market;
       Market.priceUp :=
         quoted book (Market.assetUp market) (Market.priceUp market);
       Market.priceDown :=
         quoted book (Market.assetDown market) (Market.priceDown market);
       Market.lastUpdate := now |}
  else market.

Definition withCurrentPrices (position : MarketPosition) (up down : Q)
    : MarketPosition :=
  {| conditionId := conditionId position;
     marketKey := marketKey position;
     marketName := marketName position;
     marketSlug := marketSlug position;
     assetUp := assetUp position;
     assetDown := assetDown position;
     endDate := endDate position;
     sharesUp := sharesUp position;
     sharesDown := sharesDown position;
     costUp := costUp position;
     costDown := costDown position;
     arbSharesUp := arbSharesUp position;
     arbSharesDown := arbSharesDown position;
     arbCostUp := arbCostUp position;
     arbCostDown := arbCostDown position;
     currentPriceUp := up;
     currentPriceDown := down;
     hasSplitPosition := hasSplitPosition position;
     hasArbitragePosition := hasArbitragePosition position;
     isSettled := isSettled position;
     settlementPnL := settlementPnL position;
     createdAt := createdAt position |}.

(** The position of an updated market gets the fetched prices too. *)
Definition updatePosition (now : Q) (book : string -> option Q)
    (entries : list (string * MarketPosition)) (market : Market.t)
    : list (string * MarketPosition) :=
  if updatable now market then
    match JS.get entries (Market.conditionId market) with
    | Some position =>
        JS.set entries (Market.conditionId market)
          (withCurrentPrices position
             (quoted book (Market.assetUp market) (currentPriceUp position))
             (quoted book (Market.assetDown market)
                (currentPriceDown position)))
    | None => entries
    end
  else entries.

(** [book] gives the answers of [getOrderBookPrice] during the call. *)
Definition updatePrices (now : Q) (book : string -> option Q) (g : Globals)
    : Globals :=
  {| currentCapital := currentCapital g;
     totalPnL := totalPnL g;
     totalTrades := totalTrades g;
     totalCycles := totalCycles g;
     positions :=
       fold_left (updatePosition now book)
         (map snd (discoveredMarkets g)) (positions g);
     discoveredMarkets :=
       map (fun entry => (fst entry, updateMarket now book (snd entry)))
         (discoveredMarkets g);
     processedCycles := processedCycles g;
     buildingPositions := buildingPositions g;
     tradeLog := tradeLog g;
     pendingDeletes := pendingDeletes g |}.

(** *** The delayed removal of a settled position *)

(** The oldest [setTimeout(() => positions.delete(..), 5000)] fires. *)
Definition firePendingDelete (g : Globals) : Globals :=
  match pendingDeletes g with
  | [] => g
  | key :: rest =>
      {| currentCapital := currentCapital g;
         totalPnL := totalPnL g;
         totalTrades := totalTrades g;
         totalCycles := totalCycles g;
         positions := JS.delete (positions g) key;
         discoveredMarkets := discoveredMarkets g;
         processedCycles := processedCycles g;
         buildingPositions := buildingPositions g;
         tradeLog := tradeLog g;
         pendingDeletes := rest |}
  end.

(** *** Operations *)

(** What the running monitor does to its state, one operation at a time.
    The two discovery functions depend on the network and on the tracker:
    [Discover] stands for any outcome they leave in [discoveredMarkets] and
    [discoveredConditionIds].  [Arbitrage], [Settle], [Finalize] and
    [Build] are the functions called on their own, on any argument. *)
Inductive Operation : Type :=
| Discover (markets : list (string * Market.t)) (ids : list string)
| UpdatePrices (now : Q) (book : string -> option Q)
| Cleanup (now : Q) (proactivelyDiscoveredIds : list string)
| Process (now calledAt finalizedAt : Q) (entry : string * Market.t)
| SettlePositions (now : Q) (book : string -> option Q)
| FirePendingDelete
| Arbitrage (now : Q) (position : MarketPosition) (market : Market.t)
| Settle (position : MarketPosition) (upWon downWon : bool)
| Finalize (now : Q) (market : Market.t) (buildState : BuildState.t)
| Build (now finalizedAt : Q) (market : Market.t).

Definition withMarkets (g : Globals) (markets : list (string * Market.t))
    : Globals :=
  {| currentCapital := currentCapital g;
     totalPnL := totalPnL g;
     totalTrades := totalTrades g;
     totalCycles := totalCycles g;
     positions := positions g;
     discoveredMarkets := markets;
     processedCycles := processedCycles g;
     buildingPositions := buildingPositions g;
     tradeLog := tradeLog g;
     pendingDeletes := pendingDeletes g |}.

Definition onGlobals (rt : Runtime) (g : Globals) : Runtime :=
  {| globals := g;
     discoveredConditionIds := discoveredConditionIds rt;
     draws := (draws rt + Builder.logged (globals rt) g)%nat |}.

Definition run (rt : Runtime) (op : Operation) : Runtime :=
  match op with
  | Discover markets ids =>
      {| globals := withMarkets (globals rt) markets;
         discoveredConditionIds := ids;
         draws := draws rt |}
  | UpdatePrices now book =>
      onGlobals rt (updatePrices now book (globals rt))
  | Cleanup now proactivelyDiscoveredIds =>
      onGlobals rt
        (fst (Monitor.cleanupExpiredMarketsAndPositions now (globals rt)
                proactivelyDiscoveredIds))
  | Process now calledAt finalizedAt entry =>
      Builder.processMarket PAPER_BTC_MAX_PER_MARKET PAPER_ETH_MAX_PER_MARKET
        random PAPER_MIN_TRADE PAPER_MAX_TRADE Number_toString now calledAt
        finalizedAt rt entry
  | SettlePositions now book =>
      onGlobals rt (PaperBot.settlePositions book now (globals rt))
  | FirePendingDelete => onGlobals rt (firePendingDelete (globals rt))
  | Arbitrage now position market =>
      onGlobals rt
        (fst (PaperBot.executeArbitrageTrade PAPER_MIN_TRADE PAPER_MAX_TRADE
                Number_toString now (globals rt) position market))
  | Settle position upWon downWon =>
      onGlobals rt
        (fst (PaperBot.settlePosition (globals rt) position upWon downWon))
  | Finalize now market buildState =>
      onGlobals rt
        (PaperBot.finalizePosition now (globals rt) market buildState)
  | Build now finalizedAt market =>
      Builder.buildPositionIncrementally PAPER_BTC_MAX_PER_MARKET
        PAPER_ETH_MAX_PER_MARKET random now finalizedAt rt market
  end.

Definition runAll (rt : Runtime) (ops : list Operation) : Runtime :=
  fold_left run ops rt.

(** No [settlePositions] of [ops], run from [rt], finds more than 1000
    keys in [processedCycles], the size from which it deletes keys. *)
Fixpoint unpruned (rt : Runtime) (ops : list Operation) : bool :=
  match ops with
  | [] => true
  | op :: rest =>
      match op with
      | SettlePositions _ _ =>
          (List.length (processedCycles (globals rt)) <=? 1000)%nat
      | _ => true
      end
      && unpruned (run rt op) rest
  end.

End Operations.

End Session.

(** * Specification vocabulary

    The notions the properties below are stated with. *)

Section Vocabulary.

Import PolicyEngine.

(** A side qualifies on its own when its band is set and holds the price,
    and the mode condition holds for the delta that side reads. *)
Definition bandMatched (lo hi : option Q) (px : Q) : Prop :=
  exists l h, lo = Some l /\ hi = Some h /\ l <= px /\ px <= h.

Definition modeSatisfied (entryParams : EntryParams) (delta : Q) : Prop :=
  if String.eqb (mode entryParams) "momentum"
  then momentum_threshold entryParams <= delta
  else if String.eqb (mode entryParams) "reversion"
  then delta <= - momentum_threshold entryParams
  else True.

Definition sideDelta (features : Features) : Q :=
  orElse (delta_5s_side_px features) 0.

Definition downDelta (features : Features) : Q :=
  orElse (delta_5s_down_px features) (sideDelta features).

Definition upQualifies (state : TapeState) (features : Features)
    (entryParams : EntryParams) : Prop :=
  bandMatched (up_price_min entryParams) (up_price_max entryParams)
              (up_px state)
  /\ modeSatisfied entryParams (sideDelta features).

Definition downQualifies (state : TapeState) (features : Features)
    (entryParams : EntryParams) : Prop :=
  bandMatched (down_price_min entryParams) (down_price_max entryParams)
              (down_px state)
  /\ modeSatisfied entryParams (downDelta features).

Definition sharesOf (inventory : InventoryState) (s : Side) : Q :=
  match s with
  | UP => inv_up_shares inventory
  | DOWN => inv_down_shares inventory
  end.

Definition capOf (inventoryParams : InventoryParams) (s : Side) : Q :=
  match s with
  | UP => max_up_shares inventoryParams
  | DOWN => max_down_shares inventoryParams
  end.

Definition totalShares (inventory : InventoryState) : Q :=
  inv_up_shares inventory + inv_down_shares inventory.

(** The property as the specification words it: a returned side still fits
    under its cap, and the total under the total cap, after a trade of
    [size] shares. *)
Definition withinCapsAfterTrade (inventory : InventoryState)
    (inventoryParams : InventoryParams) (proposedSide : Side) (size : Q)
    : Prop :=
  forall s,
    inventoryOkAndRebalance inventory (Some inventoryParams) proposedSide
    = Some s ->
    sharesOf inventory s + size <= capOf inventoryParams s
    /\ totalShares inventory + size <= max_total_shares inventoryParams.

(** The property as the specification words it: a price on [edge[i]] lands in
    bin [i]. *)
Definition edgeResolvesToOwnBin (binEdges : list Q) (i : nat) : Prop :=
  forall e, nth_error binEdges i = Some e ->
            bucketIndex binEdges e = Z.of_nat i.

(** The three delta fields of the window of [seconds] seconds: UP, DOWN and
    the aliased "side" delta. *)
Definition deltaFields (seconds : Z) (f : Features)
    : option Q * option Q * option Q :=
  match seconds with
  | 1%Z => (delta_1s_up_px f, delta_1s_down_px f, delta_1s_side_px f)
  | 5%Z => (delta_5s_up_px f, delta_5s_down_px f, delta_5s_side_px f)
  | 30%Z => (delta_30s_up_px f, delta_30s_down_px f, delta_30s_side_px f)
  | _ => (None, None, None)
  end.

(** Some history sample lies within [2w] of [now - w]. *)
Definition sampleNear (state : TapeState) (history : list PriceHistory)
    (seconds : Z) : Prop :=
  exists h,
    In h history
    /\ Qabs (h_timestamp h - (timestamp state - inject_Z seconds * 1000))
       < inject_Z seconds * 2000.

(** Distance of a sample from the target timestamp. *)
Definition dist (targetTs : Q) (h : PriceHistory) : Q :=
  Qabs (h_timestamp h - targetTs).

(** What [deltaStep] writes for a window, if anything. *)
Definition windowDeltas (state : TapeState)
    (sortedHistory : list PriceHistory) (seconds : Z) : option (Q * Q) :=
  let windowTs := timestamp state - inject_Z seconds * 1000 in
  match findClosest sortedHistory windowTs with
  | None => None
  | Some past =>
      if JS.lt (dist windowTs past) (inject_Z seconds * 2000)
      then Some (up_px state - h_up_px past, down_px state - h_down_px past)
      else None
  end.

Definition written (d : option (Q * Q))
    (old : option Q * option Q * option Q) : option Q * option Q * option Q :=
  match d with
  | Some (deltaUp, deltaDown) => (Some deltaUp, Some deltaDown, Some deltaUp)
  | None => old
  end.

End Vocabulary.

(** * Worked instances

    Concrete ticks, configurations, markets and positions on which the
    properties are exercised. *)

(** The decimal digits of an integral number, as a template literal prints
    it (used for the cycle keys of the instances below). *)
Definition showInteger (q : Q) : string :=
  NilZero.string_of_int (Z.to_int (Qfloor q)).

Definition noBook (asset : string) : option Q := None.

Definition tick_example : TapeState :=
  {| timestamp := 60000; up_px := 1 # 2; down_px := 1 # 2;
     market := "BTC" |}.

Definition features_example : Features :=
  {| delta_1s_side_px := None; delta_5s_side_px := Some (3 # 100);
     delta_30s_side_px := None;
     delta_1s_up_px := None; delta_5s_up_px := Some (3 # 100);
     delta_30s_up_px := None;
     delta_1s_down_px := None; delta_5s_down_px := Some (2 # 100);
     delta_30s_down_px := None;
     volatility_5s := None; volatility_30s := None;
     distance_from_50 := 0 |}.

Definition history_example : list PriceHistory :=
  [ {| h_timestamp := 58500; h_up_px := 45 # 100; h_down_px := 55 # 100 |};
    {| h_timestamp := 54000; h_up_px := 40 # 100; h_down_px := 60 # 100 |} ].

Definition entry_example : EntryParams :=
  {| up_price_min := Some (2 # 5); up_price_max := Some (3 # 5);
     down_price_min := Some (2 # 5); down_price_max := Some (3 # 5);
     mode := "momentum"; momentum_threshold := 1 # 100 |}.

Definition cadence_example : CadenceParams :=
  {| min_inter_trade_ms := 100; max_trades_per_sec := 2;
     max_trades_per_min := 30 |}.

Definition inventory_example : InventoryState :=
  {| inv_up_shares := 9; inv_down_shares := 0;
     avg_cost_up := None; avg_cost_down := None |}.

Definition inventory_caps_example : InventoryParams :=
  {| max_up_shares := 10; max_down_shares := 10; max_total_shares := 12;
     rebalance_ratio_R := 3 # 5 |}.

Definition inventory_skewed_example : InventoryState :=
  {| inv_up_shares := 8; inv_down_shares := 2;
     avg_cost_up := None; avg_cost_down := None |}.

Definition market_example : Market.t :=
  {| Market.conditionId := "0xabc";
     Market.marketKey := "BTC-15m";
     Market.marketName := "Bitcoin Up or Down";
     Market.marketSlug := "btc-updown-15m";
     Market.assetUp := "up-token";
     Market.assetDown := "down-token";
     Market.endDate := 1766000000000;
     Market.priceUp := 97 # 100;
     Market.priceDown := 3 # 100;
     Market.lastUpdate := 1765999940000 |}.

Definition build_example : BuildState.t :=
  {| BuildState.marketKey := "BTC-15m";
     BuildState.targetUp := 600;
     BuildState.targetDown := 400;
     BuildState.investedUp := 600;
     BuildState.investedDown := 400;
     BuildState.lastTradeTime := 1765999870000;
     BuildState.nextTradeTime := 1765999873000;
     BuildState.tradeCount := 42;
     BuildState.avgPriceUp := 1 # 2;
     BuildState.avgPriceDown := 2 # 5;
     BuildState.initialPriceUp := 1 # 2;
     BuildState.initialPriceDown := 1 # 2;
     BuildState.lastRebalanceTime := 1765999870000;
     BuildState.momentumBias := 0 |}.

Definition globals_example (capital : Q) : Globals :=
  {| currentCapital := capital;
     totalPnL := 0;
     totalTrades := 42;
     totalCycles := 0;
     positions := [];
     discoveredMarkets := [];
     processedCycles := [];
     buildingPositions := [];
     tradeLog := [];
     pendingDeletes := [] |}.

(** The position built from [build_example], 61 s before expiry. *)
Definition position_example : MarketPosition :=
  PaperBot.builtPosition 1765999939000 market_example build_example.

(** The same position with both book prices read at or above 0.95. *)
Definition double_winner_example : MarketPosition :=
  {| conditionId := "0xabc";
     marketKey := "BTC-15m";
     marketName := "Bitcoin Up or Down";
     marketSlug := "btc-updown-15m";
     assetUp := "up-token";
     assetDown := "down-token";
     endDate := 1766000000000;
     sharesUp := 1200;
     sharesDown := 1000;
     costUp := 600;
     costDown := 400;
     arbSharesUp := 0;
     arbSharesDown := 500;
     arbCostUp := 0;
     arbCostDown := 15;
     currentPriceUp := 97 # 100;
     currentPriceDown := 96 # 100;
     hasSplitPosition := true;
     hasArbitragePosition := true;
     isSettled := false;
     settlementPnL := 0;
     createdAt := 1765999939000 |}.

(** * Further vocabulary and instances

    Notions and instances used by the properties that follow the settled
    ones. *)

Section FurtherVocabulary.

Import PolicyEngine.

(** The volatility field of the window of [seconds] seconds. *)
Definition volatilityField (seconds : Z) (f : Features) : option Q :=
  match seconds with
  | 5%Z => volatility_5s f
  | 30%Z => volatility_30s f
  | _ => None
  end.

(** A sample's timestamp lies in [now - w, now]. *)
Definition inWindow (state : TapeState) (seconds : Z) (h : PriceHistory)
    : bool :=
  JS.ge (h_timestamp h) (timestamp state - inject_Z seconds * 1000)
  && JS.le (h_timestamp h) (timestamp state).

Definition samplesInWindow (state : TapeState) (history : list PriceHistory)
    (seconds : Z) : nat :=
  List.length (filter (inWindow state seconds) history).

(** [up / (up + down)], the share of UP in the inventory. *)
Definition upRatio (inventory : InventoryState) : Q :=
  inv_up_shares inventory
  / (inv_up_shares inventory + inv_down_shares inventory).

End FurtherVocabulary.

(** A position is due for settlement: its end date is set and has
    passed. *)
Definition dueAt (now : Q) (position : MarketPosition) : Prop :=
  ~ endDate position == 0 /\ endDate position <= now.

(** The guard with which the settlement loop passes over an entry. *)
Definition skipsSettlement (now : Q) (position : MarketPosition) : bool :=
  isSettled position
  || (JS.falsy (endDate position) || Qeq_bool (endDate position) 0
      || JS.gt (endDate position) now).

(** How one entry of [positions] relates to itself after a settlement
    pass. *)
Definition settledBy (now : Q) (old new : string * MarketPosition) : Prop :=
  fst new = fst old
  /\ (dueAt now (snd old) -> isSettled (snd new) = true)
  /\ (~ dueAt now (snd old) -> snd new = snd old)
  /\ (isSettled (snd old) = true -> snd new = snd old).

(** The outcome flags with which [side] has won. *)
Definition wonBy (s : Side) : bool * bool :=
  match s with
  | UP => (true, false)
  | DOWN => (false, true)
  end.

(** The purchase the first arbitrage attempt on [position_example] makes
    with a capital of 9000: 15 dollars of DOWN at 0.03. *)
Definition arbitrage_trade_example : PaperTrade :=
  {| trade_conditionId := "0xabc";
     trade_side := DOWN;
     trade_shares := 15 / (3 # 100);
     trade_cost := 15;
     trade_price := 3 # 100 |}.

(** The time between a WATCH trade and a PAPER trade. *)
Definition timeApart (watchTrade paperTrade : ParsedTrade) : Q :=
  Qabs (pt_timestamp paperTrade - pt_timestamp watchTrade).

(** [paperTrade] is the chosen partner of [watchTrade] within [papers]: in
    the window, strictly nearer than every earlier PAPER trade and at least
    as near as every later one. *)
Definition nearestFirst (windowMs : Q) (watchTrade : ParsedTrade)
    (before : list ParsedTrade) (paperTrade : ParsedTrade)
    (after : list ParsedTrade) : Prop :=
  timeApart watchTrade paperTrade <= windowMs
  /\ (forall q, In q before ->
        timeApart watchTrade paperTrade < timeApart watchTrade q)
  /\ (forall q, In q after ->
        timeApart watchTrade paperTrade <= timeApart watchTrade q).

(** The state of the inner loop after the PAPER trades [done]. *)
Definition loopState (windowMs : Q) (market : string)
    (watchTrade : ParsedTrade) (done : list ParsedTrade)
    (acc : option TradeMatch * Q) : Prop :=
  (fst acc = None /\ snd acc = windowMs + 1
   /\ forall q, In q done -> windowMs < timeApart watchTrade q)
  \/ exists before paperTrade after,
       done = before ++ paperTrade :: after
       /\ fst acc
          = Some (Parity.makeMatch market watchTrade paperTrade
                    (timeApart watchTrade paperTrade))
       /\ snd acc = timeApart watchTrade paperTrade
       /\ nearestFirst windowMs watchTrade before paperTrade after.

Definition watch_example : ParsedTrade :=
  {| pt_timestamp := 1000; pt_side := "UP"; pt_shares := 10;
     pt_fill_px := 23 # 100;
     pt_notes := "WATCH: UP 10.0000 shares @ $0.2300" |}.

Definition paper_near_example : ParsedTrade :=
  {| pt_timestamp := 1500; pt_side := "UP"; pt_shares := 8;
     pt_fill_px := 25 # 100;
     pt_notes := "PAPER: UP 8.0000 shares @ $0.2500" |}.

Definition paper_far_example : ParsedTrade :=
  {| pt_timestamp := 4000; pt_side := "DOWN"; pt_shares := 12;
     pt_fill_px := 70 # 100;
     pt_notes := "PAPER: DOWN 12.0000 shares @ $0.7000" |}.

Definition size_params_example : SizeParams :=
  {| bin_edges := Some [0; 1 # 2; 1];
     size_table :=
       Some [("(0, 0.5]"%string, 12345 # 1000);
             ("(0.5, 1]"%string, 7);
             ("(1, 2]"%string, 3)] |}.

Definition inventory_low_R_example : InventoryParams :=
  {| max_up_shares := 100; max_down_shares := 100; max_total_shares := 150;
     rebalance_ratio_R := 3 # 10 |}.

Definition inventory_even_example : InventoryState :=
  {| inv_up_shares := 10; inv_down_shares := 10;
     avg_cost_up := None; avg_cost_down := None |}.

Definition inventory_wide_caps_example : InventoryParams :=
  {| max_up_shares := 100; max_down_shares := 100; max_total_shares := 150;
     rebalance_ratio_R := 3 # 5 |}.

(** [m] is the upper median of [values]: one of them, with at most half
    of the values below it and more than half of them at or below it. *)
Definition upperMedian (m : Q) (values : list Q) : Prop :=
  In m values
  /\ (List.length (filter (fun v => JS.lt v m) values)
      <= List.length values / 2
      < List.length (filter (fun v => JS.le v m) values))%nat.

(** A number that is not negative and has at most four decimals, as a
    template literal prints it: ["0"], ["0.5"], ["12.345"]. *)
Definition showDecimal (q : Q) : string :=
  let n := Qfloor (q * 10000) in
  let digit (k : Z) := NilZero.string_of_int (Z.to_int ((n / k) mod 10)) in
  let fraction :=
    if (n mod 10 =? 0)%Z then
      if (n mod 100 =? 0)%Z then
        if (n mod 1000 =? 0)%Z then
          if (n mod 10000 =? 0)%Z then ""%string
          else ("." ++ digit 1000%Z)%string
        else ("." ++ digit 1000%Z ++ digit 100%Z)%string
      else ("." ++ digit 1000%Z ++ digit 100%Z ++ digit 10%Z)%string
    else ("." ++ digit 1000%Z ++ digit 100%Z ++ digit 10%Z ++ digit 1%Z)%string
  in
  (NilZero.string_of_int (Z.to_int (n / 10000)) ++ fraction)%string.

(** The entries that a cleanup at [now] removes: an unsettled position
    whose market is not tracked or whose own end date passed more than a
    minute ago, a build state whose market is not tracked or ended more
    than a minute ago. *)
Definition dropsPosition (now : Q) (markets : list (string * Market.t))
    (entry : string * MarketPosition) : bool :=
  negb (isSettled (snd entry))
  && (negb (Builder.has markets (fst entry))
      || Monitor.longExpired now (endDate (snd entry))).

Definition dropsBuild (now : Q) (markets : list (string * Market.t))
    (entry : string * BuildState.t) : bool :=
  match JS.get markets (fst entry) with
  | None => true
  | Some market => Monitor.longExpired now (Market.endDate market)
  end.

(** What a cleanup refunds, in the order in which it does: the split cost
    of each position removed, then the invested dollars of each build state
    removed. *)
Definition refunds (now : Q) (g : Globals) : list Q :=
  map (fun entry => costUp (snd entry) + costDown (snd entry))
    (filter (dropsPosition now (discoveredMarkets g)) (positions g))
  ++ map (fun entry =>
            BuildState.investedUp (snd entry)
            + BuildState.investedDown (snd entry))
       (filter (dropsBuild now (discoveredMarkets g)) (buildingPositions g)).

(** The costs of the trades of [trades] on [side], in order. *)
Definition costsOn (side : Side) (trades : list PaperTrade) : list Q :=
  map trade_cost
    (filter
       (fun trade =>
          match trade_side trade, side with
          | UP, UP | DOWN, DOWN => true
          | _, _ => false
          end)
       trades).

(** A build state has invested on neither side more than its target. *)
Definition withinTargets (b : BuildState.t) : Prop :=
  0 <= BuildState.investedUp b <= BuildState.targetUp b
  /\ 0 <= BuildState.investedDown b <= BuildState.targetDown b.

(** [trade] is a purchase on [market] at the market's price of its side:
    at least half a share, for a positive cost; either the cost was
    computed as shares times price, or the shares as cost divided by
    price. *)
Definition buildTrade (market : Market.t) (trade : PaperTrade) : Prop :=
  trade_conditionId trade = Market.conditionId market
  /\ trade_price trade
     = match trade_side trade with
       | UP => Market.priceUp market
       | DOWN => Market.priceDown market
       end
  /\ 0 < trade_price trade
  /\ 1 # 2 <= trade_shares trade
  /\ 0 < trade_cost trade
  /\ (trade_cost trade = trade_shares trade * trade_price trade
      \/ trade_shares trade = trade_cost trade / trade_price trade).

(** No market is being built while it holds a position. *)
Definition exclusive (g : Globals) : Prop :=
  forall key,
    Builder.has (buildingPositions g) key = true ->
    Builder.has (positions g) key = false.

(** In a batch the dollars of a side were computed as its shares times its
    price, or its shares as the dollars divided by the price, or no dollars
    are proposed for the side. *)
Definition priced (market : Market.t) (batch : Builder.Batch) : Prop :=
  (Builder.tradeUp batch = Builder.sharesUp batch * Market.priceUp market
   \/ Builder.sharesUp batch = Builder.tradeUp batch / Market.priceUp market
   \/ Builder.tradeUp batch = 0)
  /\ (Builder.tradeDown batch
      = Builder.sharesDown batch * Market.priceDown market
      \/ Builder.sharesDown batch
         = Builder.tradeDown batch / Market.priceDown market
      \/ Builder.tradeDown batch = 0).

(** A state with one tracked market and two build states, one of them for
    a market that is not tracked any more. *)
Definition tracked_globals_example : Globals :=
  {| currentCapital := 1000;
     totalPnL := 0;
     totalTrades := 42;
     totalCycles := 0;
     positions := [];
     discoveredMarkets := [("0xabc"%string, market_example)];
     processedCycles := [];
     buildingPositions :=
       [("0xabc"%string, build_example); ("0xgone"%string, build_example)];
     tradeLog := [];
     pendingDeletes := [] |}.

(** A monitor around [g] that has drawn no random number yet, and a
    [Math.random()] that always returns one half. *)
Definition runtime_example (g : Globals) : Runtime :=
  {| globals := g; discoveredConditionIds := []; draws := 0 |}.

Definition steady_random : nat -> Q := fun _ => 1 # 2.

(** A build state whose DOWN side is complete and whose UP side lacks
    $1.50, less than the next trade would cost, in a state with a capital of
    1000. *)
Definition nearly_built_example : BuildState.t :=
  {| BuildState.marketKey := "BTC-15m";
     BuildState.targetUp := 50;
     BuildState.targetDown := 50;
     BuildState.investedUp := 485 # 10;
     BuildState.investedDown := 50;
     BuildState.lastTradeTime := 1765998987000;
     BuildState.nextTradeTime := 1765998990000;
     BuildState.tradeCount := 30;
     BuildState.avgPriceUp := 95 # 100;
     BuildState.avgPriceDown := 4 # 100;
     BuildState.initialPriceUp := 95 # 100;
     BuildState.initialPriceDown := 5 # 100;
     BuildState.lastRebalanceTime := 1765998995000;
     BuildState.momentumBias := 0 |}.

Definition nearly_built_globals_example : Globals :=
  {| currentCapital := 1000;
     totalPnL := 0;
     totalTrades := 30;
     totalCycles := 0;
     positions := [];
     discoveredMarkets := [("0xabc"%string, market_example)];
     processedCycles := [];
     buildingPositions := [("0xabc"%string, nearly_built_example)];
     tradeLog := [];
     pendingDeletes := [] |}.

(** A thousand positions of other markets that expire in the same minute
    as [position_example], and the attempts on them. *)
Definition crowd_position (i : nat) : MarketPosition :=
  {| conditionId := ("0x" ++ showInteger (inject_Z (Z.of_nat i)))%string;
     marketKey := marketKey position_example;
     marketName := marketName position_example;
     marketSlug := marketSlug position_example;
     assetUp := assetUp position_example;
     assetDown := assetDown position_example;
     endDate := endDate position_example;
     sharesUp := sharesUp position_example;
     sharesDown := sharesDown position_example;
     costUp := costUp position_example;
     costDown := costDown position_example;
     arbSharesUp := 0;
     arbSharesDown := 0;
     arbCostUp := 0;
     arbCostDown := 0;
     currentPriceUp := currentPriceUp position_example;
     currentPriceDown := currentPriceDown position_example;
     hasSplitPosition := true;
     hasArbitragePosition := false;
     isSettled := false;
     settlementPnL := 0;
     createdAt := createdAt position_example |}.

Definition crowd_example (now : Q) : list Session.Operation :=
  map (fun i => Session.Arbitrage now (crowd_position i) market_example)
    (seq 1 1000).

(** A position of an older market, due for settlement with UP at 0.97, and
    a state that holds it with a capital of 0.20. *)
Definition due_position_example : MarketPosition :=
  {| conditionId := "0xold";
     marketKey := "BTC-15m";
     marketName := "Bitcoin Up or Down";
     marketSlug := "btc-updown-15m";
     assetUp := "up-token";
     assetDown := "down-token";
     endDate := 1765999900000;
     sharesUp := 1200;
     sharesDown := 1000;
     costUp := 600;
     costDown := 400;
     arbSharesUp := 0;
     arbSharesDown := 0;
     arbCostUp := 0;
     arbCostDown := 0;
     currentPriceUp := 97 # 100;
     currentPriceDown := 3 # 100;
     hasSplitPosition := true;
     hasArbitragePosition := false;
     isSettled := false;
     settlementPnL := 0;
     createdAt := 1765999000000 |}.

Definition underfunded_globals_example : Globals :=
  {| currentCapital := 1 # 5;
     totalPnL := 0;
     totalTrades := 42;
     totalCycles := 0;
     positions := [("0xold"%string, due_position_example)];
     discoveredMarkets := [];
     processedCycles := [];
     buildingPositions := [];
     tradeLog := [];
     pendingDeletes := [] |}.

(** Operations of a quiet stretch: a settlement, a settlement pass, a
    cleanup, a build call, a price update, a timer and a discovery. *)
Definition quiet_operations_example : list Session.Operation :=
  [Session.Settle double_winner_example true false;
   Session.SettlePositions 1765999939200 noBook;
   Session.Cleanup 1765999939300 [];
   Session.Build 1765999939400 1765999939400 market_example;
   Session.UpdatePrices 1765999939500 noBook;
   Session.FirePendingDelete;
   Session.Discover [("0xabc"%string, market_example)] ["0xabc"%string]].

(** * Properties *)

(** ** Comparisons as propositions *)

Module JSFacts.

Lemma ge_iff (x y : Q) : JS.ge x y = true <-> y <= x.
Proof. apply Qle_bool_iff. Qed.

Lemma le_iff (x y : Q) : JS.le x y = true <-> x <= y.
Proof. apply Qle_bool_iff. Qed.

Lemma le_false (x y : Q) : JS.le x y = false <-> y < x.
Proof.
  unfold JS.le. split; intro H.
  - apply Qnot_le_lt. intro L. apply Qle_bool_iff in L. congruence.
  - destruct (Qle_bool x y) eqn:E; [| reflexivity].
    apply Qle_bool_iff in E. exfalso. lra.
Qed.

Lemma ge_false (x y : Q) : JS.ge x y = false <-> x < y.
Proof. apply le_false. Qed.

Lemma lt_iff (x y : Q) : JS.lt x y = true <-> x < y.
Proof. unfold JS.lt. rewrite negb_true_iff. apply le_false. Qed.

Lemma lt_false (x y : Q) : JS.lt x y = false <-> y <= x.
Proof. unfold JS.lt. rewrite negb_false_iff. apply Qle_bool_iff. Qed.

Lemma gt_iff (x y : Q) : JS.gt x y = true <-> y < x.
Proof. unfold JS.gt. rewrite negb_true_iff. apply le_false. Qed.

Lemma gt_false (x y : Q) : JS.gt x y = false <-> x <= y.
Proof. unfold JS.gt. rewrite negb_false_iff. apply Qle_bool_iff. Qed.

Lemma has_In (s : list string) (k : string) : JS.has s k = true <-> In k s.
Proof.
  unfold JS.has. rewrite existsb_exists. split.
  - intros [x [Hin Heq]]. apply String.eqb_eq in Heq. now subst.
  - intro Hin. exists k. split; [assumption | apply String.eqb_refl].
Qed.

Lemma In_add (s : list string) (k k' : string) :
  In k' (JS.add s k) <-> k' = k \/ In k' s.
Proof.
  unfold JS.add. destruct (JS.has s k) eqn:E.
  - apply has_In in E. split; [now right | intros [-> | H]; assumption].
  - rewrite in_app_iff. simpl. split; intros [H | H]; auto.
    + destruct H as [H | []]; auto.
Qed.

Lemma get_set_same {A : Type} (m : list (string * A)) (k : string) (v : A) :
  JS.get (JS.set m k v) k = Some v.
Proof.
  unfold JS.get. induction m as [| [k0 w] m IH]; simpl.
  - now rewrite String.eqb_refl.
  - destruct (String.eqb k0 k) eqn:E; simpl; rewrite E; [reflexivity | exact IH].
Qed.

End JSFacts.

(** Turn every boolean comparison among the hypotheses into its order
    statement. *)
Ltac js_order :=
  repeat match goal with
    | H : _ && _ = true |- _ => apply andb_true_iff in H; destruct H
    | H : _ || _ = false |- _ => apply orb_false_iff in H; destruct H
    | H : JS.ge _ _ = true |- _ => apply JSFacts.ge_iff in H
    | H : JS.ge _ _ = false |- _ => apply JSFacts.ge_false in H
    | H : JS.le _ _ = true |- _ => apply JSFacts.le_iff in H
    | H : JS.le _ _ = false |- _ => apply JSFacts.le_false in H
    | H : JS.lt _ _ = true |- _ => apply JSFacts.lt_iff in H
    | H : JS.lt _ _ = false |- _ => apply JSFacts.lt_false in H
    | H : JS.gt _ _ = true |- _ => apply JSFacts.gt_iff in H
    | H : JS.gt _ _ = false |- _ => apply JSFacts.gt_false in H
    end.

(** ** CadenceLimiter *)

Section CadenceProperties.

Import PolicyEngine.

(** C7.  With a cadence configuration, [cadenceOk] allows a trade only if
    the number of recent trade timestamps in [now - 1000, now] is strictly
    below [max_trades_per_sec]; when the count equals the cap the trade is
    rejected. *)
Theorem cadenceOk_one_second_cap :
  forall (lastTradeTs : option Q) (recentTradeTimes : list Q)
         (cadenceParams : CadenceParams) (currentTs : Q),
    let count :=
      ofNat (tradesInWindow recentTradeTimes (currentTs - 1000) currentTs) in
    (cadenceOk lastTradeTs recentTradeTimes (Some cadenceParams) currentTs
       = true -> count < max_trades_per_sec cadenceParams)
    /\ (count == max_trades_per_sec cadenceParams ->
        cadenceOk lastTradeTs recentTradeTimes (Some cadenceParams) currentTs
          = false).
Proof.
  intros lastTradeTs recent params currentTs count.
  assert (Hcap : JS.ge count (max_trades_per_sec params) = false ->
                 count < max_trades_per_sec params)
    by apply JSFacts.ge_false.
  unfold cadenceOk. fold count. split.
  - destruct (match lastTradeTs with Some _ => _ | None => _ end);
      [discriminate |].
    destruct (JS.ge count (max_trades_per_sec params)) eqn:E;
      [discriminate | auto].
  - intro Heq.
    destruct (match lastTradeTs with Some _ => _ | None => _ end);
      [reflexivity |].
    assert (E : JS.ge count (max_trades_per_sec params) = true)
      by (apply JSFacts.ge_iff; rewrite Heq; apply Qle_refl).
    now rewrite E.
Qed.

(** At [now = 5000] with cap 2: one trade in the last second is allowed and
    counted below the cap; two trades, one of them exactly one second old,
    reach the cap and are rejected. *)
Lemma cadenceOk_one_second_cap_witness :
  ofNat (tradesInWindow [3000; 4500] (5000 - 1000) 5000) < 2
  /\ cadenceOk (Some 4500) [3000; 4000; 4500] (Some cadence_example) 5000
     = false.
Proof.
  split.
  - apply (proj1 (cadenceOk_one_second_cap (Some 4500) [3000; 4500]
                    cadence_example 5000)).
    reflexivity.
  - apply (proj2 (cadenceOk_one_second_cap (Some 4500) [3000; 4000; 4500]
                    cadence_example 5000)).
    reflexivity.
Defined.

End CadenceProperties.

(** ** EntrySignalEvaluator *)

Section EntryProperties.

Import PolicyEngine.

Lemma inBand_matched (lo hi : option Q) (px : Q) :
  inBand lo hi px = true <-> bandMatched lo hi px.
Proof.
  unfold inBand, bandMatched. split.
  - destruct lo as [l |], hi as [h |]; try discriminate.
    intro H. js_order. now exists l, h.
  - intros (l & h & -> & -> & Hl & Hh).
    apply andb_true_iff. split;
      [now apply JSFacts.ge_iff | now apply JSFacts.le_iff].
Qed.

Lemma modeCheck_satisfied (entryParams : EntryParams) (delta : Q)
    (bandReason : string) :
  fst (modeCheck entryParams delta bandReason) = true
  <-> modeSatisfied entryParams delta.
Proof.
  unfold modeCheck, modeSatisfied.
  destruct (String.eqb (mode entryParams) "momentum").
  - destruct (JS.lt delta (momentum_threshold entryParams)) eqn:E;
      js_order; simpl; split; intro H;
      try discriminate; try reflexivity; try assumption.
    exfalso. lra.
  - destruct (String.eqb (mode entryParams) "reversion").
    + destruct (JS.gt delta (- momentum_threshold entryParams)) eqn:E;
        js_order; simpl; split; intro H;
        try discriminate; try reflexivity; try assumption.
      exfalso. lra.
    + simpl. tauto.
Qed.

Lemma upBlock_trades (state : TapeState) (features : Features)
    (entryParams : EntryParams) :
  upQualifies state features entryParams ->
  exists why,
    upBlock state entryParams (sideDelta features) = Some (Trade UP why).
Proof.
  intros [Hband Hmode]. unfold upBlock.
  apply inBand_matched in Hband. rewrite Hband.
  apply (modeCheck_satisfied _ _ "up_price_band") in Hmode.
  destruct (modeCheck entryParams (sideDelta features) "up_price_band")
    as [signal why].
  simpl in Hmode. subst signal. now exists why.
Qed.

Lemma downBlock_trades (state : TapeState) (features : Features)
    (entryParams : EntryParams) :
  downQualifies state features entryParams ->
  exists why,
    downBlock state features entryParams (sideDelta features)
    = Some (Trade DOWN why).
Proof.
  intros [Hband Hmode]. unfold downBlock.
  apply inBand_matched in Hband. rewrite Hband.
  apply (modeCheck_satisfied _ _ "down_price_band") in Hmode.
  unfold downDelta in Hmode.
  destruct (modeCheck entryParams _ "down_price_band") as [signal why].
  simpl in Hmode. subst signal. now exists why.
Qed.

(** When UP does not qualify, a qualifying DOWN side is the one traded: the
    order of the two checks only matters when both qualify. *)
Lemma entrySignal_down_alone (state : TapeState) (features : Features)
    (entryParams : EntryParams) :
  ~ upQualifies state features entryParams ->
  downQualifies state features entryParams ->
  side (entrySignal state features (Some entryParams)) = Some DOWN.
Proof.
  intros Hup Hdown. unfold entrySignal. fold (sideDelta features).
  destruct (downBlock_trades _ _ _ Hdown) as [why ->].
  unfold upBlock.
  destruct (inBand _ _ (up_px state)) eqn:Eband; [| reflexivity].
  destruct (modeCheck entryParams (sideDelta features) "up_price_band")
    as [signal whyUp] eqn:Emode.
  destruct signal; [| reflexivity].
  exfalso. apply Hup. split.
  - now apply inBand_matched.
  - apply (modeCheck_satisfied _ _ "up_price_band"). now rewrite Emode.
Qed.

(** C8.  UP is evaluated before DOWN: whenever both sides would qualify on
    their own (band matched and mode condition met for each), the signal is
    a trade on side UP. *)
Theorem entrySignal_up_before_down :
  forall (state : TapeState) (features : Features) (entryParams : EntryParams),
    upQualifies state features entryParams ->
    downQualifies state features entryParams ->
    should_trade (entrySignal state features (Some entryParams)) = true
    /\ side (entrySignal state features (Some entryParams)) = Some UP.
Proof.
  intros state features entryParams Hup _.
  unfold entrySignal. fold (sideDelta features).
  destruct (upBlock_trades _ _ _ Hup) as [why ->].
  split; reflexivity.
Qed.

Lemma entrySignal_up_before_down_witness :
  upQualifies tick_example features_example entry_example
  /\ downQualifies tick_example features_example entry_example
  /\ side (entrySignal tick_example features_example (Some entry_example))
     = Some UP.
Proof.
  assert (Hup : upQualifies tick_example features_example entry_example).
  { split.
    - exists (2 # 5), (3 # 5). repeat split; vm_compute; discriminate.
    - vm_compute. discriminate. }
  assert (Hdown : downQualifies tick_example features_example entry_example).
  { split.
    - exists (2 # 5), (3 # 5). repeat split; vm_compute; discriminate.
    - vm_compute. discriminate. }
  split; [exact Hup | split; [exact Hdown |]].
  exact (proj2 (entrySignal_up_before_down tick_example features_example
                  entry_example Hup Hdown)).
Defined.

End EntryProperties.

(** ** InventoryRebalancer *)

Section InventoryProperties.

Import PolicyEngine.

(** Holding 9 UP shares under a cap of 10 (total cap 12), a proposed UP
    trade is passed through; 5 more shares would make 14. *)
Lemma inventory_post_trade_counterexample :
  inventoryOkAndRebalance inventory_example (Some inventory_caps_example) UP
  = Some UP
  /\ ~ withinCapsAfterTrade inventory_example inventory_caps_example UP 5.
Proof.
  split; [reflexivity |].
  intro H. destruct (H UP eq_refl) as [Hside _].
  vm_compute in Hside. apply Hside. reflexivity.
Qed.

(** C6 (amended).  With an inventory configuration, a side is returned only
    if the shares currently held on that side are strictly below its cap
    and the shares currently held in total are strictly below the total
    cap.  The size of the trade is not an input of the check. *)
Theorem inventory_returned_side_has_headroom :
  forall (inventory : InventoryState) (inventoryParams : InventoryParams)
         (proposedSide s : Side),
    inventoryOkAndRebalance inventory (Some inventoryParams) proposedSide
    = Some s ->
    sharesOf inventory s < capOf inventoryParams s
    /\ totalShares inventory < max_total_shares inventoryParams.
Proof.
  intros inventory params proposedSide s.
  unfold inventoryOkAndRebalance, totalShares.
  destruct (JS.ge _ (max_total_shares params)) eqn:Etotal; [discriminate |].
  destruct proposedSide; simpl isSide; simpl andb;
    rewrite ?andb_false_r.
  - destruct (JS.ge (inv_up_shares inventory) _) eqn:Eup; [discriminate |].
    destruct (_ && _) eqn:Eheld.
    + destruct (JS.gt _ (rebalance_ratio_R params)).
      * destruct (JS.lt (inv_down_shares inventory) _ && _) eqn:Eroom;
          [| discriminate].
        intros [= <-]. js_order. simpl. auto.
      * intros [= <-]. js_order. simpl. auto.
    + intros [= <-]. js_order. simpl. auto.
  - destruct (JS.ge (inv_down_shares inventory) _) eqn:Edown; [discriminate |].
    destruct (_ && _) eqn:Eheld.
    + destruct (JS.lt _ (1 - rebalance_ratio_R params)).
      * destruct (JS.lt (inv_up_shares inventory) _ && _) eqn:Eroom;
          [| discriminate].
        intros [= <-]. js_order. simpl. auto.
      * intros [= <-]. js_order. simpl. auto.
    + intros [= <-]. js_order. simpl. auto.
Qed.

(** A skewed inventory (80% UP, R = 0.6): the proposed UP is switched to
    DOWN, which has headroom. *)
Lemma inventory_returned_side_has_headroom_witness :
  inventoryOkAndRebalance inventory_skewed_example
    (Some inventory_caps_example) UP = Some DOWN
  /\ sharesOf inventory_skewed_example DOWN
     < capOf inventory_caps_example DOWN
  /\ totalShares inventory_skewed_example
     < max_total_shares inventory_caps_example.
Proof.
  split; [reflexivity |].
  apply (inventory_returned_side_has_headroom inventory_skewed_example
           inventory_caps_example UP DOWN).
  reflexivity.
Defined.

End InventoryProperties.

(** ** SizingTable *)

Section SizingProperties.

Import PolicyEngine.

(** With edges 0, 0.5, 1 the price 0.5 is edge 1, and the scan stops at
    bin 0, whose upper end it meets first. *)
Lemma edge_own_bin_counterexample :
  StronglySorted Qlt [0; 1 # 2; 1]
  /\ bucketIndex [0; 1 # 2; 1] (1 # 2) = 0%Z
  /\ ~ edgeResolvesToOwnBin [0; 1 # 2; 1] 1.
Proof.
  split; [| split].
  - repeat constructor.
  - reflexivity.
  - intro H. specialize (H (1 # 2) eq_refl). vm_compute in H. discriminate.
Qed.

Lemma scanBuckets_first_edge (k : nat) (e hi px : Q) (rest : list Q) :
  e < hi -> px == e -> scanBuckets k (e :: hi :: rest) px = Some k.
Proof.
  intros Hlt Heq. simpl.
  assert (E1 : JS.ge px e = true) by (apply JSFacts.ge_iff; lra).
  assert (E2 : JS.le px hi = true) by (apply JSFacts.le_iff; lra).
  now rewrite E1, E2.
Qed.

(** Induction on the edge list, the scan position [k] and the edge index
    [i] moving together. *)
Lemma scanBuckets_inner_edge (binEdges : list Q) (px : Q) :
  forall (k i : nat) (e : Q),
    StronglySorted Qlt binEdges ->
    nth_error binEdges (S i) = Some e ->
    px == e ->
    scanBuckets k binEdges px = Some (k + i)%nat.
Proof.
  induction binEdges as [| lo tl IH]; intros k i e Hsorted Hnth Heq.
  - discriminate.
  - simpl in Hnth. inversion Hsorted as [| ? ? Htl Hlo]; subst.
    destruct tl as [| hi rest]; [destruct i; discriminate |].
    destruct i as [| j].
    + (* the price is the upper end of the bin being scanned *)
      simpl in Hnth. injection Hnth as ->.
      inversion Hlo as [| ? ? Hlt _]; subst.
      simpl.
      assert (E1 : JS.ge px lo = true) by (apply JSFacts.ge_iff; lra).
      assert (E2 : JS.le px e = true) by (apply JSFacts.le_iff; lra).
      rewrite E1, E2. simpl. f_equal. lia.
    + (* the price lies beyond this bin *)
      assert (Hhi : hi < e).
      { inversion Htl as [| ? ? _ Hrest]; subst.
        rewrite Forall_forall in Hrest. apply Hrest.
        simpl in Hnth. eapply nth_error_In. exact Hnth. }
      assert (E2 : JS.le px hi = false) by (apply JSFacts.le_false; lra).
      change (scanBuckets k (lo :: hi :: rest) px)
        with (if JS.ge px lo && JS.le px hi then Some k
              else scanBuckets (S k) (hi :: rest) px).
      rewrite E2, andb_false_r.
      rewrite (IH (S k) j e Htl Hnth Heq). f_equal. lia.
Qed.

(** [sizeForTrade] reads the table at the key of the bin [bucketIndex]
    finds for the side's price, and falls back to the upper median. *)
Lemma sizeForTrade_reads_bucket (Number_toString : Q -> string)
    (state : TapeState) (features : Features) (binEdges : list Q)
    (entry : string * Q) (table : list (string * Q)) (side : Side) :
  let sidePx := match side with UP => up_px state | DOWN => down_px state end in
  let sorted := JS.sort (fun x => x) (map snd (entry :: table)) in
  sizeForTrade Number_toString state features
    (Some {| bin_edges := Some binEdges;
             size_table := Some (entry :: table) |}) side
  = match JS.prop (entry :: table)
            (bucketKey Number_toString binEdges
               (bucketIndex binEdges sidePx)) with
    | Some size => JS.toFixed4 size
    | None =>
        match nth_error sorted (Nat.div2 (List.length sorted)) with
        | Some median => JS.toFixed4 median
        | None => 1
        end
    end.
Proof. reflexivity. Qed.

(** C4 (amended).  For strictly ascending bin edges (at least two), a price
    lying exactly on [edge[i]] resolves to bin [i - 1] when [i >= 1], and to
    bin 0 when [i = 0]: the scan is inclusive at both ends and the first
    match wins, so an interior edge belongs to the bin it closes. *)
Theorem bucketIndex_on_edge :
  forall (binEdges : list Q) (i : nat) (e sidePx : Q),
    StronglySorted Qlt binEdges ->
    (2 <= List.length binEdges)%nat ->
    nth_error binEdges i = Some e ->
    sidePx == e ->
    bucketIndex binEdges sidePx = Z.of_nat (Nat.pred i).
Proof.
  intros binEdges i e px Hsorted Hlen Hnth Heq. unfold bucketIndex.
  destruct i as [| i].
  - destruct binEdges as [| e0 [| hi rest]]; simpl in Hlen; try lia.
    simpl in Hnth. injection Hnth as ->.
    inversion Hsorted as [| ? ? _ Hlo]; subst.
    inversion Hlo as [| ? ? Hlt _]; subst.
    now rewrite (scanBuckets_first_edge 0 e hi px rest Hlt Heq).
  - now rewrite (scanBuckets_inner_edge binEdges px 0 i e Hsorted Hnth Heq).
Qed.

Lemma bucketIndex_on_edge_witness :
  bucketIndex [0; 1 # 4; 1 # 2; 3 # 4; 1] (2 # 4) = 1%Z.
Proof.
  apply (bucketIndex_on_edge [0; 1 # 4; 1 # 2; 3 # 4; 1] 2 (1 # 2) (2 # 4)).
  - repeat constructor.
  - simpl. lia.
  - reflexivity.
  - reflexivity.
Defined.

End SizingProperties.

(** ** FeatureEngine *)

Section FeatureProperties.

Import PolicyEngine.

Variable Math_sqrt : Q -> Q.

(** *** The stable sort keeps the samples *)

Lemma In_insert {A : Type} (key : A -> Q) (x a : A) (l : list A) :
  In x (JS.insert key a l) <-> x = a \/ In x l.
Proof.
  induction l as [| y l IH]; simpl.
  - intuition congruence.
  - destruct (JS.le (key a) (key y)); simpl; rewrite ?IH;
      intuition congruence.
Qed.

Lemma In_sort {A : Type} (key : A -> Q) (x : A) (l : list A) :
  In x (JS.sort key l) <-> In x l.
Proof.
  unfold JS.sort. induction l as [| a l IH]; simpl.
  - tauto.
  - rewrite In_insert, IH. intuition congruence.
Qed.

(** *** [findClosest] returns a sample at minimal distance *)

Lemma closest_loop (targetTs : Q) (l : list PriceHistory) :
  forall (c0 : PriceHistory),
    let c := fst (fold_left (closerStep targetTs) l (c0, dist targetTs c0)) in
    (c = c0 \/ In c l)
    /\ dist targetTs c <= dist targetTs c0
    /\ (forall h, In h l -> dist targetTs c <= dist targetTs h).
Proof.
  induction l as [| h l IH]; intros c0; simpl.
  - split; [now left | split; [apply Qle_refl | intros h []]].
  - replace (closerStep targetTs (c0, dist targetTs c0) h)
      with (if JS.lt (dist targetTs h) (dist targetTs c0)
            then (h, dist targetTs h) else (c0, dist targetTs c0))
      by reflexivity.
    destruct (JS.lt (dist targetTs h) (dist targetTs c0)) eqn:E; js_order.
    + destruct (IH h) as (Hin & Hle & Hmin).
      split; [| split].
      * destruct Hin as [-> | Hin]; auto.
      * lra.
      * intros h' [<- | Hh']; [exact Hle | now apply Hmin].
    + destruct (IH c0) as (Hin & Hle & Hmin).
      split; [| split].
      * destruct Hin as [-> | Hin]; auto.
      * exact Hle.
      * intros h' [<- | Hh']; [lra | now apply Hmin].
Qed.

Lemma findClosest_nearest (l : list PriceHistory) (targetTs : Q) :
  l <> [] ->
  exists past,
    findClosest l targetTs = Some past
    /\ In past l
    /\ forall h, In h l -> dist targetTs past <= dist targetTs h.
Proof.
  intro Hne. destruct l as [| first rest]; [congruence |].
  unfold findClosest. fold (dist targetTs first).
  pose proof (closest_loop targetTs (first :: rest) first) as H.
  cbv zeta in H. destruct H as (Hin & _ & Hmin).
  eexists. split; [reflexivity |]. split; [| exact Hmin].
  destruct Hin as [Hin | Hin]; [rewrite Hin; now left | exact Hin].
Qed.

(** *** One window *)

Lemma deltaStep_own_window (state : TapeState) (sorted : list PriceHistory)
    (f : Features) (seconds : Z) :
  In seconds [1; 5; 30]%Z ->
  deltaFields seconds (deltaStep state sorted f seconds)
  = written (windowDeltas state sorted seconds) (deltaFields seconds f).
Proof.
  intro Hin. unfold deltaStep, windowDeltas, dist.
  destruct (findClosest sorted _) as [past |]; [| reflexivity].
  destruct (JS.lt _ _); [| reflexivity].
  simpl in Hin. decompose [or] Hin; subst; try reflexivity. contradiction.
Qed.

Lemma deltaStep_other_window (state : TapeState) (sorted : list PriceHistory)
    (f : Features) (seconds other : Z) :
  In seconds [1; 5; 30]%Z -> In other [1; 5; 30]%Z -> seconds <> other ->
  deltaFields seconds (deltaStep state sorted f other)
  = deltaFields seconds f.
Proof.
  intros Hin Hother Hneq. unfold deltaStep.
  destruct (findClosest sorted _) as [past |]; [| reflexivity].
  destruct (JS.lt _ _); [| reflexivity].
  simpl in Hin, Hother.
  decompose [or] Hin; decompose [or] Hother; subst;
    try reflexivity; try contradiction; congruence.
Qed.

Lemma volatilityStep_keeps_deltas (state : TapeState)
    (sorted : list PriceHistory) (f : Features) (seconds other : Z) :
  In seconds [1; 5; 30]%Z -> In other [5; 30]%Z ->
  deltaFields seconds (volatilityStep Math_sqrt state sorted f other)
  = deltaFields seconds f.
Proof.
  intros Hin Hother. unfold volatilityStep.
  destruct (1 <? _)%nat; [| reflexivity].
  simpl in Hin, Hother.
  decompose [or] Hin; decompose [or] Hother; subst;
    try contradiction; reflexivity.
Qed.

Lemma computeFeatures_window (state : TapeState) (first : PriceHistory)
    (rest : list PriceHistory) (seconds : Z) :
  In seconds [1; 5; 30]%Z ->
  deltaFields seconds (computeFeatures Math_sqrt state (first :: rest))
  = written
      (windowDeltas state (JS.sort h_timestamp (first :: rest)) seconds)
      (None, None, None).
Proof.
  intro Hin. unfold computeFeatures.
  set (sorted := JS.sort h_timestamp (first :: rest)).
  set (f0 := emptyFeatures _).
  cbv [fold_left].
  rewrite !volatilityStep_keeps_deltas by (simpl; auto; exact Hin).
  assert (H0 : deltaFields seconds f0 = (None, None, None)).
  { simpl in Hin. decompose [or] Hin; subst; try reflexivity. contradiction. }
  simpl in Hin. decompose [or] Hin; subst; try contradiction.
  - rewrite !deltaStep_other_window by (simpl; auto; discriminate).
    rewrite deltaStep_own_window by (simpl; auto). now rewrite H0.
  - rewrite deltaStep_other_window by (simpl; auto; discriminate).
    rewrite deltaStep_own_window by (simpl; auto).
    rewrite deltaStep_other_window by (simpl; auto; discriminate).
    now rewrite H0.
  - rewrite deltaStep_own_window by (simpl; auto).
    rewrite !deltaStep_other_window by (simpl; auto; discriminate).
    now rewrite H0.
Qed.

Lemma windowDeltas_near (state : TapeState) (history : list PriceHistory)
    (seconds : Z) :
  history <> [] ->
  (sampleNear state history seconds
   /\ exists d,
        windowDeltas state (JS.sort h_timestamp history) seconds = Some d)
  \/ (~ sampleNear state history seconds
      /\ windowDeltas state (JS.sort h_timestamp history) seconds = None).
Proof.
  intro Hne. unfold windowDeltas, sampleNear.
  set (windowTs := timestamp state - inject_Z seconds * 1000).
  assert (Hsorted : JS.sort h_timestamp history <> []).
  { destruct history as [| a l]; [congruence |].
    intro E. assert (Ha : In a (JS.sort h_timestamp (a :: l)))
      by (apply In_sort; now left).
    rewrite E in Ha. destruct Ha. }
  destruct (findClosest_nearest _ windowTs Hsorted)
    as (past & -> & Hpast & Hmin).
  destruct (JS.lt _ _) eqn:E; js_order.
  - left. split; [| eexists; reflexivity].
    exists past. split; [now apply In_sort in Hpast | exact E].
  - right. split; [| reflexivity].
    intros (h & Hh & Hd).
    apply (In_sort h_timestamp) in Hh. specialize (Hmin h Hh).
    unfold dist in *. lra.
Qed.

(** C5.  For every history buffer and every window [w] of 1, 5 or 30
    seconds, the delta feature of window [w] (its UP, DOWN and side fields
    alike) is present in the output of [computeFeatures] iff some history
    sample's timestamp is within [2w] of [now - w]; when there is none the
    fields are absent, not 0. *)
Theorem computeFeatures_delta_present_iff :
  forall (state : TapeState) (history : list PriceHistory) (seconds : Z),
    In seconds [1; 5; 30]%Z ->
    let fields :=
      deltaFields seconds (computeFeatures Math_sqrt state history) in
    (sampleNear state history seconds <->
     exists deltaUp deltaDown,
       fields = (Some deltaUp, Some deltaDown, Some deltaUp))
    /\ (~ sampleNear state history seconds -> fields = (None, None, None)).
Proof.
  intros state history seconds Hin fields.
  destruct history as [| first rest].
  - (* empty history: the early return *)
    assert (Hnone : fields = (None, None, None)).
    { subst fields. simpl in Hin.
      decompose [or] Hin; subst; try reflexivity. contradiction. }
    rewrite Hnone. split; [split |].
    + intros (h & [] & _).
    + intros (u & d & [=]).
    + reflexivity.
  - subst fields. rewrite (computeFeatures_window _ _ _ _ Hin).
    destruct (windowDeltas_near state (first :: rest) seconds)
      as [[Hnear [[u d] ->]] | [Hfar ->]]; [discriminate | |]; simpl.
    + split; [split |].
      * intros _. now exists u, d.
      * intros _. exact Hnear.
      * intro Hno. contradiction.
    + split; [split |].
      * intro Hs. contradiction.
      * intros (u & d & [=]).
      * reflexivity.
Qed.

End FeatureProperties.

(** At [now = 60000] the sample of 54000 is 1000 ms from [now - 5s], well
    within 10000 ms, so the 5s deltas are present. *)
Lemma computeFeatures_delta_present_iff_witness :
  exists deltaUp deltaDown,
    deltaFields 5
      (PolicyEngine.computeFeatures (fun v => v) tick_example history_example)
    = (Some deltaUp, Some deltaDown, Some deltaUp).
Proof.
  apply (proj1 (computeFeatures_delta_present_iff (fun v => v) tick_example
                  history_example 5 (or_intror (or_introl eq_refl)))).
  exists {| h_timestamp := 54000; h_up_px := 40 # 100;
            h_down_px := 60 # 100 |}.
  split; [right; left; reflexivity | reflexivity].
Defined.

(** ** MarketLifecycleStateMachine *)

Section LifecycleProperties.

Import PaperBot.

Variable PAPER_MIN_TRADE : Q.
Variable PAPER_MAX_TRADE : Q.
Variable Number_toString : Q -> string.
Variable getOrderBookPrice : string -> option Q.

Local Abbreviation arbitrage :=
  (executeArbitrageTrade PAPER_MIN_TRADE PAPER_MAX_TRADE Number_toString).
Local Abbreviation keyOf := (cycleKey Number_toString).

(** *** Finalization *)

(** C3.  Finalizing a build state stores, under the market's condition id,
    a position whose shares per side are the invested amount divided by the
    side's average fill price and whose costs are the invested amounts; for
    600 invested at 0.5 and 400 at 0.4 that is 1200 and 1000 shares at costs
    600 and 400. *)
Theorem finalizePosition_shares_and_costs :
  forall (now : Q) (g : Globals) (market : Market.t)
         (buildState : BuildState.t),
    0 < BuildState.avgPriceUp buildState ->
    0 < BuildState.avgPriceDown buildState ->
    exists position,
      JS.get (positions (finalizePosition now g market buildState))
             (Market.conditionId market) = Some position
      /\ sharesUp position
         == BuildState.investedUp buildState / BuildState.avgPriceUp buildState
      /\ sharesDown position
         == BuildState.investedDown buildState
            / BuildState.avgPriceDown buildState
      /\ costUp position = BuildState.investedUp buildState
      /\ costDown position = BuildState.investedDown buildState
      /\ (BuildState.investedUp buildState == 600 ->
          BuildState.avgPriceUp buildState == 1 # 2 ->
          BuildState.investedDown buildState == 400 ->
          BuildState.avgPriceDown buildState == 2 # 5 ->
          sharesUp position == 1200 /\ sharesDown position == 1000
          /\ costUp position == 600 /\ costDown position == 400).
Proof.
  intros now g market buildState Hup Hdown.
  exists (builtPosition now market buildState).
  split; [apply JSFacts.get_set_same |].
  assert (Eup : JS.gt (BuildState.avgPriceUp buildState) 0 = true)
    by now apply JSFacts.gt_iff.
  assert (Edown : JS.gt (BuildState.avgPriceDown buildState) 0 = true)
    by now apply JSFacts.gt_iff.
  unfold builtPosition. simpl. rewrite Eup, Edown.
  split; [reflexivity | split; [reflexivity |]].
  split; [reflexivity | split; [reflexivity |]].
  intros HinvUp HavgUp HinvDown HavgDown.
  split; [| split; [| split]]; try assumption.
  - rewrite HinvUp, HavgUp. reflexivity.
  - rewrite HinvDown, HavgDown. reflexivity.
Qed.

(** *** Settlement *)

(** C1.  Settlement is idempotent: settling a position again after it has
    been settled, whatever outcome is passed the second time, leaves the
    capital pool, the total P&L, the position's [settlementPnL] and its
    [isSettled] flag (and everything else) as the first call left them. *)
Theorem settlePosition_idempotent :
  forall (g : Globals) (position : MarketPosition)
         (upWon downWon upWon' downWon' : bool),
    let first := settlePosition g position upWon downWon in
    let second := settlePosition (fst first) (snd first) upWon' downWon' in
    isSettled (snd first) = true
    /\ currentCapital (fst second) = currentCapital (fst first)
    /\ totalPnL (fst second) = totalPnL (fst first)
    /\ settlementPnL (snd second) = settlementPnL (snd first)
    /\ isSettled (snd second) = isSettled (snd first)
    /\ second = first.
Proof.
  intros g position upWon downWon upWon' downWon' first second.
  assert (Hsettled : isSettled (snd first) = true).
  { subst first. unfold settlePosition.
    destruct (isSettled position) eqn:E; [exact E | reflexivity]. }
  assert (Hsame : second = first).
  { subst second. unfold settlePosition at 1. rewrite Hsettled.
    now destruct first. }
  rewrite Hsame. repeat split; auto.
Qed.



(** *** Arbitrage cycles *)

(** A recorded cycle key stops the attempt before any purchase. *)
Lemma recorded_cycle_blocks (now : Q) (g : Globals)
    (position : MarketPosition) (market : Market.t) :
  In (keyOf position) (processedCycles g) ->
  arbitrage now g position market = (g, position).
Proof.
  intro Hin. apply JSFacts.has_In in Hin. unfold executeArbitrageTrade.
  destruct (_ || _); [reflexivity |].
  destruct (_ || _); [reflexivity |].
  destruct (clearWinner _ _) as [[winner loserPrice] |]; [| reflexivity].
  now rewrite Hin.
Qed.

(** The key depends on the market and the expiry-minute bucket only. *)
Lemma cycleKey_same_bucket (p p' : MarketPosition) :
  conditionId p' = conditionId p ->
  Qfloor (endDate p' / 60000) = Qfloor (endDate p / 60000) ->
  keyOf p' = keyOf p.
Proof.
  intros Hid Hbucket. unfold cycleKey, JS.floor. now rewrite Hid, Hbucket.
Qed.

Lemma arbitrage_keeps_cycles (now : Q) (g : Globals)
    (position : MarketPosition) (market : Market.t) (k : string) :
  In k (processedCycles g) ->
  In k (processedCycles (fst (arbitrage now g position market))).
Proof.
  intro Hin. unfold executeArbitrageTrade.
  destruct (_ || _); [exact Hin |].
  destruct (_ || _); [exact Hin |].
  destruct (clearWinner _ _) as [[winner loserPrice] |]; [| exact Hin].
  destruct (JS.has _ _); [exact Hin |].
  destruct (JS.lt _ _); simpl; apply JSFacts.In_add; now right.
Qed.

Lemma settlePosition_cycles (g : Globals) (position : MarketPosition)
    (upWon downWon : bool) :
  processedCycles (fst (settlePosition g position upWon downWon))
  = processedCycles g.
Proof. unfold settlePosition. now destruct (isSettled position). Qed.

Lemma settleEntry_cycles (now : Q) (g : Globals)
    (entry : string * MarketPosition) :
  processedCycles (fst (settleEntry getOrderBookPrice now g entry))
  = processedCycles g.
Proof.
  unfold settleEntry. destruct entry as [key position].
  destruct (isSettled position); [reflexivity |].
  destruct (_ || _); [reflexivity |].
  destruct (finalPrices _ _ _ _). apply settlePosition_cycles.
Qed.

Lemma settleLoop_cycles (now : Q) (entries : list (string * MarketPosition)) :
  forall g,
    processedCycles (fst (settleLoop getOrderBookPrice now g entries))
    = processedCycles g.
Proof.
  induction entries as [| [key position] rest IH]; intro g;
    cbn [settleLoop].
  - reflexivity.
  - pose proof (settleEntry_cycles now g (key, position)) as Hentry.
    destruct (settleEntry getOrderBookPrice now g (key, position))
      as [g1 position1].
    specialize (IH g1).
    destruct (settleLoop getOrderBookPrice now g1 rest) as [g2 rest2].
    simpl in *. congruence.
Qed.

Lemma settlePositions_cycles (now : Q) (g : Globals) :
  (List.length (processedCycles g) <= 1000)%nat ->
  processedCycles (settlePositions getOrderBookPrice now g)
  = processedCycles g.
Proof.
  intro Hsize. unfold settlePositions.
  pose proof (settleLoop_cycles now (positions g) g) as Hloop.
  destruct (settleLoop getOrderBookPrice now g (positions g)) as [g1 entries].
  simpl in *. rewrite Hloop. unfold pruneCycles.
  destruct (Nat.ltb_spec 1000 (List.length (processedCycles g)));
    [lia | reflexivity].
Qed.

(** A position that carries an arbitrage purchase, or is settled, is
    refused in any state, whatever the cycle set holds. *)
Lemma arbitraged_position_blocks (now : Q) (g : Globals)
    (position : MarketPosition) (market : Market.t) :
  hasArbitragePosition position = true \/ isSettled position = true ->
  arbitrage now g position market = (g, position).
Proof.
  intro Hdone. unfold executeArbitrageTrade.
  assert (E : hasArbitragePosition position || isSettled position = true)
    by (apply orb_true_iff; exact Hdone).
  now rewrite E.
Qed.

(** A purchase marks the position, so the purchase itself is never repeated
    on the position object either. *)
Lemma arbitrage_purchase_marks (now : Q) (g : Globals)
    (position : MarketPosition) (market : Market.t) :
  tradeLog (fst (arbitrage now g position market)) <> tradeLog g ->
  hasArbitragePosition (snd (arbitrage now g position market)) = true.
Proof.
  assert (Hsame : forall P : Prop, tradeLog g <> tradeLog g -> P)
    by (intros P H; exfalso; apply H; reflexivity).
  unfold executeArbitrageTrade.
  destruct (_ || _); [apply Hsame |].
  destruct (_ || _); [apply Hsame |].
  destruct (clearWinner _ _) as [[winner loserPrice] |]; [| apply Hsame].
  destruct (JS.has _ _); [apply Hsame |].
  destruct (JS.lt _ _); simpl; [apply Hsame | reflexivity].
Qed.

End LifecycleProperties.

(** *** Instances of the lifecycle properties *)

Lemma finalizePosition_shares_and_costs_witness :
  exists position,
    JS.get (positions (PaperBot.finalizePosition 1765999939000
                         (globals_example 9000) market_example build_example))
           "0xabc" = Some position
    /\ sharesUp position == 1200 /\ sharesDown position == 1000
    /\ costUp position == 600 /\ costDown position == 400.
Proof.
  destruct (finalizePosition_shares_and_costs 1765999939000
              (globals_example 9000) market_example build_example
              eq_refl eq_refl)
    as (position & Hget & _ & _ & _ & _ & Hvalues).
  exists position. split; [exact Hget |].
  apply Hvalues; reflexivity.
Defined.


(** * Further properties of the policy engine *)

(** ** CadenceLimiter: more trades never help *)

Section CadenceMore.

Import PolicyEngine.

Lemma ofNat_le (n m : nat) : (n <= m)%nat -> ofNat n <= ofNat m.
Proof. intro H. unfold ofNat. rewrite <- Zle_Qle. lia. Qed.

Lemma tradesInWindow_app (extra recent : list Q) (start currentTs : Q) :
  tradesInWindow (extra ++ recent) start currentTs
  = (tradesInWindow extra start currentTs
     + tradesInWindow recent start currentTs)%nat.
Proof. unfold tradesInWindow. now rewrite filter_app, length_app. Qed.

(** X1.  Recording further trade timestamps never turns a rejection into
    an allowance: if [cadenceOk] allows a trade with the longer list of
    recent timestamps, it allows it with the shorter one. *)
Theorem cadenceOk_fewer_trades :
  forall (lastTradeTs : option Q) (extra recentTradeTimes : list Q)
         (cadenceParams : option CadenceParams) (currentTs : Q),
    cadenceOk lastTradeTs (extra ++ recentTradeTimes) cadenceParams currentTs
    = true ->
    cadenceOk lastTradeTs recentTradeTimes cadenceParams currentTs = true.
Proof.
  intros lastTradeTs extra recent [params |] currentTs; [| reflexivity].
  unfold cadenceOk. rewrite !tradesInWindow_app.
  destruct (match lastTradeTs with Some _ => _ | None => _ end);
    [discriminate |].
  destruct (JS.ge _ (max_trades_per_sec params)) eqn:Esec; [discriminate |].
  destruct (JS.ge _ (max_trades_per_min params)) eqn:Emin; [discriminate |].
  intros _. js_order.
  assert (Hsec : JS.ge (ofNat (tradesInWindow recent (currentTs - 1000)
                                 currentTs))
                       (max_trades_per_sec params) = false).
  { apply JSFacts.ge_false.
    eapply Qle_lt_trans; [apply ofNat_le | exact Esec]. lia. }
  assert (Hmin : JS.ge (ofNat (tradesInWindow recent (currentTs - 60000)
                                 currentTs))
                       (max_trades_per_min params) = false).
  { apply JSFacts.ge_false.
    eapply Qle_lt_trans; [apply ofNat_le | exact Emin]. lia. }
  now rewrite Hsec, Hmin.
Qed.

Lemma cadenceOk_fewer_trades_witness :
  cadenceOk (Some 4500) [3000] (Some cadence_example) 5000 = true.
Proof.
  apply (cadenceOk_fewer_trades (Some 4500) [4500] [3000]
           (Some cadence_example) 5000).
  reflexivity.
Defined.

End CadenceMore.

(** ** EntrySignalEvaluator: which signal, with which reason *)

Section EntryMore.

Import PolicyEngine.

Lemma upBlock_cases (state : TapeState) (features : Features)
    (entryParams : EntryParams) :
  (upQualifies state features entryParams
   /\ exists why,
        upBlock state entryParams (sideDelta features) = Some (Trade UP why)
        /\ (why = "up_price_band" \/ why = "momentum_met"
            \/ why = "reversion_met")%string)
  \/ (~ upQualifies state features entryParams
      /\ upBlock state entryParams (sideDelta features) = None).
Proof.
  unfold upBlock, upQualifies.
  destruct (inBand _ _ (up_px state)) eqn:Eband.
  - pose proof (modeCheck_satisfied entryParams (sideDelta features)
                  "up_price_band") as Hmode.
    assert (Hwhy : forall signal why,
               modeCheck entryParams (sideDelta features) "up_price_band"
               = (signal, why) ->
               signal = true ->
               (why = "up_price_band" \/ why = "momentum_met"
                \/ why = "reversion_met")%string).
    { unfold modeCheck. intros signal why.
      destruct (String.eqb _ "momentum"); [destruct (JS.lt _ _) |
        destruct (String.eqb _ "reversion"); [destruct (JS.gt _ _) |]];
        intros [= <- <-]; intro; try discriminate; auto. }
    destruct (modeCheck entryParams (sideDelta features) "up_price_band")
      as [signal why] eqn:E.
    simpl in Hmode. destruct signal.
    + left. split.
      * split; [now apply inBand_matched | now apply Hmode].
      * exists why. split; [reflexivity | now apply (Hwhy true)].
    + right. split; [| reflexivity].
      intros [_ Hsat]. apply Hmode in Hsat. discriminate.
  - right. split; [| reflexivity].
    intros [Hband _]. apply inBand_matched in Hband. congruence.
Qed.

Lemma downBlock_cases (state : TapeState) (features : Features)
    (entryParams : EntryParams) :
  (downQualifies state features entryParams
   /\ exists why,
        downBlock state features entryParams (sideDelta features)
        = Some (Trade DOWN why)
        /\ (why = "down_price_band" \/ why = "momentum_met"
            \/ why = "reversion_met")%string)
  \/ (~ downQualifies state features entryParams
      /\ downBlock state features entryParams (sideDelta features) = None).
Proof.
  unfold downBlock, downQualifies, downDelta.
  destruct (inBand _ _ (down_px state)) eqn:Eband.
  - set (delta := orElse (delta_5s_down_px features) (sideDelta features)).
    pose proof (modeCheck_satisfied entryParams delta "down_price_band")
      as Hmode.
    assert (Hwhy : forall signal why,
               modeCheck entryParams delta "down_price_band"
               = (signal, why) ->
               signal = true ->
               (why = "down_price_band" \/ why = "momentum_met"
                \/ why = "reversion_met")%string).
    { unfold modeCheck. intros signal why.
      destruct (String.eqb _ "momentum"); [destruct (JS.lt _ _) |
        destruct (String.eqb _ "reversion"); [destruct (JS.gt _ _) |]];
        intros [= <- <-]; intro; try discriminate; auto. }
    destruct (modeCheck entryParams delta "down_price_band")
      as [signal why] eqn:E.
    simpl in Hmode. destruct signal.
    + left. split.
      * split; [now apply inBand_matched | now apply Hmode].
      * exists why. split; [reflexivity | now apply (Hwhy true)].
    + right. split; [| reflexivity].
      intros [_ Hsat]. apply Hmode in Hsat. discriminate.
  - right. split; [| reflexivity].
    intros [Hband _]. apply inBand_matched in Hband. congruence.
Qed.

(** X2.  The side of the signal is decided by which sides qualify: UP
    exactly when UP qualifies, DOWN exactly when UP does not and DOWN does,
    no side exactly when neither does; and [should_trade] is set exactly
    when a side is given. *)
Theorem entrySignal_side_decided :
  forall (state : TapeState) (features : Features) (entryParams : EntryParams),
    let signal := entrySignal state features (Some entryParams) in
    (side signal = Some UP <-> upQualifies state features entryParams)
    /\ (side signal = Some DOWN <->
        ~ upQualifies state features entryParams
        /\ downQualifies state features entryParams)
    /\ (side signal = None <->
        ~ upQualifies state features entryParams
        /\ ~ downQualifies state features entryParams)
    /\ (should_trade signal = true <-> side signal <> None).
Proof.
  intros state features entryParams signal. subst signal.
  unfold entrySignal. fold (sideDelta features).
  destruct (upBlock_cases state features entryParams)
    as [[Hup (why & -> & _)] | [Hup ->]].
  - simpl. split; [| split; [| split]]; split; intro H;
      try easy; try tauto; try congruence.
  - destruct (downBlock_cases state features entryParams)
      as [[Hdown (why & -> & _)] | [Hdown ->]]; simpl;
      (split; [| split; [| split]]); split; intro H;
      try easy; try tauto; try congruence.
Qed.

(** X3.  A signal that does not trade only ever says [no_entry_params] or
    [no_band_match]: the reasons [momentum_not_met] and [reversion_not_met]
    are computed but never reported, also when the band matched and only the
    mode check failed.  A signal that trades gives its side's band reason
    or [momentum_met] or [reversion_met]. *)
Theorem entrySignal_reasons :
  forall (state : TapeState) (features : Features)
         (entryParams : option EntryParams),
    let signal := entrySignal state features entryParams in
    (should_trade signal = false
     /\ (reason signal = "no_entry_params" \/ reason signal = "no_band_match")
        %string)
    \/ (should_trade signal = true
        /\ ((side signal = Some UP /\ reason signal = "up_price_band"%string)
            \/ (side signal = Some DOWN
                /\ reason signal = "down_price_band"%string)
            \/ reason signal = "momentum_met"%string
            \/ reason signal = "reversion_met"%string)).
Proof.
  intros state features [entryParams |] signal; subst signal;
    [| left; split; [reflexivity | now left]].
  unfold entrySignal. fold (sideDelta features).
  destruct (upBlock_cases state features entryParams)
    as [[_ (why & -> & Hwhy)] | [_ ->]].
  - right. split; [reflexivity |]. simpl.
    destruct Hwhy as [-> | [-> | ->]]; auto.
  - destruct (downBlock_cases state features entryParams)
      as [[_ (why & -> & Hwhy)] | [_ ->]].
    + right. split; [reflexivity |]. simpl.
      destruct Hwhy as [-> | [-> | ->]]; auto.
    + left. split; [reflexivity | now right].
Qed.

(** X4.  An absent 5s delta is read as 0: with no 5s delta feature at all
    and a positive threshold, neither the momentum nor the reversion mode
    ever trades, whatever the prices and bands. *)
Theorem entrySignal_absent_delta_blocks :
  forall (state : TapeState) (features : Features) (entryParams : EntryParams),
    delta_5s_side_px features = None ->
    delta_5s_down_px features = None ->
    0 < momentum_threshold entryParams ->
    (mode entryParams = "momentum" \/ mode entryParams = "reversion")%string ->
    entrySignal state features (Some entryParams) = NoTrade "no_band_match".
Proof.
  intros state features entryParams Hside Hdown Hpos Hmode.
  assert (Hcheck : forall why,
             fst (modeCheck entryParams 0 why) = false).
  { intro why. unfold modeCheck.
    destruct Hmode as [-> | ->]; simpl.
    - assert (E : JS.lt 0 (momentum_threshold entryParams) = true)
        by now apply JSFacts.lt_iff.
      now rewrite E.
    - assert (E : JS.gt 0 (- momentum_threshold entryParams) = true)
        by (apply JSFacts.gt_iff; lra).
      now rewrite E. }
  unfold entrySignal, upBlock, downBlock. rewrite Hside, Hdown. simpl orElse.
  pose proof (Hcheck "up_price_band"%string) as Eup.
  pose proof (Hcheck "down_price_band"%string) as Edown.
  destruct (modeCheck entryParams 0 "up_price_band") as [s1 w1].
  destruct (modeCheck entryParams 0 "down_price_band") as [s2 w2].
  simpl in Eup, Edown. subst s1 s2.
  destruct (inBand _ _ (up_px state)), (inBand _ _ (down_px state));
    reflexivity.
Qed.

End EntryMore.

Lemma entrySignal_absent_delta_blocks_witness :
  PolicyEngine.entrySignal tick_example (PolicyEngine.emptyFeatures 0)
    (Some entry_example)
  = PolicyEngine.NoTrade "no_band_match".
Proof.
  apply (entrySignal_absent_delta_blocks tick_example
           (PolicyEngine.emptyFeatures 0) entry_example).
  - reflexivity.
  - reflexivity.
  - reflexivity.
  - left. reflexivity.
Defined.

(** ** SizingTable: which bin, which size *)

Section SizingMore.

Import PolicyEngine.

Variable Number_toString : Q -> string.

Lemma scanBuckets_range (binEdges : list Q) (sidePx : Q) :
  forall (k i : nat),
    scanBuckets k binEdges sidePx = Some i ->
    (k <= i /\ i + 2 <= k + List.length binEdges)%nat.
Proof.
  induction binEdges as [| lower tl IH]; intros k i; [discriminate |].
  destruct tl as [| upper rest]; [discriminate |].
  change (scanBuckets k (lower :: upper :: rest) sidePx)
    with (if JS.ge sidePx lower && JS.le sidePx upper then Some k
          else scanBuckets (S k) (upper :: rest) sidePx).
  destruct (_ && _).
  - intros [= <-]. simpl. lia.
  - intro H. apply IH in H. simpl in *. lia.
Qed.

(** X5.  With at least two bin edges the bucket index always denotes a
    bin: it lies between 0 and [length - 2], so both ends of the table key
    are edges, never [undefined]. *)
Theorem bucketIndex_in_range :
  forall (binEdges : list Q) (sidePx : Q),
    (2 <= List.length binEdges)%nat ->
    (0 <= bucketIndex binEdges sidePx
     <= Z.of_nat (List.length binEdges) - 2)%Z
    /\ exists lower upper,
         JS.index binEdges (bucketIndex binEdges sidePx) = Some lower
         /\ JS.index binEdges (bucketIndex binEdges sidePx + 1) = Some upper.
Proof.
  intros binEdges sidePx Hlen.
  assert (Hrange : (0 <= bucketIndex binEdges sidePx
                    <= Z.of_nat (List.length binEdges) - 2)%Z).
  { unfold bucketIndex.
    destruct (scanBuckets 0 binEdges sidePx) as [i |] eqn:Escan.
    - apply scanBuckets_range in Escan. lia.
    - destruct binEdges as [| e0 tl]; [simpl in Hlen; lia |].
      destruct (JS.lt sidePx e0); lia. }
  split; [exact Hrange |].
  set (b := bucketIndex binEdges sidePx) in *.
  unfold JS.index.
  destruct (Z.ltb_spec b 0); [lia |].
  destruct (Z.ltb_spec (b + 1) 0); [lia |].
  destruct (nth_error binEdges (Z.to_nat b)) as [lower |] eqn:E1.
  - destruct (nth_error binEdges (Z.to_nat (b + 1))) as [upper |] eqn:E2.
    + now exists lower, upper.
    + apply nth_error_None in E2. lia.
  - apply nth_error_None in E1. lia.
Qed.

Lemma bucketIndex_in_range_witness :
  (0 <= bucketIndex [0; 1 # 2; 1]%Q 7%Q <= 1)%Z.
Proof.
  apply (proj1 (bucketIndex_in_range [0; 1 # 2; 1] 7 ltac:(simpl; lia))).
Defined.

Lemma scanBuckets_inside (binEdges : list Q) (sidePx : Q) :
  forall (k i : nat) (lower upper : Q),
    StronglySorted Qlt binEdges ->
    nth_error binEdges i = Some lower ->
    nth_error binEdges (S i) = Some upper ->
    lower < sidePx -> sidePx <= upper ->
    scanBuckets k binEdges sidePx = Some (k + i)%nat.
Proof.
  induction binEdges as [| a tl IH];
    intros k i lower upper Hsorted Hlo Hhi Hgt Hle; [destruct i; discriminate |].
  inversion Hsorted as [| ? ? Htl Ha]; subst.
  destruct tl as [| b rest]; [destruct i; discriminate |].
  change (scanBuckets k (a :: b :: rest) sidePx)
    with (if JS.ge sidePx a && JS.le sidePx b then Some k
          else scanBuckets (S k) (b :: rest) sidePx).
  destruct i as [| i].
  - simpl in Hlo, Hhi. injection Hlo as ->. injection Hhi as ->.
    assert (E1 : JS.ge sidePx lower = true) by (apply JSFacts.ge_iff; lra).
    assert (E2 : JS.le sidePx upper = true) by now apply JSFacts.le_iff.
    rewrite E1, E2. simpl. f_equal. lia.
  - assert (Hb : b <= lower).
    { simpl in Hlo. destruct i as [| j].
      - simpl in Hlo. injection Hlo as ->. apply Qle_refl.
      - inversion Htl as [| ? ? _ Hrest]; subst.
        rewrite Forall_forall in Hrest. apply Qlt_le_weak, Hrest.
        simpl in Hlo. eapply nth_error_In. exact Hlo. }
    assert (E2 : JS.le sidePx b = false) by (apply JSFacts.le_false; lra).
    rewrite E2, andb_false_r.
    rewrite (IH (S k) i lower upper Htl Hlo Hhi Hgt Hle). f_equal. lia.
Qed.

(** X6.  Bins are closed on the right: for strictly ascending edges, a
    price above [edge[i]] and at most [edge[i+1]] resolves to bin [i]. *)
Theorem bucketIndex_right_closed_bin :
  forall (binEdges : list Q) (i : nat) (lower upper sidePx : Q),
    StronglySorted Qlt binEdges ->
    nth_error binEdges i = Some lower ->
    nth_error binEdges (S i) = Some upper ->
    lower < sidePx -> sidePx <= upper ->
    bucketIndex binEdges sidePx = Z.of_nat i.
Proof.
  intros binEdges i lower upper sidePx Hsorted Hlo Hhi Hgt Hle.
  unfold bucketIndex.
  now rewrite (scanBuckets_inside binEdges sidePx 0 i lower upper
                 Hsorted Hlo Hhi Hgt Hle).
Qed.

Lemma bucketIndex_right_closed_bin_witness :
  bucketIndex [0; 1 # 4; 1 # 2; 3 # 4; 1] (7 # 10) = 2%Z.
Proof.
  apply (bucketIndex_right_closed_bin [0; 1 # 4; 1 # 2; 3 # 4; 1] 2
           (1 # 2) (3 # 4) (7 # 10)).
  - repeat constructor.
  - reflexivity.
  - reflexivity.
  - reflexivity.
  - vm_compute. discriminate.
Defined.

Lemma scanBuckets_all_above (binEdges : list Q) (sidePx : Q) :
  forall k, Forall (fun e => sidePx < e) binEdges ->
            scanBuckets k binEdges sidePx = None.
Proof.
  induction binEdges as [| a tl IH]; intros k Hall; [reflexivity |].
  inversion Hall as [| ? ? Ha Htl]; subst.
  destruct tl as [| b rest]; [reflexivity |].
  change (scanBuckets k (a :: b :: rest) sidePx)
    with (if JS.ge sidePx a && JS.le sidePx b then Some k
          else scanBuckets (S k) (b :: rest) sidePx).
  assert (E : JS.ge sidePx a = false) by now apply JSFacts.ge_false.
  rewrite E. simpl. now apply IH.
Qed.

Lemma scanBuckets_all_below (binEdges : list Q) (sidePx : Q) :
  forall k, Forall (fun e => e < sidePx) binEdges ->
            scanBuckets k binEdges sidePx = None.
Proof.
  induction binEdges as [| a tl IH]; intros k Hall; [reflexivity |].
  inversion Hall as [| ? ? Ha Htl]; subst.
  destruct tl as [| b rest]; [reflexivity |].
  change (scanBuckets k (a :: b :: rest) sidePx)
    with (if JS.ge sidePx a && JS.le sidePx b then Some k
          else scanBuckets (S k) (b :: rest) sidePx).
  inversion Htl as [| ? ? Hb _]; subst.
  assert (E : JS.le sidePx b = false) by now apply JSFacts.le_false.
  rewrite E, andb_false_r. now apply IH.
Qed.

Lemma sorted_below_last (binEdges : list Q) (d : Q) :
  StronglySorted Qlt binEdges ->
  Forall (fun e => e <= last binEdges d) binEdges.
Proof.
  induction binEdges as [| a tl IH]; intro Hsorted; [constructor |].
  inversion Hsorted as [| ? ? Htl Ha]; subst.
  destruct tl as [| b rest].
  - constructor; [apply Qle_refl | constructor].
  - specialize (IH Htl).
    change (last (a :: b :: rest) d) with (last (b :: rest) d).
    constructor; [| exact IH].
    inversion Ha as [| ? ? Hab _]; subst.
    inversion IH as [| ? ? Hb _]; subst. lra.
Qed.

(** X7.  Prices outside the edges are clamped: for strictly ascending
    edges (at least two), a price below the first edge resolves to bin 0
    and a price above the last edge to the last bin, [length - 2]. *)
Theorem bucketIndex_clamps :
  forall (binEdges : list Q) (sidePx : Q),
    StronglySorted Qlt binEdges ->
    (2 <= List.length binEdges)%nat ->
    (sidePx < hd 0 binEdges -> bucketIndex binEdges sidePx = 0%Z)
    /\ (last binEdges 0 < sidePx ->
        bucketIndex binEdges sidePx
        = (Z.of_nat (List.length binEdges) - 2)%Z).
Proof.
  intros binEdges sidePx Hsorted Hlen.
  destruct binEdges as [| e0 tl]; [simpl in Hlen; lia |].
  split; intro Hout; unfold bucketIndex.
  - simpl in Hout.
    rewrite scanBuckets_all_above.
    + assert (E : JS.lt sidePx e0 = true) by now apply JSFacts.lt_iff.
      now rewrite E.
    + inversion Hsorted as [| ? ? _ He0]; subst.
      constructor; [exact Hout |].
      eapply Forall_impl; [| exact He0]. intros e He. simpl in He. lra.
  - pose proof (sorted_below_last (e0 :: tl) 0 Hsorted) as Hbelow.
    rewrite scanBuckets_all_below.
    + inversion Hbelow as [| ? ? He0 _]; subst.
      assert (E : JS.lt sidePx e0 = false) by (apply JSFacts.lt_false; lra).
      now rewrite E.
    + eapply Forall_impl; [| exact Hbelow]. intros e He. cbv beta in He.
      eapply Qle_lt_trans; [exact He | exact Hout].
Qed.

Lemma bucketIndex_clamps_witness :
  bucketIndex [1 # 10; 1 # 2; 9 # 10] (1 # 100) = 0%Z
  /\ bucketIndex [1 # 10; 1 # 2; 9 # 10] (99 # 100) = 1%Z.
Proof.
  destruct (bucketIndex_clamps [1 # 10; 1 # 2; 9 # 10] (1 # 100))
    as [Hlow _]; [repeat constructor | simpl; lia |].
  destruct (bucketIndex_clamps [1 # 10; 1 # 2; 9 # 10] (99 # 100))
    as [_ Hhigh]; [repeat constructor | simpl; lia |].
  split; [apply Hlow | apply Hhigh]; reflexivity.
Defined.

End SizingMore.

(** ** The stable sort rearranges *)

Section SortFacts.

Context {A : Type} (key : A -> Q).

Lemma insert_permutation (x : A) (l : list A) :
  Permutation (JS.insert key x l) (x :: l).
Proof.
  induction l as [| y l IH]; simpl; [apply Permutation_refl |].
  destruct (JS.le (key x) (key y)); [apply Permutation_refl |].
  eapply Permutation_trans; [apply perm_skip, IH | apply perm_swap].
Qed.

Lemma sort_permutation (l : list A) : Permutation (JS.sort key l) l.
Proof.
  unfold JS.sort. induction l as [| x l IH]; simpl; [constructor |].
  eapply Permutation_trans; [apply insert_permutation |].
  now apply perm_skip.
Qed.

Lemma sort_In (x : A) (l : list A) : In x (JS.sort key l) -> In x l.
Proof. apply Permutation_in, sort_permutation. Qed.

Lemma sort_length (l : list A) :
  List.length (JS.sort key l) = List.length l.
Proof. apply Permutation_length, sort_permutation. Qed.

Lemma filter_length_permutation (f : A -> bool) (l l' : list A) :
  Permutation l l' ->
  List.length (filter f l) = List.length (filter f l').
Proof.
  induction 1 as [| x l l' _ IH | x y l | l l' l'' _ IH1 _ IH2]; simpl.
  - reflexivity.
  - destruct (f x); simpl; congruence.
  - destruct (f x), (f y); reflexivity.
  - congruence.
Qed.

End SortFacts.

(** ** The stable sort sorts *)

Section SortOrder.

Context {A : Type} (key : A -> Q).

Lemma insert_sorted (x : A) (l : list A) :
  StronglySorted (fun a b => key a <= key b) l ->
  StronglySorted (fun a b => key a <= key b) (JS.insert key x l).
Proof.
  induction l as [| y l IH]; intro Hsorted; simpl.
  - repeat constructor.
  - inversion Hsorted as [| ? ? Hl Hy]; subst.
    destruct (JS.le (key x) (key y)) eqn:E; js_order.
    + constructor; [exact Hsorted |].
      constructor; [exact E |].
      eapply Forall_impl; [| exact Hy]. intros z Hz. simpl in Hz. lra.
    + constructor; [now apply IH |].
      apply Forall_forall. intros z Hz.
      apply (Permutation_in _ (insert_permutation key x l)) in Hz.
      destruct Hz as [<- | Hz]; [lra |].
      rewrite Forall_forall in Hy. now apply Hy.
Qed.

Lemma sort_sorted (l : list A) :
  StronglySorted (fun a b => key a <= key b) (JS.sort key l).
Proof.
  unfold JS.sort. induction l as [| x l IH]; simpl; [constructor |].
  now apply insert_sorted.
Qed.

Lemma sorted_app_inv (R : A -> A -> Prop) (l1 l2 : list A) :
  StronglySorted R (l1 ++ l2) ->
  StronglySorted R l1
  /\ forall a b, In a l1 -> In b l2 -> R a b.
Proof.
  induction l1 as [| x l1 IH]; simpl; intro Hsorted.
  - split; [constructor | intros a b []].
  - inversion Hsorted as [| ? ? Hrest Hx]; subst.
    destruct (IH Hrest) as [Hl1 Hcross].
    rewrite Forall_forall in Hx. split.
    + constructor; [exact Hl1 |].
      apply Forall_forall. intros z Hz. apply Hx, in_or_app. now left.
    + intros a b [<- | Ha] Hb; [| now apply Hcross].
      apply Hx, in_or_app. now right.
Qed.

Lemma sorted_weaken (R R' : A -> A -> Prop) (l : list A) :
  (forall a b, R a b -> R' a b) ->
  StronglySorted R l -> StronglySorted R' l.
Proof.
  intros Himpl Hsorted.
  induction Hsorted as [| x l _ IH Hx]; constructor; [exact IH |].
  eapply Forall_impl; [| exact Hx]. intros b. apply Himpl.
Qed.

End SortOrder.

(** ** SizingTable: the size returned *)

Section SizingValue.

Import PolicyEngine.

Variable Number_toString : Q -> string.

Lemma toFixed4_close (x : Q) : Qabs (JS.toFixed4 x - x) <= 1 # 20000.
Proof.
  assert (Hround : forall y : Q,
            Qabs ((Qfloor (y * 10000 + (1 # 2)) # 10000) - y) <= 1 # 20000).
  { intro y. set (z := y * 10000 + (1 # 2)).
    pose proof (Qfloor_le z) as Hlo. pose proof (Qlt_floor z) as Hhi.
    rewrite inject_Z_plus in Hhi.
    assert (Heq : Qfloor z # 10000 == inject_Z (Qfloor z) * (1 # 10000)).
    { unfold Qeq. simpl. lia. }
    apply Qabs_Qle_condition. subst z.
    change (inject_Z 1) with 1 in Hhi. split; lra. }
  unfold JS.toFixed4. destruct (JS.le 0 x); [apply Hround |].
  specialize (Hround (- x)).
  apply Qabs_Qle_condition in Hround. apply Qabs_Qle_condition.
  set (r := Qfloor (- x * 10000 + (1 # 2)) # 10000) in *.
  split; lra.
Qed.

Lemma toFixed4_grid (x : Q) : exists n : Z, JS.toFixed4 x = n # 10000.
Proof.
  unfold JS.toFixed4. destruct (JS.le 0 x); eexists; reflexivity.
Qed.

Lemma sorted_split_counts (l1 l2 : list Q) (m : Q) :
  StronglySorted Qle (l1 ++ m :: l2) ->
  (List.length (filter (fun v => JS.lt v m) (l1 ++ m :: l2))
   <= List.length l1
   < List.length (filter (fun v => JS.le v m) (l1 ++ m :: l2)))%nat.
Proof.
  induction l1 as [| x l1 IH]; simpl; intro Hsorted.
  - inversion Hsorted as [| ? ? _ Hm]; subst.
    replace (JS.lt m m) with false
      by (symmetry; apply JSFacts.lt_false; lra).
    replace (JS.le m m) with true
      by (symmetry; apply JSFacts.le_iff; lra).
    replace (filter (fun v => JS.lt v m) l2) with (@nil Q); [simpl; lia |].
    symmetry. clear Hsorted. induction Hm as [| y l2 Hy _ IH]; simpl;
      [reflexivity |].
    replace (JS.lt y m) with false; [exact IH |].
    symmetry. apply JSFacts.lt_false. exact Hy.
  - inversion Hsorted as [| ? ? Hrest Hx]; subst.
    specialize (IH Hrest).
    assert (Hxm : x <= m).
    { rewrite Forall_forall in Hx. apply Hx, in_or_app. right. now left. }
    replace (JS.le x m) with true
      by (symmetry; apply JSFacts.le_iff; exact Hxm).
    destruct (JS.lt x m); simpl; lia.
Qed.

Lemma sorted_nth_counts (l : list Q) (k : nat) (m : Q) :
  StronglySorted Qle l ->
  nth_error l k = Some m ->
  (List.length (filter (fun v => JS.lt v m) l) <= k
   < List.length (filter (fun v => JS.le v m) l))%nat.
Proof.
  intros Hsorted Hnth.
  destruct (nth_error_split l k Hnth) as (l1 & l2 & -> & <-).
  now apply sorted_split_counts.
Qed.

Lemma prop_In {A : Type} (obj : list (string * A)) (key : string) (v : A) :
  JS.prop obj key = Some v -> In v (map snd obj).
Proof.
  induction obj as [| [k w] rest IH]; [discriminate |]. simpl.
  destruct (String.eqb k key); [intros [= ->]; now left | auto].
Qed.

(** The element in the middle of the sorted values is their upper
    median. *)
Lemma sorted_middle_is_median (values : list Q) (m : Q) :
  nth_error (JS.sort (fun x => x) values)
    (Nat.div2 (List.length (JS.sort (fun x => x) values))) = Some m ->
  upperMedian m values.
Proof.
  intros Hnth.
  pose proof (sort_permutation (fun x : Q => x) values) as Hperm.
  pose proof (sort_sorted (fun x : Q => x) values) as Hsorted.
  destruct (sorted_nth_counts _ _ _ Hsorted Hnth) as [Hbelow Hupto].
  rewrite (filter_length_permutation _ _ _ Hperm) in Hbelow.
  rewrite (filter_length_permutation _ _ _ Hperm) in Hupto.
  rewrite (Permutation_length Hperm), Nat.div2_div in Hbelow, Hupto.
  split; [| split; assumption].
  apply (Permutation_in _ Hperm). eapply nth_error_In. exact Hnth.
Qed.

(** X8.  With a non-empty size table the size is never the default: it is
    the table's entry for the price's bin, when the table has that key, and
    otherwise the upper median of the table's values, in both cases
    rounded to four decimals, so a multiple of 0.0001 that differs from
    that value by at most 0.00005. *)
Theorem sizeForTrade_is_rounded_entry :
  forall (state : TapeState) (features : Features) (sizeParams : SizeParams)
         (side : Side) (table : list (string * Q)),
    size_table sizeParams = Some table ->
    table <> [] ->
    let sidePx :=
      match side with UP => up_px state | DOWN => down_px state end in
    let binEdges :=
      match bin_edges sizeParams with Some e => e | None => [] end in
    let key :=
      bucketKey Number_toString binEdges (bucketIndex binEdges sidePx) in
    let size :=
      sizeForTrade Number_toString state features (Some sizeParams) side in
    exists v,
      match JS.prop table key with
      | Some entry => v = entry
      | None => upperMedian v (map snd table)
      end
      /\ size = JS.toFixed4 v
      /\ (exists n : Z, size = n # 10000)
      /\ Qabs (size - v) <= 1 # 20000.
Proof.
  intros state features sizeParams side table Htable Hne sidePx binEdges key
         size.
  assert (Hval : exists v,
             match JS.prop table key with
             | Some entry => v = entry
             | None => upperMedian v (map snd table)
             end
             /\ size = JS.toFixed4 v).
  { unfold size, sizeForTrade. rewrite Htable.
    fold sidePx. fold binEdges. fold key.
    destruct table as [| entry rest]; [congruence |].
    destruct (JS.prop (entry :: rest) key) as [found |] eqn:Eprop.
    - exists found. now split.
    - set (sorted := JS.sort (fun x => x) (map snd (entry :: rest))).
      destruct (nth_error sorted (Nat.div2 (List.length sorted)))
        as [median |] eqn:Enth.
      + exists median. split; [| reflexivity].
        now apply sorted_middle_is_median.
      + apply nth_error_None in Enth.
        assert (Hpos : (0 < List.length sorted)%nat).
        { subst sorted. rewrite sort_length. simpl. lia. }
        pose proof (Nat.lt_div2 _ Hpos). lia. }
  destruct Hval as (v & Hpick & Heq).
  exists v. split; [exact Hpick | split; [exact Heq |]].
  rewrite Heq. split; [apply toFixed4_grid | apply toFixed4_close].
Qed.

End SizingValue.

(** A price of 0.5 lies in the bin "(0, 0.5]", which holds 12.345. *)
Lemma sizeForTrade_is_rounded_entry_witness :
  PolicyEngine.sizeForTrade showDecimal tick_example
    (PolicyEngine.emptyFeatures 0) (Some size_params_example) UP
  = JS.toFixed4 (12345 # 1000).
Proof.
  destruct (sizeForTrade_is_rounded_entry showDecimal tick_example
              (PolicyEngine.emptyFeatures 0) size_params_example UP
              [("(0, 0.5]"%string, 12345 # 1000); ("(0.5, 1]"%string, 7);
               ("(1, 2]"%string, 3)] eq_refl)
    as (v & Hpick & Heq & _); [discriminate |].
  vm_compute in Hpick. subst v. exact Heq.
Defined.

(** ** InventoryRebalancer: the overweight side *)

Section InventoryMore.

Import PolicyEngine.

Lemma inventory_held (inventory : InventoryState) :
  1 # 1000000 < inv_up_shares inventory ->
  1 # 1000000 < inv_down_shares inventory ->
  JS.gt (inv_up_shares inventory) (1 # 1000000)
  && JS.gt (inv_down_shares inventory) (1 # 1000000) = true.
Proof.
  intros Hup Hdown. apply andb_true_iff.
  split; now apply JSFacts.gt_iff.
Qed.

(** X9.  With a rebalance ratio of at least one half and both sides held,
    the side that is overweight beyond the ratio is never returned: not UP
    when UP's share exceeds R, not DOWN when UP's share is below 1 - R,
    whichever side was proposed. *)
Theorem inventory_never_returns_overweight_side :
  forall (inventory : InventoryState) (inventoryParams : InventoryParams)
         (proposedSide : Side),
    1 # 1000000 < inv_up_shares inventory ->
    1 # 1000000 < inv_down_shares inventory ->
    1 # 2 <= rebalance_ratio_R inventoryParams ->
    (rebalance_ratio_R inventoryParams < upRatio inventory ->
     inventoryOkAndRebalance inventory (Some inventoryParams) proposedSide
     <> Some UP)
    /\ (upRatio inventory < 1 - rebalance_ratio_R inventoryParams ->
        inventoryOkAndRebalance inventory (Some inventoryParams) proposedSide
        <> Some DOWN).
Proof.
  intros inventory params proposedSide Hup Hdown HR.
  pose proof (inventory_held inventory Hup Hdown) as Eheld.
  unfold upRatio, inventoryOkAndRebalance. cbv zeta.
  set (ratio := inv_up_shares inventory / _).
  rewrite Eheld.
  split; intro Hskew.
  - assert (E1 : JS.gt ratio (rebalance_ratio_R params) = true)
      by now apply JSFacts.gt_iff.
    assert (E2 : JS.lt ratio (1 - rebalance_ratio_R params) = false)
      by (apply JSFacts.lt_false; lra).
    rewrite E1, E2.
    destruct proposedSide; cbn [isSide andb];
      repeat match goal with
        | |- context [if ?b then _ else _] => destruct b
        end; discriminate.
  - assert (E1 : JS.gt ratio (rebalance_ratio_R params) = false)
      by (apply JSFacts.gt_false; lra).
    assert (E2 : JS.lt ratio (1 - rebalance_ratio_R params) = true)
      by now apply JSFacts.lt_iff.
    rewrite E1, E2.
    destruct proposedSide; cbn [isSide andb];
      repeat match goal with
        | |- context [if ?b then _ else _] => destruct b
        end; discriminate.
Qed.

(** A rebalance ratio below one half reverses every proposal on an
    inventory whose UP share lies strictly between R and 1 - R (with
    headroom everywhere): UP is answered with DOWN and DOWN with UP. *)
Theorem inventory_low_ratio_reverses :
  forall (inventory : InventoryState) (inventoryParams : InventoryParams),
    1 # 1000000 < inv_up_shares inventory ->
    1 # 1000000 < inv_down_shares inventory ->
    inv_up_shares inventory < max_up_shares inventoryParams ->
    inv_down_shares inventory < max_down_shares inventoryParams ->
    inv_up_shares inventory + inv_down_shares inventory
    < max_total_shares inventoryParams ->
    rebalance_ratio_R inventoryParams < upRatio inventory ->
    upRatio inventory < 1 - rebalance_ratio_R inventoryParams ->
    inventoryOkAndRebalance inventory (Some inventoryParams) UP = Some DOWN
    /\ inventoryOkAndRebalance inventory (Some inventoryParams) DOWN
       = Some UP.
Proof.
  intros inventory params Hup Hdown HcapUp HcapDown Htotal Hlow Hhigh.
  pose proof (inventory_held inventory Hup Hdown) as Eheld.
  unfold upRatio in Hlow, Hhigh.
  unfold inventoryOkAndRebalance. cbv zeta.
  set (ratio := inv_up_shares inventory / _) in *.
  rewrite Eheld.
  assert (E1 : JS.gt ratio (rebalance_ratio_R params) = true)
    by now apply JSFacts.gt_iff.
  assert (E2 : JS.lt ratio (1 - rebalance_ratio_R params) = true)
    by now apply JSFacts.lt_iff.
  assert (E3 : JS.ge (inv_up_shares inventory + inv_down_shares inventory)
                     (max_total_shares params) = false)
    by now apply JSFacts.ge_false.
  assert (E4 : JS.ge (inv_up_shares inventory) (max_up_shares params) = false)
    by now apply JSFacts.ge_false.
  assert (E5 : JS.ge (inv_down_shares inventory) (max_down_shares params)
               = false) by now apply JSFacts.ge_false.
  assert (E6 : JS.lt (inv_up_shares inventory + inv_down_shares inventory)
                     (max_total_shares params) = true)
    by now apply JSFacts.lt_iff.
  assert (E7 : JS.lt (inv_up_shares inventory) (max_up_shares params) = true)
    by now apply JSFacts.lt_iff.
  assert (E8 : JS.lt (inv_down_shares inventory) (max_down_shares params)
               = true) by now apply JSFacts.lt_iff.
  rewrite E1, E2, E3. simpl. rewrite E4, E5, E6, E7, E8. simpl.
  split; reflexivity.
Qed.

End InventoryMore.

Lemma inventory_never_returns_overweight_side_witness :
  PolicyEngine.inventoryOkAndRebalance inventory_skewed_example
    (Some inventory_wide_caps_example) DOWN <> Some UP.
Proof.
  apply (proj1 (inventory_never_returns_overweight_side
                  inventory_skewed_example inventory_wide_caps_example DOWN
                  eq_refl eq_refl ltac:(vm_compute; discriminate))).
  reflexivity.
Defined.

Lemma inventory_low_ratio_reverses_witness :
  PolicyEngine.inventoryOkAndRebalance inventory_even_example
    (Some inventory_low_R_example) UP = Some DOWN
  /\ PolicyEngine.inventoryOkAndRebalance inventory_even_example
       (Some inventory_low_R_example) DOWN = Some UP.
Proof.
  apply (inventory_low_ratio_reverses inventory_even_example
           inventory_low_R_example); reflexivity.
Defined.

(** ** FeatureEngine: volatility, delta values, distance from parity *)

Section FeatureMore.

Import PolicyEngine.

Variable Math_sqrt : Q -> Q.

Lemma squares_sum_nonneg (mean : Q) (l : list Q) :
  forall acc, 0 <= acc ->
              0 <= fold_left (fun sum p => sum + (p - mean) ^ 2) l acc.
Proof.
  induction l as [| p l IH]; intros acc Hacc; simpl fold_left.
  - exact Hacc.
  - apply IH. change ((p - mean) ^ 2) with ((p - mean) * (p - mean)).
    generalize (p - mean). intro d.
    pose proof (Qmult_le_0_compat d d) as Hpos.
    pose proof (Qmult_le_0_compat (- d) (- d)) as Hneg.
    destruct (Qlt_le_dec d 0);
      [assert (0 <= - d * - d) by (apply Hneg; lra)
      | assert (0 <= d * d) by (apply Hpos; lra)]; lra.
Qed.

(** What [volatilityStep] computes over the sorted history. *)
Lemma volatilityStep_own_window (state : TapeState)
    (sorted : list PriceHistory) (f : Features) (seconds : Z) :
  In seconds [5; 30]%Z ->
  ((2 <= samplesInWindow state sorted seconds)%nat
   /\ exists variance,
        0 <= variance
        /\ volatilityField seconds
             (volatilityStep Math_sqrt state sorted f seconds)
           = Some (Math_sqrt variance))
  \/ ((samplesInWindow state sorted seconds < 2)%nat
      /\ volatilityField seconds
           (volatilityStep Math_sqrt state sorted f seconds)
         = volatilityField seconds f).
Proof.
  intro Hin. unfold volatilityStep, samplesInWindow.
  fold (inWindow state seconds).
  rewrite length_map.
  set (window := filter (inWindow state seconds) sorted).
  destruct (Nat.ltb_spec 1 (List.length window)) as [Hmany | Hfew].
  - left. split; [lia |].
    eexists. split.
    2: { simpl in Hin. decompose [or] Hin; subst; try contradiction;
         reflexivity. }
    apply Qle_shift_div_l.
    + unfold Qlt. simpl. lia.
    + rewrite Qmult_0_l. apply squares_sum_nonneg. apply Qle_refl.
  - right. split; [lia | reflexivity].
Qed.

Lemma volatilityStep_other_window (state : TapeState)
    (sorted : list PriceHistory) (f : Features) (seconds other : Z) :
  In seconds [5; 30]%Z -> In other [5; 30]%Z -> seconds <> other ->
  volatilityField seconds (volatilityStep Math_sqrt state sorted f other)
  = volatilityField seconds f.
Proof.
  intros Hin Hother Hneq. unfold volatilityStep.
  destruct (1 <? _)%nat; [| reflexivity].
  simpl in Hin, Hother.
  decompose [or] Hin; decompose [or] Hother; subst;
    try contradiction; try reflexivity; congruence.
Qed.

Lemma deltaStep_keeps_volatility (state : TapeState)
    (sorted : list PriceHistory) (f : Features) (seconds other : Z) :
  In seconds [5; 30]%Z -> In other [1; 5; 30]%Z ->
  volatilityField seconds (deltaStep state sorted f other)
  = volatilityField seconds f.
Proof.
  intros Hin Hother. unfold deltaStep.
  destruct (findClosest sorted _) as [past |]; [| reflexivity].
  destruct (JS.lt _ _); [| reflexivity].
  simpl in Hin, Hother.
  decompose [or] Hin; decompose [or] Hother; subst;
    try contradiction; reflexivity.
Qed.

Lemma computeFeatures_volatility_field (state : TapeState)
    (first : PriceHistory) (rest : list PriceHistory) (seconds : Z) :
  In seconds [5; 30]%Z ->
  let sorted := JS.sort h_timestamp (first :: rest) in
  let field :=
    volatilityField seconds
      (computeFeatures Math_sqrt state (first :: rest)) in
  ((2 <= samplesInWindow state sorted seconds)%nat
   /\ exists variance, 0 <= variance /\ field = Some (Math_sqrt variance))
  \/ ((samplesInWindow state sorted seconds < 2)%nat /\ field = None).
Proof.
  intros Hin sorted field. subst field. unfold computeFeatures.
  fold sorted. cbv [fold_left].
  set (f0 := emptyFeatures _).
  set (F := deltaStep state sorted
              (deltaStep state sorted (deltaStep state sorted f0 1) 5) 30).
  assert (HF : volatilityField seconds F = None).
  { subst F. rewrite !deltaStep_keeps_volatility by (simpl; auto).
    simpl in Hin. decompose [or] Hin; subst; try reflexivity.
    contradiction. }
  simpl in Hin. decompose [or] Hin; subst; try contradiction.
  - rewrite volatilityStep_other_window by (simpl; auto; discriminate).
    destruct (volatilityStep_own_window state sorted F 5)
      as [[Hmany (variance & Hvar & ->)] | [Hfew ->]]; [simpl; auto | |].
    + left. split; [exact Hmany | now exists variance].
    + right. split; [exact Hfew | exact HF].
  - destruct (volatilityStep_own_window state sorted
                (volatilityStep Math_sqrt state sorted F 5) 30)
      as [[Hmany (variance & Hvar & ->)] | [Hfew ->]]; [simpl; auto | |].
    + left. split; [exact Hmany | now exists variance].
    + right. split; [exact Hfew |].
      rewrite volatilityStep_other_window by (simpl; auto; discriminate).
      exact HF.
Qed.

(** X10.  The volatility feature of the 5 s or 30 s window is present iff
    at least two history samples have their timestamp in [now - w, now];
    it is then the square root of a variance that is never negative, and it
    is absent otherwise. *)
Theorem computeFeatures_volatility_present :
  forall (state : TapeState) (history : list PriceHistory) (seconds : Z),
    In seconds [5; 30]%Z ->
    let field :=
      volatilityField seconds (computeFeatures Math_sqrt state history) in
    ((2 <= samplesInWindow state history seconds)%nat ->
     exists variance, 0 <= variance /\ field = Some (Math_sqrt variance))
    /\ ((samplesInWindow state history seconds < 2)%nat -> field = None).
Proof.
  intros state history seconds Hin field.
  destruct history as [| first rest].
  - assert (Hnone : field = None).
    { subst field. simpl in Hin.
      decompose [or] Hin; subst; try reflexivity. contradiction. }
    rewrite Hnone. split; [| reflexivity].
    unfold samplesInWindow. simpl. lia.
  - assert (Hcount :
              samplesInWindow state (JS.sort h_timestamp (first :: rest))
                seconds
              = samplesInWindow state (first :: rest) seconds).
    { unfold samplesInWindow. apply filter_length_permutation.
      apply sort_permutation. }
    destruct (computeFeatures_volatility_field state first rest seconds Hin)
      as [[Hmany Hsome] | [Hfew Hnone]]; rewrite Hcount in *.
    + split; [intros _; exact Hsome | intro; lia].
    + split; [intro; lia | intros _; exact Hnone].
Qed.

(** X11.  When the delta feature of a window is present, it is the current
    price less the price of a history sample whose timestamp is nearest to
    [now - w] among all samples; the side delta repeats the UP delta. *)
Theorem computeFeatures_delta_from_nearest :
  forall (state : TapeState) (history : list PriceHistory) (seconds : Z),
    In seconds [1; 5; 30]%Z ->
    sampleNear state history seconds ->
    exists past,
      In past history
      /\ (forall h, In h history ->
            dist (timestamp state - inject_Z seconds * 1000) past
            <= dist (timestamp state - inject_Z seconds * 1000) h)
      /\ deltaFields seconds (computeFeatures Math_sqrt state history)
         = (Some (up_px state - h_up_px past),
            Some (down_px state - h_down_px past),
            Some (up_px state - h_up_px past)).
Proof.
  intros state history seconds Hin (near & Hnear & Hclose).
  destruct history as [| first rest]; [destruct Hnear |].
  rewrite (computeFeatures_window Math_sqrt state first rest seconds Hin).
  unfold windowDeltas.
  set (target := timestamp state - inject_Z seconds * 1000) in *.
  assert (Hsorted : JS.sort h_timestamp (first :: rest) <> []).
  { intro E. pose proof (sort_length h_timestamp (first :: rest)) as Hlen.
    rewrite E in Hlen. discriminate. }
  destruct (findClosest_nearest _ target Hsorted)
    as (past & -> & Hpast & Hmin).
  apply sort_In in Hpast.
  assert (Hall : forall h, In h (first :: rest) ->
                           dist target past <= dist target h).
  { intros h Hh. apply Hmin.
    eapply Permutation_in; [| exact Hh].
    apply Permutation_sym, sort_permutation. }
  assert (E : JS.lt (dist target past) (inject_Z seconds * 2000) = true).
  { apply JSFacts.lt_iff. specialize (Hall near Hnear).
    unfold dist in *. lra. }
  rewrite E. exists past. split; [exact Hpast | split; [exact Hall |]].
  reflexivity.
Qed.

(** The folds over the windows leave the mandatory field alone. *)
Lemma deltaStep_keeps_distance (state : TapeState)
    (sorted : list PriceHistory) (f : Features) (seconds : Z) :
  distance_from_50 (deltaStep state sorted f seconds) = distance_from_50 f.
Proof.
  unfold deltaStep.
  destruct (findClosest sorted _) as [past |]; [| reflexivity].
  destruct (JS.lt _ _); [| reflexivity].
  unfold setDeltas.
  repeat match goal with
    | |- context [match ?x with _ => _ end] => destruct x
    end; reflexivity.
Qed.

Lemma volatilityStep_keeps_distance (state : TapeState)
    (sorted : list PriceHistory) (f : Features) (seconds : Z) :
  distance_from_50 (volatilityStep Math_sqrt state sorted f seconds)
  = distance_from_50 f.
Proof.
  unfold volatilityStep. destruct (1 <? _)%nat; [| reflexivity].
  unfold setVolatility.
  repeat match goal with
    | |- context [match ?x with _ => _ end] => destruct x
    end; reflexivity.
Qed.

(** The distance from parity is always [|up_px - 0.5|], whatever the
    history; for a price between 0 and 1 it lies between 0 and 0.5. *)
Theorem computeFeatures_distance_from_50 :
  forall (state : TapeState) (history : list PriceHistory),
    distance_from_50 (computeFeatures Math_sqrt state history)
    = Qabs (up_px state - (1 # 2))
    /\ (0 <= up_px state -> up_px state <= 1 ->
        0 <= distance_from_50 (computeFeatures Math_sqrt state history)
        /\ distance_from_50 (computeFeatures Math_sqrt state history)
           <= 1 # 2).
Proof.
  intros state history.
  assert (Heq : distance_from_50 (computeFeatures Math_sqrt state history)
                = Qabs (up_px state - (1 # 2))).
  { unfold computeFeatures. destruct history as [| first rest];
      [reflexivity |].
    cbv [fold_left].
    now rewrite !volatilityStep_keeps_distance, !deltaStep_keeps_distance. }
  split; [exact Heq |].
  intros Hlo Hhi. rewrite Heq. split; [apply Qabs_nonneg |].
  apply Qabs_Qle_condition. split; lra.
Qed.

End FeatureMore.

(** Both samples of [history_example] lie in the last 30 s, one of them in
    the last 5 s. *)
Lemma computeFeatures_volatility_present_witness :
  (exists variance,
     0 <= variance
     /\ volatility_30s
          (PolicyEngine.computeFeatures (fun v => v) tick_example
             history_example)
        = Some variance)
  /\ volatility_5s
       (PolicyEngine.computeFeatures (fun v => v) tick_example
          history_example)
     = None.
Proof.
  split.
  - apply (proj1 (computeFeatures_volatility_present (fun v => v)
                    tick_example history_example 30
                    (or_intror (or_introl eq_refl)))).
    vm_compute. lia.
  - apply (proj2 (computeFeatures_volatility_present (fun v => v)
                    tick_example history_example 5 (or_introl eq_refl))).
    vm_compute. lia.
Defined.

Lemma computeFeatures_delta_from_nearest_witness :
  exists past,
    In past history_example
    /\ deltaFields 1
         (PolicyEngine.computeFeatures (fun v => v) tick_example
            history_example)
       = (Some (up_px tick_example - h_up_px past),
          Some (down_px tick_example - h_down_px past),
          Some (up_px tick_example - h_up_px past)).
Proof.
  destruct (computeFeatures_delta_from_nearest (fun v => v) tick_example
              history_example 1 (or_introl eq_refl))
    as (past & Hin & _ & Hfields).
  - exists {| h_timestamp := 58500; h_up_px := 45 # 100;
              h_down_px := 55 # 100 |}.
    split; [left; reflexivity | reflexivity].
  - exists past. split; [exact Hin | exact Hfields].
Defined.

Lemma computeFeatures_distance_from_50_witness :
  0 <= distance_from_50
         (PolicyEngine.computeFeatures (fun v => v) tick_example
            history_example)
  <= 1 # 2.
Proof.
  apply (proj2 (computeFeatures_distance_from_50 (fun v => v) tick_example
                  history_example)).
  - vm_compute. discriminate.
  - vm_compute. discriminate.
Defined.

(** * Further properties of the position lifecycle *)

Section SettlementMore.

Import PaperBot.

Variable getOrderBookPrice : string -> option Q.

Local Abbreviation settleAll := (settlePositions getOrderBookPrice).

(** ** Settlement accounting *)

(** X12.  Settling an open position pays one dollar for every share, split
    or arbitrage, of the winning side and nothing for the other side's; with
    no winner it pays back the total cost.  That value is added to the
    capital; value less total cost is stored as the position's P&L and
    added to the total P&L, so the P&L is negative exactly when the value is
    below the cost, and 0 with no winner; one cycle is counted and one
    removal scheduled. *)
Theorem settlePosition_accounting :
  forall (g : Globals) (position : MarketPosition) (upWon downWon : bool),
    isSettled position = false ->
    let g' := fst (settlePosition g position upWon downWon) in
    let position' := snd (settlePosition g position upWon downWon) in
    let value :=
      if upWon then sharesUp position + arbSharesUp position
      else if downWon then sharesDown position + arbSharesDown position
      else costUp position + costDown position + arbCostUp position
           + arbCostDown position in
    currentCapital g' == currentCapital g + value
    /\ settlementPnL position'
       == value - (costUp position + costDown position + arbCostUp position
                   + arbCostDown position)
    /\ totalPnL g' = totalPnL g + settlementPnL position'
    /\ (settlementPnL position' < 0 <->
        value < costUp position + costDown position + arbCostUp position
                + arbCostDown position)
    /\ isSettled position' = true
    /\ totalCycles g' = (totalCycles g + 1)%Z
    /\ pendingDeletes g' = pendingDeletes g ++ [conditionId position]
    /\ (upWon = false -> downWon = false ->
        settlementPnL position' == 0
        /\ currentCapital g' == currentCapital g + totalCost position).
Proof.
  intros g position upWon downWon Hopen g' position' value.
  subst g' position' value. unfold settlePosition. rewrite Hopen.
  cbn [fst snd creditSettlement withSettlement currentCapital totalPnL
       totalCycles pendingDeletes settlementPnL isSettled].
  unfold finalValue, outcome, totalCost.
  destruct upWon, downWon;
    repeat match goal with |- _ /\ _ => split end;
    try reflexivity; try ring; try (split; intro; lra);
    try (intros; discriminate).
  intros _ _. split; ring.
Qed.

(** ** The settlement pass *)

Lemma settleEntry_skipped (now : Q) (g : Globals) (key : string)
    (position : MarketPosition) :
  skipsSettlement now position = true ->
  settleEntry getOrderBookPrice now g (key, position) = (g, position).
Proof.
  unfold skipsSettlement, settleEntry.
  destruct (isSettled position); [reflexivity |]. simpl.
  now intros ->.
Qed.

Lemma settleEntry_leaves_skipped (now : Q) (g : Globals) (key : string)
    (position : MarketPosition) :
  skipsSettlement now
    (snd (settleEntry getOrderBookPrice now g (key, position))) = true.
Proof.
  unfold settleEntry.
  destruct (isSettled position) eqn:Esettled.
  - unfold skipsSettlement. simpl. now rewrite Esettled.
  - destruct (_ || _) eqn:Eskip.
    + unfold skipsSettlement. simpl. rewrite Eskip. apply orb_true_r.
    + destruct (finalPrices _ _ _ _) as [priceUp priceDown].
      unfold settlePosition. rewrite Esettled. reflexivity.
Qed.

Lemma skipsSettlement_not_due (now : Q) (position : MarketPosition) :
  isSettled position = false ->
  (skipsSettlement now position = true <-> ~ dueAt now position).
Proof.
  intro Hopen. unfold skipsSettlement, dueAt, JS.falsy. rewrite Hopen.
  simpl. rewrite orb_diag.
  destruct (Qeq_bool (endDate position) 0) eqn:Ezero; simpl.
  - apply Qeq_bool_iff in Ezero. tauto.
  - assert (Hnz : ~ endDate position == 0).
    { intro H. apply Qeq_bool_iff in H. congruence. }
    destruct (JS.gt (endDate position) now) eqn:Elate; js_order.
    + split; [intros _ [_ H]; lra | reflexivity].
    + split; [discriminate | intro H; exfalso; apply H; now split].
Qed.

Lemma settleEntry_settledBy (now : Q) (g : Globals) (key : string)
    (position : MarketPosition) :
  settledBy now (key, position)
    (key, snd (settleEntry getOrderBookPrice now g (key, position))).
Proof.
  unfold settledBy. cbn [fst snd]. split; [reflexivity |].
  destruct (isSettled position) eqn:Esettled.
  - rewrite settleEntry_skipped
      by (unfold skipsSettlement; now rewrite Esettled).
    simpl. repeat split; auto.
  - destruct (skipsSettlement now position) eqn:Eskip.
    + rewrite (settleEntry_skipped now g key position Eskip). simpl.
      apply (skipsSettlement_not_due now position Esettled) in Eskip.
      repeat split; auto; tauto.
    + assert (Hdue : dueAt now position).
      { unfold skipsSettlement, dueAt, JS.falsy in *.
        rewrite Esettled in Eskip. simpl in Eskip. js_order.
        split; [| assumption].
        intro Hzero. apply Qeq_bool_iff in Hzero. congruence. }
      split; [| split; [tauto | discriminate]].
      intros _. unfold settleEntry. rewrite Esettled.
      unfold skipsSettlement in Eskip. rewrite Esettled in Eskip.
      simpl in Eskip. rewrite Eskip.
      destruct (finalPrices _ _ _ _) as [priceUp priceDown].
      unfold settlePosition. now rewrite Esettled.
Qed.

Lemma settleLoop_settledBy (now : Q)
    (entries : list (string * MarketPosition)) :
  forall g,
    Forall2 (settledBy now) entries
      (snd (settleLoop getOrderBookPrice now g entries))
    /\ Forall (fun entry => skipsSettlement now (snd entry) = true)
         (snd (settleLoop getOrderBookPrice now g entries)).
Proof.
  induction entries as [| [key position] rest IH]; intro g;
    cbn [settleLoop].
  - split; constructor.
  - pose proof (settleEntry_settledBy now g key position) as Hentry.
    pose proof (settleEntry_leaves_skipped now g key position) as Hskip.
    destruct (settleEntry getOrderBookPrice now g (key, position))
      as [g1 position1].
    destruct (IH g1) as [Hrest Hskips].
    destruct (settleLoop getOrderBookPrice now g1 rest) as [g2 rest2].
    simpl in *. split; constructor; assumption.
Qed.

(** X13.  A settlement pass keeps every entry of [positions] in place
    (nothing is removed or reordered; removal is only scheduled): entries
    that are due come out settled, entries that are not due or were settled
    already come out unchanged. *)
Theorem settlePositions_settles_the_due :
  forall (now : Q) (g : Globals),
    Forall2 (settledBy now) (positions g) (positions (settleAll now g))
    /\ map fst (positions (settleAll now g)) = map fst (positions g).
Proof.
  intros now g.
  assert (Hall : Forall2 (settledBy now) (positions g)
                   (positions (settleAll now g))).
  { unfold settlePositions.
    pose proof (proj1 (settleLoop_settledBy now (positions g) g)) as Hloop.
    destruct (settleLoop getOrderBookPrice now g (positions g))
      as [g1 entries].
    exact Hloop. }
  split; [exact Hall |].
  induction Hall as [| old new olds news Hone _ IH]; [reflexivity |].
  simpl. destruct Hone as [-> _]. now rewrite IH.
Qed.

Lemma settleLoop_skipped (now : Q)
    (entries : list (string * MarketPosition)) :
  forall g,
    Forall (fun entry => skipsSettlement now (snd entry) = true) entries ->
    settleLoop getOrderBookPrice now g entries = (g, entries).
Proof.
  induction entries as [| [key position] rest IH]; intros g Hall;
    cbn [settleLoop]; [reflexivity |].
  inversion Hall as [| ? ? Hone Hrest]; subst. simpl in Hone.
  rewrite (settleEntry_skipped now g key position Hone).
  now rewrite (IH g Hrest).
Qed.

Lemma pruneCycles_suffix (cycles : list string) :
  exists dropped,
    cycles = dropped ++ pruneCycles cycles
    /\ (List.length (pruneCycles cycles) <= 1000)%nat
    /\ ((1000 < List.length cycles)%nat ->
        List.length (pruneCycles cycles) = 500%nat).
Proof.
  unfold pruneCycles.
  destruct (Nat.ltb_spec 1000 (List.length cycles)) as [Hbig | Hsmall].
  - exists (firstn (List.length cycles - 500) cycles).
    rewrite firstn_skipn, length_skipn.
    repeat split; try reflexivity; lia.
  - exists []. repeat split; try reflexivity; lia.
Qed.

Lemma pruneCycles_again (cycles : list string) :
  pruneCycles (pruneCycles cycles) = pruneCycles cycles.
Proof.
  destruct (pruneCycles_suffix cycles) as (_ & _ & Hlen & _).
  unfold pruneCycles at 1.
  destruct (Nat.ltb_spec 1000 (List.length (pruneCycles cycles)));
    [lia | reflexivity].
Qed.

Lemma settlePositions_cycles_pruned (now : Q) (g : Globals) :
  processedCycles (settleAll now g) = pruneCycles (processedCycles g).
Proof.
  unfold settlePositions.
  pose proof (settleLoop_cycles getOrderBookPrice now (positions g) g)
    as Hloop.
  destruct (settleLoop getOrderBookPrice now g (positions g))
    as [g1 entries].
  simpl in *. now rewrite Hloop.
Qed.

Lemma settlePositions_leaves_skipped (now : Q) (g : Globals) :
  Forall (fun entry => skipsSettlement now (snd entry) = true)
    (positions (settleAll now g)).
Proof.
  unfold settlePositions.
  pose proof (proj2 (settleLoop_settledBy now (positions g) g)) as Hskips.
  destruct (settleLoop getOrderBookPrice now g (positions g))
    as [g1 entries].
  exact Hskips.
Qed.

(** X14.  A settlement pass is idempotent: running it again at the same
    time changes nothing at all, neither capital nor P&L nor any position
    nor the cycle set. *)
Theorem settlePositions_idempotent :
  forall (now : Q) (g : Globals),
    settleAll now (settleAll now g) = settleAll now g.
Proof.
  intros now g.
  pose proof (settlePositions_leaves_skipped now g) as Hskips.
  assert (Hprune : pruneCycles (processedCycles (settleAll now g))
                   = processedCycles (settleAll now g)).
  { rewrite settlePositions_cycles_pruned. apply pruneCycles_again. }
  set (g' := settleAll now g) in *.
  unfold settlePositions.
  rewrite (settleLoop_skipped now (positions g') g' Hskips), Hprune.
  now destruct g'.
Qed.

(** X15.  After a settlement pass the cycle set holds at most 1000 keys
    and is a suffix of what it was: only the oldest keys are dropped, and
    when more than 1000 were held exactly the 500 newest remain. *)
Theorem settlePositions_prunes_oldest :
  forall (now : Q) (g : Globals),
    exists dropped,
      processedCycles g = dropped ++ processedCycles (settleAll now g)
      /\ (List.length (processedCycles (settleAll now g)) <= 1000)%nat
      /\ ((1000 < List.length (processedCycles g))%nat ->
          List.length (processedCycles (settleAll now g)) = 500%nat).
Proof.
  intros now g. rewrite settlePositions_cycles_pruned.
  apply pruneCycles_suffix.
Qed.

End SettlementMore.

(** ** Arbitrage purchases *)

Section ArbitrageMore.

Import PaperBot.

Variable PAPER_MIN_TRADE : Q.
Variable PAPER_MAX_TRADE : Q.
Variable Number_toString : Q -> string.

Local Abbreviation arbitrage :=
  (executeArbitrageTrade PAPER_MIN_TRADE PAPER_MAX_TRADE Number_toString).
Local Abbreviation keyOf := (cycleKey Number_toString).

Lemma min_below (x y : Q) : JS.min x y <= x /\ JS.min x y <= y.
Proof.
  unfold JS.min. destruct (JS.le x y) eqn:E; js_order; split; lra.
Qed.

Lemma clearWinner_loser (priceUp priceDown : Q) (winner : Side)
    (loserPrice : Q) :
  clearWinner priceUp priceDown = Some (winner, loserPrice) ->
  MIN_LOSER_PRICE <= loserPrice /\ loserPrice <= MAX_LOSER_PRICE
  /\ match winner with
     | UP => CLEAR_OUTCOME_THRESHOLD <= priceUp /\ loserPrice = priceDown
     | DOWN => CLEAR_OUTCOME_THRESHOLD <= priceDown /\ loserPrice = priceUp
     end.
Proof.
  unfold clearWinner.
  destruct (JS.ge priceUp _ && _ && _) eqn:Eup.
  - intros [= <- <-]. js_order. auto.
  - destruct (JS.ge priceDown _ && _ && _) eqn:Edown; [| discriminate].
    intros [= <- <-]. js_order. auto.
Qed.

(** The globals and the position after an attempt that buys. *)
Lemma arbitrage_cases (now : Q) (g : Globals) (position : MarketPosition)
    (market : Market.t) :
  (tradeLog (fst (arbitrage now g position market)) = tradeLog g
   /\ currentCapital (fst (arbitrage now g position market))
      = currentCapital g
   /\ snd (arbitrage now g position market) = position)
  \/ exists winner loserPrice,
       clearWinner (Market.priceUp market) (Market.priceDown market)
       = Some (winner, loserPrice)
       /\ hasArbitragePosition position = false
       /\ isSettled position = false
       /\ PAPER_MIN_TRADE <= JS.min (currentCapital g) PAPER_MAX_TRADE
       /\ arbitrage now g position market
          = (payTrade (markCycle g (keyOf position))
               {| trade_conditionId := conditionId position;
                  trade_side := otherSide winner;
                  trade_shares :=
                    JS.min (currentCapital g) PAPER_MAX_TRADE / loserPrice;
                  trade_cost := JS.min (currentCapital g) PAPER_MAX_TRADE;
                  trade_price := loserPrice |},
             withArbitrage position winner
               (JS.min (currentCapital g) PAPER_MAX_TRADE / loserPrice)
               (JS.min (currentCapital g) PAPER_MAX_TRADE)).
Proof.
  unfold executeArbitrageTrade.
  destruct (hasArbitragePosition position || isSettled position) eqn:Edone;
    [now left |].
  destruct (JS.gt _ _ || JS.lt _ _); [now left |].
  destruct (clearWinner _ _) as [[winner loserPrice] |]; [| now left].
  destruct (JS.has _ _); [now left |].
  cbn [markCycle currentCapital].
  destruct (JS.lt _ PAPER_MIN_TRADE) eqn:Epoor; [now left |].
  right. exists winner, loserPrice. js_order.
  repeat split; try assumption; reflexivity.
Qed.

(** X16.  An arbitrage attempt either buys nothing (capital, trade log and
    position as before) or makes exactly one purchase, whose cost is
    [Math.min(currentCapital, PAPER_MAX_TRADE)]: at least
    [PAPER_MIN_TRADE], at most [PAPER_MAX_TRADE], and never more than the
    capital held, from which that cost is subtracted. *)
Theorem arbitrage_spends_within_limits :
  forall (now : Q) (g : Globals) (position : MarketPosition)
         (market : Market.t),
    let g' := fst (arbitrage now g position market) in
    let position' := snd (arbitrage now g position market) in
    (tradeLog g' = tradeLog g /\ currentCapital g' = currentCapital g
     /\ position' = position)
    \/ exists trade,
         tradeLog g' = tradeLog g ++ [trade]
         /\ currentCapital g' = currentCapital g - trade_cost trade
         /\ trade_cost trade = JS.min (currentCapital g) PAPER_MAX_TRADE
         /\ PAPER_MIN_TRADE <= trade_cost trade
         /\ trade_cost trade <= PAPER_MAX_TRADE
         /\ trade_cost trade <= currentCapital g
         /\ totalTrades g' = (totalTrades g + 1)%Z
         /\ hasArbitragePosition position' = true
         /\ In (keyOf position) (processedCycles g').
Proof.
  intros now g position market g' position'. subst g' position'.
  destruct (arbitrage_cases now g position market)
    as [Hnone | (winner & loserPrice & _ & _ & _ & Hmin & ->)];
    [now left |].
  right. eexists. cbn [fst snd payTrade markCycle tradeLog currentCapital
                       totalTrades processedCycles trade_cost].
  destruct (min_below (currentCapital g) PAPER_MAX_TRADE) as [Hcap Hmax].
  repeat split; try reflexivity; try assumption.
  apply JSFacts.In_add. now left.
Qed.

Lemma app_one_neq {A : Type} (l : list A) (x : A) : l ++ [x] <> l.
Proof.
  intro H. apply (f_equal (@List.length A)) in H.
  rewrite length_app in H. simpl in H. lia.
Qed.

(** X17.  What a purchase buys: the side priced between 0.001 and 0.05
    while the other side is at 0.95 or more, at that price; the shares are
    the cost divided by the price, hence, for a cost that is not negative,
    more than 19 for every dollar; the shares and the cost are added to that
    side's arbitrage fields and the other side's are untouched. *)
Theorem arbitrage_buys_the_cheap_side :
  forall (now : Q) (g : Globals) (position : MarketPosition)
         (market : Market.t) (trade : PaperTrade),
    tradeLog (fst (arbitrage now g position market))
    = tradeLog g ++ [trade] ->
    let position' := snd (arbitrage now g position market) in
    let price (s : Side) :=
      match s with
      | UP => Market.priceUp market
      | DOWN => Market.priceDown market
      end in
    trade_price trade = price (trade_side trade)
    /\ 1 # 1000 <= trade_price trade /\ trade_price trade <= 5 # 100
    /\ 95 # 100 <= price (otherSide (trade_side trade))
    /\ trade_shares trade = trade_cost trade / trade_price trade
    /\ (0 <= trade_cost trade -> 19 * trade_cost trade <= trade_shares trade)
    /\ match trade_side trade with
       | UP =>
           arbSharesUp position' = arbSharesUp position + trade_shares trade
           /\ arbCostUp position' = arbCostUp position + trade_cost trade
           /\ arbSharesDown position' = arbSharesDown position
           /\ arbCostDown position' = arbCostDown position
       | DOWN =>
           arbSharesDown position'
           = arbSharesDown position + trade_shares trade
           /\ arbCostDown position' = arbCostDown position + trade_cost trade
           /\ arbSharesUp position' = arbSharesUp position
           /\ arbCostUp position' = arbCostUp position
       end.
Proof.
  intros now g position market trade Hlog position' price. subst position'.
  destruct (arbitrage_cases now g position market)
    as [(Hsame & _) | (winner & loserPrice & Hclear & _ & _ & _ & Hbuy)].
  - rewrite Hsame in Hlog. symmetry in Hlog.
    now apply app_one_neq in Hlog.
  - rewrite Hbuy in *. cbn [fst snd payTrade tradeLog] in *.
    apply app_inv_head in Hlog. injection Hlog as <-.
    cbn [trade_price trade_side trade_shares trade_cost].
    apply clearWinner_loser in Hclear.
    destruct Hclear as (Hlow & Hhigh & Hwinner).
    unfold MIN_LOSER_PRICE, MAX_LOSER_PRICE, CLEAR_OUTCOME_THRESHOLD in *.
    set (cost := JS.min (currentCapital g) PAPER_MAX_TRADE) in *.
    assert (Hshares : 0 <= cost -> 19 * cost <= cost / loserPrice).
    { intro Hcost. apply Qle_shift_div_l; [lra |].
      assert (Hscale : 20 * loserPrice * cost <= 1 * cost)
        by (apply Qmult_le_compat_r; lra).
      nra. }
    destruct winner; destruct Hwinner as [Hwon ->]; subst price;
      cbn [otherSide withArbitrage arbSharesUp arbSharesDown arbCostUp
           arbCostDown];
      repeat split; try reflexivity; try assumption.
Qed.

(** Outside the expiration window, or when no side is a clear
    winner with the other priced between 0.001 and 0.05, an attempt changes
    nothing: in particular the cycle key is not recorded, so the cycle stays
    open for a later attempt. *)
Theorem arbitrage_unclear_or_early_is_untouched :
  forall (now : Q) (g : Globals) (position : MarketPosition)
         (market : Market.t),
    EXPIRATION_WINDOW_MS < timeToExpiration now position
    \/ timeToExpiration now position < 10000
    \/ (~ (95 # 100 <= Market.priceUp market
           /\ 1 # 1000 <= Market.priceDown market <= 5 # 100)
        /\ ~ (95 # 100 <= Market.priceDown market
              /\ 1 # 1000 <= Market.priceUp market <= 5 # 100)) ->
    arbitrage now g position market = (g, position).
Proof.
  intros now g position market Hwhy. unfold executeArbitrageTrade.
  destruct (_ || _); [reflexivity |].
  destruct (JS.gt _ _ || JS.lt _ _) eqn:Ewindow; [reflexivity |].
  js_order.
  destruct Hwhy as [Hearly | [Hlate | [Hup Hdown]]]; try (exfalso; lra).
  destruct (clearWinner _ _) as [[winner loserPrice] |] eqn:Eclear;
    [| reflexivity].
  exfalso. apply clearWinner_loser in Eclear.
  unfold MIN_LOSER_PRICE, MAX_LOSER_PRICE, CLEAR_OUTCOME_THRESHOLD in *.
  destruct Eclear as (Hlow & Hhigh & Hwinner).
  destruct winner; destruct Hwinner as [Hwon ->]; tauto.
Qed.

(** X18.  How a purchase for a cost that is not negative changes the
    eventual settlement: if the side that looked like the winner wins, the
    P&L is at most what it would have been without the purchase; if the
    bought side wins after all, it is at least that; and with no winner it
    stays 0. *)
Theorem arbitrage_then_settlement :
  forall (now : Q) (g gs : Globals) (position : MarketPosition)
         (market : Market.t) (trade : PaperTrade),
    tradeLog (fst (arbitrage now g position market))
    = tradeLog g ++ [trade] ->
    0 <= trade_cost trade ->
    let position' := snd (arbitrage now g position market) in
    let pnl (p : MarketPosition) (flags : bool * bool) :=
      settlementPnL (snd (settlePosition gs p (fst flags) (snd flags))) in
    pnl position' (wonBy (otherSide (trade_side trade)))
    <= pnl position (wonBy (otherSide (trade_side trade)))
    /\ pnl position (wonBy (trade_side trade))
       <= pnl position' (wonBy (trade_side trade))
    /\ pnl position' (false, false) == 0.
Proof.
  intros now g gs position market trade Hlog Hcost position' pnl.
  subst position' pnl.
  destruct (arbitrage_cases now g position market)
    as [(Hsame & _) | (winner & loserPrice & Hclear & _ & Hopen & _ & Hbuy)].
  - rewrite Hsame in Hlog. symmetry in Hlog.
    now apply app_one_neq in Hlog.
  - rewrite Hbuy in *. cbn [fst snd payTrade tradeLog] in *.
    apply app_inv_head in Hlog. injection Hlog as <-.
    cbn [trade_side trade_shares trade_cost] in *.
    apply clearWinner_loser in Hclear.
    destruct Hclear as (Hlow & Hhigh & _).
    unfold MIN_LOSER_PRICE, MAX_LOSER_PRICE in *.
    set (cost := JS.min (currentCapital g) PAPER_MAX_TRADE) in *.
    assert (Hshares : cost <= cost / loserPrice).
    { apply Qle_shift_div_l; [lra |]. nra. }
    unfold settlePosition. cbn [withArbitrage isSettled]. rewrite Hopen.
    destruct winner; cbn; unfold totalCost; cbn;
      repeat match goal with |- _ /\ _ => split end; lra.
Qed.

End ArbitrageMore.

(** ** Finalization hands the market over *)

Section FinalizeMore.

Import PaperBot.

Lemma get_set_other {A : Type} (m : list (string * A)) (k k' : string)
    (v : A) :
  k' <> k -> JS.get (JS.set m k v) k' = JS.get m k'.
Proof.
  intro Hneq. unfold JS.get.
  induction m as [| [k0 w] m IH]; simpl.
  - destruct (String.eqb_spec k k'); [congruence | reflexivity].
  - destruct (String.eqb_spec k0 k) as [-> | Hk0]; simpl.
    + destruct (String.eqb_spec k k'); [congruence | reflexivity].
    + destruct (String.eqb k0 k'); [reflexivity | exact IH].
Qed.

Lemma get_delete {A : Type} (m : list (string * A)) (k k' : string) :
  JS.get (JS.delete m k) k' = if String.eqb k k' then None else JS.get m k'.
Proof.
  unfold JS.get, JS.delete.
  induction m as [| [k0 w] m IH]; simpl.
  - now destruct (String.eqb k k').
  - destruct (String.eqb_spec k0 k) as [-> | Hk0]; simpl.
    + rewrite IH. now destruct (String.eqb k k').
    + destruct (String.eqb_spec k0 k') as [-> | Hk']; simpl.
      * destruct (String.eqb_spec k k'); [congruence | reflexivity].
      * exact IH.
Qed.

(** Finalizing hands the market from its build state to a position:
    afterwards the market has no build state and has an open position that
    is neither arbitraged nor settled and ends when the market does; the
    build states and positions of all other markets, and the capital, are
    as before. *)
Theorem finalizePosition_hands_over :
  forall (now : Q) (g : Globals) (market : Market.t)
         (buildState : BuildState.t),
    let g' := finalizePosition now g market buildState in
    let key := Market.conditionId market in
    JS.get (buildingPositions g') key = None
    /\ (exists position,
          JS.get (positions g') key = Some position
          /\ isSettled position = false
          /\ hasArbitragePosition position = false
          /\ endDate position = Market.endDate market
          /\ totalCost position
             == BuildState.investedUp buildState
                + BuildState.investedDown buildState)
    /\ currentCapital g' = currentCapital g
    /\ forall k, k <> key ->
         JS.get (positions g') k = JS.get (positions g) k
         /\ JS.get (buildingPositions g') k = JS.get (buildingPositions g) k.
Proof.
  intros now g market buildState g' key. subst g' key.
  unfold finalizePosition. cbn [buildingPositions positions currentCapital].
  split; [| split; [| split]].
  - rewrite get_delete. now rewrite String.eqb_refl.
  - exists (builtPosition now market buildState).
    rewrite JSFacts.get_set_same.
    repeat split; try reflexivity.
    unfold totalCost. simpl. ring.
  - reflexivity.
  - intros k Hneq. split; [now apply get_set_other |].
    rewrite get_delete.
    destruct (String.eqb_spec (Market.conditionId market) k);
      [congruence | reflexivity].
Qed.

End FinalizeMore.

(** ** Instances of the further lifecycle properties *)

Lemma settlePosition_accounting_witness :
  settlementPnL
    (snd (PaperBot.settlePosition (globals_example 9000)
            double_winner_example false false)) == 0
  /\ currentCapital
       (fst (PaperBot.settlePosition (globals_example 9000)
               double_winner_example false false)) == 9000 + 1015.
Proof.
  destruct (settlePosition_accounting (globals_example 9000)
              double_winner_example false false eq_refl)
    as (_ & _ & _ & _ & _ & _ & _ & Hunclear).
  destruct (Hunclear eq_refl eq_refl) as [Hpnl Hcapital].
  split; [exact Hpnl | rewrite Hcapital; reflexivity].
Defined.

Lemma arbitrage_buys_the_cheap_side_witness :
  trade_shares arbitrage_trade_example
  = trade_cost arbitrage_trade_example / trade_price arbitrage_trade_example
  /\ 19 * trade_cost arbitrage_trade_example
     <= trade_shares arbitrage_trade_example.
Proof.
  destruct (arbitrage_buys_the_cheap_side (1 # 2) 15 showInteger
              1765999939000 (globals_example 9000) position_example
              market_example arbitrage_trade_example eq_refl)
    as (_ & _ & _ & _ & Hquotient & Hshares & _).
  split; [exact Hquotient | apply Hshares].
  vm_compute. discriminate.
Defined.

(** Five minutes before expiry the attempt is too early. *)
Lemma arbitrage_unclear_or_early_is_untouched_witness :
  PaperBot.executeArbitrageTrade (1 # 2) 15 showInteger 1765999700000
    (globals_example 9000) position_example market_example
  = (globals_example 9000, position_example).
Proof.
  apply (arbitrage_unclear_or_early_is_untouched (1 # 2) 15 showInteger).
  left. vm_compute. reflexivity.
Defined.

(** With 1200 UP and 1000 DOWN shares bought for 1000 and 500 DOWN shares
    added for 15: UP winning gives 200 - 15, DOWN winning gives 0 + 500 -
    15. *)
Lemma arbitrage_then_settlement_witness :
  let position' :=
    snd (PaperBot.executeArbitrageTrade (1 # 2) 15 showInteger 1765999939000
           (globals_example 9000) position_example market_example) in
  settlementPnL
    (snd (PaperBot.settlePosition (globals_example 0) position' true false))
  <= 200
  /\ 0 <= settlementPnL
            (snd (PaperBot.settlePosition (globals_example 0) position' false
                    true)).
Proof.
  intro position'.
  destruct (arbitrage_then_settlement (1 # 2) 15 showInteger 1765999939000
              (globals_example 9000) (globals_example 0) position_example
              market_example arbitrage_trade_example eq_refl)
    as (Hwinner & Hupset & _); [vm_compute; discriminate |].
  split.
  - eapply Qle_trans; [exact Hwinner | vm_compute; discriminate].
  - eapply Qle_trans; [| exact Hupset]. vm_compute. discriminate.
Defined.

(** * Properties of the cleanup *)

Section CleanupProperties.

Import Monitor.

Lemma cleanupPositions_refunds (now : Q)
    (markets : list (string * Market.t))
    (entries : list (string * MarketPosition)) :
  forall capital,
    cleanupPositions now markets capital entries
    = (fold_left Qplus
         (map (fun entry => costUp (snd entry) + costDown (snd entry))
            (filter (dropsPosition now markets) entries))
         capital,
       filter (fun entry => negb (dropsPosition now markets entry)) entries).
Proof.
  induction entries as [| [key position] rest IH]; intro capital;
    cbn [cleanupPositions filter]; [reflexivity |].
  assert (Hdrop :
    dropsPosition now markets (key, position)
    = negb (isSettled position)
      && (match JS.get markets key with Some _ => false | None => true end
          || longExpired now (endDate position))).
  { unfold dropsPosition, Builder.has. cbn [fst snd].
    now destruct (JS.get markets key). }
  rewrite Hdrop.
  destruct (isSettled position); cbn [negb andb].
  - now rewrite IH.
  - destruct (JS.get markets key) as [market |]; cbn [negb orb].
    + destruct (longExpired now (endDate position)); cbn [negb];
        now rewrite IH.
    + now rewrite IH.
Qed.

Lemma cleanupBuilding_refunds (now : Q)
    (markets : list (string * Market.t))
    (entries : list (string * BuildState.t)) :
  forall capital,
    cleanupBuilding now markets capital entries
    = (fold_left Qplus
         (map (fun entry =>
                 BuildState.investedUp (snd entry)
                 + BuildState.investedDown (snd entry))
            (filter (dropsBuild now markets) entries))
         capital,
       filter (fun entry => negb (dropsBuild now markets entry)) entries).
Proof.
  induction entries as [| [key buildState] rest IH]; intro capital;
    cbn [cleanupBuilding filter]; [reflexivity |].
  assert (Hdrop :
    dropsBuild now markets (key, buildState)
    = match JS.get markets key with
      | None => true
      | Some market => longExpired now (Market.endDate market)
      end) by reflexivity.
  rewrite Hdrop.
  destruct (JS.get markets key) as [market |].
  - destruct (longExpired now (Market.endDate market)); cbn [negb];
      now rewrite IH.
  - now rewrite IH.
Qed.

(** X19.  Cleanup refunds exactly what it removes: the capital afterwards
    is the capital before plus, added in map order, the split cost
    [costUp + costDown] of each position removed and then the dollars
    [investedUp + investedDown] of each build state removed (arbitrage costs
    are not refunded); the positions and build states that are not removed
    stay as they are, in order; P&L, counters, cycle set, trade log and
    scheduled removals are untouched. *)
Theorem cleanup_conserves_committed_capital :
  forall (now : Q) (g : Globals) (proactive : list string),
    let g' := fst (cleanupExpiredMarketsAndPositions now g proactive) in
    currentCapital g' = fold_left Qplus (refunds now g) (currentCapital g)
    /\ positions g'
       = filter
           (fun entry => negb (dropsPosition now (discoveredMarkets g) entry))
           (positions g)
    /\ buildingPositions g'
       = filter
           (fun entry => negb (dropsBuild now (discoveredMarkets g) entry))
           (buildingPositions g)
    /\ totalPnL g' = totalPnL g
    /\ totalTrades g' = totalTrades g
    /\ totalCycles g' = totalCycles g
    /\ processedCycles g' = processedCycles g
    /\ tradeLog g' = tradeLog g
    /\ pendingDeletes g' = pendingDeletes g.
Proof.
  intros now g proactive g'. subst g'.
  unfold cleanupExpiredMarketsAndPositions, refunds.
  rewrite cleanupPositions_refunds, cleanupBuilding_refunds.
  cbn [fst snd currentCapital positions buildingPositions totalPnL
       totalTrades totalCycles processedCycles tradeLog pendingDeletes].
  rewrite fold_left_app.
  repeat split.
Qed.

Lemma cleanupPositions_entries (now : Q)
    (markets : list (string * Market.t))
    (entries : list (string * MarketPosition)) :
  forall capital key position,
    In (key, position) (snd (cleanupPositions now markets capital entries))
    <-> In (key, position) entries
        /\ (isSettled position = true
            \/ (JS.get markets key <> None
                /\ longExpired now (endDate position) = false)).
Proof.
  induction entries as [| [k p] rest IH]; intros capital key position;
    cbn [cleanupPositions snd].
  - simpl. tauto.
  - destruct (isSettled p) eqn:Esettled.
    + specialize (IH capital key position).
      destruct (cleanupPositions now markets capital rest) as [c r].
      cbn [snd] in *. simpl. rewrite IH. split.
      * intros [[= <- <-] | [Hin Hkeep]]; auto.
      * intros [[[= <- <-] | Hin] Hkeep]; auto.
    + destruct (JS.get markets k) as [market |] eqn:Eget.
      * destruct (longExpired now (endDate p)) eqn:Eexp.
        -- rewrite IH. simpl. split.
           ++ intros [Hin Hkeep]. auto.
           ++ intros [[[= <- <-] | Hin] Hkeep]; [| auto].
              destruct Hkeep as [Hs | [_ He]]; congruence.
        -- specialize (IH capital key position).
           destruct (cleanupPositions now markets capital rest) as [c r].
           cbn [snd] in *. simpl. rewrite IH. split.
           ++ intros [[= <- <-] | [Hin Hkeep]]; [| auto].
              split; [now left |]. right. split; congruence.
           ++ intros [[[= <- <-] | Hin] Hkeep]; auto.
      * rewrite IH. simpl. split.
        -- intros [Hin Hkeep]. auto.
        -- intros [[[= <- <-] | Hin] Hkeep]; [| auto].
           destruct Hkeep as [Hs | [Hm _]]; congruence.
Qed.

(** X20.  Cleanup never removes a settled position and never adds one: a
    position is there afterwards iff it was there before and is settled, or
    else its market is still tracked and its end date has not passed by
    more than a minute. *)
Theorem cleanup_keeps_settled_positions :
  forall (now : Q) (g : Globals) (proactive : list string)
         (key : string) (position : MarketPosition),
    In (key, position)
       (positions (fst (cleanupExpiredMarketsAndPositions now g proactive)))
    <-> In (key, position) (positions g)
        /\ (isSettled position = true
            \/ (JS.get (discoveredMarkets g) key <> None
                /\ longExpired now (endDate position) = false)).
Proof.
  intros now g proactive key position.
  unfold cleanupExpiredMarketsAndPositions.
  pose proof (cleanupPositions_entries now (discoveredMarkets g)
                (positions g) (currentCapital g) key position) as Hpos.
  destruct (cleanupPositions now (discoveredMarkets g) (currentCapital g)
              (positions g)) as [c1 positions'].
  destruct (cleanupBuilding now (discoveredMarkets g) c1
              (buildingPositions g)) as [c2 building'].
  exact Hpos.
Qed.

Lemma cleanupBuilding_entries (now : Q)
    (markets : list (string * Market.t))
    (entries : list (string * BuildState.t)) :
  forall capital key buildState,
    In (key, buildState)
       (snd (cleanupBuilding now markets capital entries)) ->
    In (key, buildState) entries
    /\ exists market,
         JS.get markets key = Some market
         /\ longExpired now (Market.endDate market) = false.
Proof.
  induction entries as [| [k b] rest IH]; intros capital key buildState;
    cbn [cleanupBuilding snd].
  - intros [].
  - destruct (JS.get markets k) as [market |] eqn:Eget.
    + destruct (longExpired now (Market.endDate market)) eqn:Eexp.
      * intro Hin. apply IH in Hin. destruct Hin as [Hin Hm].
        split; [now right | exact Hm].
      * specialize (IH capital key buildState).
        destruct (cleanupBuilding now markets capital rest) as [c r].
        cbn [snd] in *. intros [[= <- <-] | Hin].
        -- split; [now left | now exists market].
        -- apply IH in Hin. destruct Hin as [Hin Hm].
           split; [now right | exact Hm].
    + intro Hin. apply IH in Hin. destruct Hin as [Hin Hm].
      split; [now right | exact Hm].
Qed.

Lemma get_filter_kept {A : Type} (keep : string * A -> bool)
    (m : list (string * A)) (key : string) (v : A) :
  JS.get m key = Some v -> keep (key, v) = true ->
  JS.get (filter keep m) key = Some v.
Proof.
  unfold JS.get. induction m as [| [k w] m IH]; [discriminate |].
  simpl. destruct (String.eqb_spec k key) as [-> | Hneq].
  - intros [= ->] Hkeep. rewrite Hkeep. simpl. now rewrite String.eqb_refl.
  - intros Hget Hkeep. destruct (keep (k, w)); simpl.
    + destruct (String.eqb_spec k key); [congruence | now apply IH].
    + now apply IH.
Qed.

(** X21.  After a cleanup every remaining build state still has its market
    among the discovered markets, and that market is not expired, provided
    no tracked market has a negative end date. *)
Theorem cleanup_leaves_no_orphan_build :
  forall (now : Q) (g : Globals) (proactive : list string)
         (key : string) (buildState : BuildState.t),
    (forall k m, In (k, m) (discoveredMarkets g) -> 0 <= Market.endDate m) ->
    let g' := fst (cleanupExpiredMarketsAndPositions now g proactive) in
    In (key, buildState) (buildingPositions g') ->
    exists market,
      JS.get (discoveredMarkets g') key = Some market
      /\ marketExpired now market = false.
Proof.
  intros now g proactive key buildState Hdates g' Hin. subst g'.
  unfold cleanupExpiredMarketsAndPositions in *.
  destruct (cleanupPositions now (discoveredMarkets g) (currentCapital g)
              (positions g)) as [c1 positions'].
  pose proof (cleanupBuilding_entries now (discoveredMarkets g)
                (buildingPositions g) c1 key buildState) as Hbuild.
  destruct (cleanupBuilding now (discoveredMarkets g) c1
              (buildingPositions g)) as [c2 building'].
  cbn [fst snd buildingPositions discoveredMarkets] in *.
  destruct (Hbuild Hin) as (_ & market & Hget & Hlive).
  assert (Hdate : 0 <= Market.endDate market).
  { apply (Hdates key). clear - Hget. unfold JS.get in Hget.
    induction (discoveredMarkets g) as [| [k w] m IH]; [discriminate |].
    simpl in Hget. destruct (String.eqb_spec k key) as [-> | _].
    - injection Hget as ->. now left.
    - right. now apply IH. }
  assert (Hnot : marketExpired now market = false).
  { unfold marketExpired, longExpired, JS.falsy in *.
    destruct (Qeq_bool (Market.endDate market) 0) eqn:Ezero;
      [reflexivity |].
    simpl in *.
    assert (Epos : JS.gt (Market.endDate market) 0 = true).
    { apply JSFacts.gt_iff.
      destruct (Qlt_le_dec 0 (Market.endDate market)) as [Hpos | Hle];
        [exact Hpos |].
      assert (Hz : Market.endDate market == 0) by lra.
      apply Qeq_bool_iff in Hz. congruence. }
    rewrite Epos in Hlive. exact Hlive. }
  exists market. split; [| exact Hnot].
  unfold cleanupMarkets. apply get_filter_kept; [exact Hget |].
  cbn [snd]. now rewrite Hnot.
Qed.

End CleanupProperties.

Lemma cleanup_leaves_no_orphan_build_witness :
  exists market,
    JS.get
      (discoveredMarkets
         (fst (Monitor.cleanupExpiredMarketsAndPositions 1765999939000
                 tracked_globals_example [])))
      "0xabc" = Some market
    /\ Monitor.marketExpired 1765999939000 market = false.
Proof.
  apply (cleanup_leaves_no_orphan_build 1765999939000 tracked_globals_example
           [] "0xabc" build_example).
  - intros k m [Hm | []]. inversion Hm. vm_compute. discriminate.
  - vm_compute. left. reflexivity.
Defined.

(** * Properties of the parity matcher *)

Section ParityProperties.

Import Parity.

Variable toISOString : Q -> string.

Lemma matchStep_keeps_loopState (windowMs : Q) (market : string)
    (watchTrade : ParsedTrade) (done : list ParsedTrade)
    (acc : option TradeMatch * Q) (x : ParsedTrade) :
  loopState windowMs market watchTrade done acc ->
  loopState windowMs market watchTrade (done ++ [x])
    (matchStep windowMs market watchTrade acc x).
Proof.
  intro Hacc. unfold matchStep. fold (timeApart watchTrade x).
  destruct Hacc
    as [(Hnone & Hmin & Hfar)
       | (before & p & after & -> & Hsome & Hmin & Hin & Hbefore & Hafter)].
  - rewrite Hmin.
    destruct (JS.le (timeApart watchTrade x) windowMs) eqn:Ein; js_order.
    + assert (E : JS.lt (timeApart watchTrade x) (windowMs + 1) = true)
        by (apply JSFacts.lt_iff; lra).
      rewrite E. simpl. right. exists done, x, []. repeat split.
      * exact Ein.
      * intros q Hq. specialize (Hfar q Hq). lra.
      * intros q [].
    + simpl. left. repeat split; try assumption.
      intros q Hq. apply in_app_or in Hq.
      destruct Hq as [Hq | [<- | []]]; [now apply Hfar | exact Ein].
  - rewrite Hmin.
    destruct (JS.le (timeApart watchTrade x) windowMs
              && JS.lt (timeApart watchTrade x) (timeApart watchTrade p))
      eqn:Ecloser.
    + js_order. right. exists (before ++ p :: after), x, []. repeat split.
      * assumption.
      * intros q Hq. apply in_app_or in Hq.
        destruct Hq as [Hq | [<- | Hq]].
        -- specialize (Hbefore q Hq). lra.
        -- assumption.
        -- specialize (Hafter q Hq). lra.
      * intros q [].
    + right. exists before, p, (after ++ [x]).
      rewrite <- app_assoc. repeat split; try assumption.
      intros q Hq. apply in_app_or in Hq.
      destruct Hq as [Hq | [<- | []]]; [now apply Hafter |].
      apply andb_false_iff in Ecloser.
      destruct Ecloser as [E | E]; js_order; lra.
Qed.

Lemma fold_matchStep_loopState (windowMs : Q) (market : string)
    (watchTrade : ParsedTrade) (papers : list ParsedTrade) :
  forall done acc,
    loopState windowMs market watchTrade done acc ->
    loopState windowMs market watchTrade (done ++ papers)
      (fold_left (matchStep windowMs market watchTrade) papers acc).
Proof.
  induction papers as [| x rest IH]; intros done acc Hacc; simpl.
  - now rewrite app_nil_r.
  - replace (done ++ x :: rest) with ((done ++ [x]) ++ rest)
      by (now rewrite <- app_assoc).
    apply IH. now apply matchStep_keeps_loopState.
Qed.

Lemma bestMatch_loopState (windowMs : Q) (market : string)
    (watchTrade : ParsedTrade) (papers : list ParsedTrade) :
  loopState windowMs market watchTrade papers
    (fold_left (matchStep windowMs market watchTrade) papers
       (None, windowMs + 1)).
Proof.
  apply (fold_matchStep_loopState windowMs market watchTrade papers []).
  left. repeat split. intros q [].
Qed.

(** X22.  The partner of a WATCH trade is the nearest PAPER trade in time,
    if that one is within the window (boundary included), and the first of
    the nearest ones on a tie; there is none iff every PAPER trade is more
    than the window away. *)
Theorem bestMatch_is_nearest_in_window :
  forall (windowMs : Q) (market : string) (watchTrade : ParsedTrade)
         (paperTrades : list ParsedTrade),
    (bestMatch windowMs market watchTrade paperTrades = None
     /\ forall q, In q paperTrades -> windowMs < timeApart watchTrade q)
    \/ exists before paperTrade after,
         paperTrades = before ++ paperTrade :: after
         /\ bestMatch windowMs market watchTrade paperTrades
            = Some (makeMatch market watchTrade paperTrade
                      (timeApart watchTrade paperTrade))
         /\ nearestFirst windowMs watchTrade before paperTrade after.
Proof.
  intros windowMs market watchTrade paperTrades. unfold bestMatch.
  destruct (bestMatch_loopState windowMs market watchTrade paperTrades)
    as [(Hnone & _ & Hfar)
       | (before & p & after & Hsplit & Hsome & _ & Hnear)].
  - left. split; assumption.
  - right. exists before, p, after. repeat split; try assumption.
    all: apply Hnear.
Qed.

Lemma matchTrades_members (windowMs : Q) (market : string)
    (watches papers : list ParsedTrade) (m : TradeMatch) :
  In m (matchTrades windowMs market watches papers) ->
  exists watchTrade paperTrade,
    In watchTrade watches /\ In paperTrade papers
    /\ m = makeMatch market watchTrade paperTrade
             (timeApart watchTrade paperTrade)
    /\ timeApart watchTrade paperTrade <= windowMs.
Proof.
  induction watches as [| w rest IH]; cbn [matchTrades]; [intros [] |].
  assert (Hrest : In m (matchTrades windowMs market rest papers) ->
                  exists watchTrade paperTrade,
                    In watchTrade (w :: rest) /\ In paperTrade papers
                    /\ m = makeMatch market watchTrade paperTrade
                             (timeApart watchTrade paperTrade)
                    /\ timeApart watchTrade paperTrade <= windowMs).
  { intro Hin. destruct (IH Hin) as (w' & p' & Hw & Hp & Hm).
    exists w', p'. split; [now right | split; assumption]. }
  unfold bestMatch.
  destruct (bestMatch_loopState windowMs market w papers)
    as [(-> & _) | (before & p & after & Hsplit & -> & _ & Hnear & _)];
    [exact Hrest |].
  intros [<- | Hin]; [| now apply Hrest].
  exists w, p. split; [now left |]. split; [| split; [reflexivity |]].
  - rewrite Hsplit. apply in_or_app. right. now left.
  - exact Hnear.
Qed.

Lemma matchTrades_length (windowMs : Q) (market : string)
    (watches papers : list ParsedTrade) :
  (List.length (matchTrades windowMs market watches papers)
   <= List.length watches)%nat.
Proof.
  induction watches as [| w rest IH]; cbn [matchTrades]; [apply Nat.le_refl |].
  destruct (bestMatch windowMs market w papers); simpl; lia.
Qed.

Lemma percent_bounds (n m : nat) :
  (n <= m)%nat -> (0 < m)%nat ->
  0 <= countQ n / countQ m * 100 /\ countQ n / countQ m * 100 <= 100.
Proof.
  intros Hle Hpos. unfold countQ.
  assert (Hm : 0 < inject_Z (Z.of_nat m))
    by (change 0 with (inject_Z 0); rewrite <- Zlt_Qlt; lia).
  assert (Hn : 0 <= inject_Z (Z.of_nat n))
    by (change 0 with (inject_Z 0); rewrite <- Zle_Qle; lia).
  assert (Hnm : inject_Z (Z.of_nat n) <= inject_Z (Z.of_nat m))
    by (rewrite <- Zle_Qle; lia).
  assert (Hlow : 0 <= inject_Z (Z.of_nat n) / inject_Z (Z.of_nat m))
    by (apply Qle_shift_div_l; [exact Hm | lra]).
  assert (Hhigh : inject_Z (Z.of_nat n) / inject_Z (Z.of_nat m) <= 1)
    by (apply Qle_shift_div_r; [exact Hm | lra]).
  split; lra.
Qed.

Lemma medianOf_member (xs : list Q) :
  (xs = [] /\ medianOf xs = 0) \/ In (medianOf xs) xs.
Proof.
  destruct xs as [| x rest]; [now left |]. right. unfold medianOf.
  set (sorted := JS.sort (fun x => x) (x :: rest)).
  destruct (nth_error sorted (Nat.div2 (List.length sorted))) as [m |] eqn:E.
  - apply (sort_In (fun x : Q => x)). eapply nth_error_In. exact E.
  - apply nth_error_None in E.
    assert (Hpos : (0 < List.length sorted)%nat)
      by (subst sorted; rewrite sort_length; simpl; lia).
    pose proof (Nat.lt_div2 _ Hpos). lia.
Qed.

(** X23.  The statistics of a market are in range: no more matches than
    WATCH trades, both percentages between 0 and 100, the median time
    difference between 0 and the window, the median fill-price difference
    not negative. *)
Theorem marketStats_in_range :
  forall (windowMs : Q) (market : string)
         (watchTrades paperTrades : list ParsedTrade),
    0 <= windowMs ->
    let stat :=
      marketStats toISOString windowMs market watchTrades paperTrades in
    (matched_count stat <= watch_total stat)%nat
    /\ 0 <= matched_percent stat /\ matched_percent stat <= 100
    /\ 0 <= same_side_percent stat /\ same_side_percent stat <= 100
    /\ 0 <= median_dt_ms stat /\ median_dt_ms stat <= windowMs
    /\ 0 <= median_fill_px_diff stat.
Proof.
  intros windowMs market watches papers Hwindow stat. subst stat.
  unfold marketStats.
  set (matches := matchTrades windowMs market watches papers).
  pose proof (matchTrades_length windowMs market watches papers) as Hlen.
  fold matches in Hlen.
  cbn [matched_count watch_total matched_percent same_side_percent
       median_dt_ms median_fill_px_diff].
  split; [exact Hlen |].
  assert (Hmatched :
            0 <= (if (0 <? List.length watches)%nat
                  then countQ (List.length matches)
                       / countQ (List.length watches) * 100
                  else 0)
            <= 100).
  { destruct (Nat.ltb_spec 0 (List.length watches)) as [Hpos | _];
      [now apply percent_bounds | split; lra]. }
  assert (Hside :
            0 <= (if (0 <? List.length matches)%nat
                  then countQ (List.length (filter same_side matches))
                       / countQ (List.length matches) * 100
                  else 0)
            <= 100).
  { destruct (Nat.ltb_spec 0 (List.length matches)) as [Hpos | _];
      [| split; lra].
    apply percent_bounds; [apply filter_length_le | exact Hpos]. }
  assert (Hdt : 0 <= medianOf (map dt_ms matches) <= windowMs).
  { destruct (medianOf_member (map dt_ms matches)) as [[_ ->] | Hin];
      [split; lra |].
    apply in_map_iff in Hin. destruct Hin as (m & <- & Hm).
    apply matchTrades_members in Hm.
    destruct Hm as (w & p & _ & _ & -> & Hnear).
    cbn [dt_ms makeMatch]. split; [apply Qabs_nonneg | exact Hnear]. }
  assert (Hpx : 0 <= medianOf (map fill_px_diff matches)).
  { destruct (medianOf_member (map fill_px_diff matches)) as [[_ ->] | Hin];
      [lra |].
    apply in_map_iff in Hin. destruct Hin as (m & <- & Hm).
    apply matchTrades_members in Hm.
    destruct Hm as (w & p & _ & _ & -> & _).
    cbn [fill_px_diff makeMatch]. apply Qabs_nonneg. }
  tauto.
Qed.

(** X24.  The diagnostics fail perfect agreement: when WATCH and PAPER
    trades are all on the same side and at least one is matched, the
    same-side rate is 100, which is above the accepted band of 95 to 98, so
    the market never gets "all metrics pass". *)
Theorem perfect_side_agreement_fails :
  forall (windowMs : Q) (market : string)
         (watchTrades paperTrades : list ParsedTrade) (s : string),
    (forall w, In w watchTrades -> pt_side w = s) ->
    (forall p, In p paperTrades -> pt_side p = s) ->
    let stat :=
      marketStats toISOString windowMs market watchTrades paperTrades in
    (0 < matched_count stat)%nat ->
    same_side_percent stat == 100
    /\ sameSideOk stat = false
    /\ allMetricsOk stat = false.
Proof.
  intros windowMs market watches papers s Hwatch Hpaper stat Hsome.
  assert (Hpercent : same_side_percent stat == 100).
  { subst stat. unfold marketStats in *.
    set (matches := matchTrades windowMs market watches papers) in *.
    cbn [matched_count same_side_percent] in *.
    assert (Hall : filter same_side matches = matches).
    { apply forallb_filter_id. apply forallb_forall. intros m Hm.
      apply matchTrades_members in Hm.
      destruct Hm as (w & p & Hw & Hp & -> & _).
      cbn [same_side makeMatch].
      rewrite (Hwatch w Hw), (Hpaper p Hp). apply String.eqb_refl. }
    rewrite Hall.
    destruct (Nat.ltb_spec 0 (List.length matches)) as [Hpos | Hzero];
      [| lia].
    assert (Hnz : ~ countQ (List.length matches) == 0).
    { unfold countQ, Qeq. simpl. lia. }
    field. exact Hnz. }
  assert (Hside : sameSideOk stat = false).
  { unfold sameSideOk.
    assert (E : JS.le (same_side_percent stat) 98 = false)
      by (apply JSFacts.le_false; rewrite Hpercent; reflexivity).
    rewrite E. apply andb_false_r. }
  split; [exact Hpercent | split; [exact Hside |]].
  unfold allMetricsOk. now rewrite Hside.
Qed.

End ParityProperties.

Lemma marketStats_in_range_witness :
  let stat :=
    Parity.marketStats showInteger 2000 "BTC" [watch_example]
      [paper_near_example; paper_far_example] in
  0 <= median_dt_ms stat /\ median_dt_ms stat <= 2000
  /\ matched_percent stat <= 100.
Proof.
  intro stat.
  destruct (marketStats_in_range showInteger 2000 "BTC" [watch_example]
              [paper_near_example; paper_far_example])
    as (_ & _ & Hmatched & _ & _ & Hlow & Hhigh & _).
  - vm_compute. discriminate.
  - repeat split; assumption.
Defined.

Lemma perfect_side_agreement_fails_witness :
  Parity.allMetricsOk
    (Parity.marketStats showInteger 2000 "BTC" [watch_example]
       [paper_near_example]) = false.
Proof.
  destruct (perfect_side_agreement_fails showInteger 2000 "BTC"
              [watch_example] [paper_near_example] "UP")
    as (_ & _ & Hall).
  - intros w [<- | []]. reflexivity.
  - intros p [<- | []]. reflexivity.
  - vm_compute. apply le_n.
  - exact Hall.
Defined.

Section WorstMismatches.

Import Parity.

Variable toISOString : Q -> string.

(** X25.  [worst_mismatches] lists the matches with the largest fill-price
    differences: at most ten of them (all, if there are fewer), in
    descending order of the difference, and no match left out has a larger
    difference than one listed. *)
Theorem worst_mismatches_are_the_largest :
  forall (matches : list TradeMatch),
    let worst := worstMismatches toISOString matches in
    exists omitted,
      Permutation (map (toMismatch toISOString) matches) (worst ++ omitted)
      /\ List.length worst = Nat.min 10 (List.length matches)
      /\ StronglySorted
           (fun a b => mm_fill_px_diff b <= mm_fill_px_diff a) worst
      /\ forall w o, In w worst -> In o omitted ->
                     mm_fill_px_diff o <= mm_fill_px_diff w.
Proof.
  intros matches worst. subst worst. unfold worstMismatches.
  set (all := map (toMismatch toISOString) matches).
  set (sorted := JS.sort (fun m => - mm_fill_px_diff m) all).
  exists (skipn 10 sorted).
  pose proof (sort_sorted (fun m => - mm_fill_px_diff m) all) as Hsorted.
  fold sorted in Hsorted.
  rewrite <- (firstn_skipn 10 sorted) in Hsorted.
  apply sorted_app_inv in Hsorted. destruct Hsorted as [Hfirst Hcross].
  split; [| split; [| split]].
  - rewrite firstn_skipn. apply Permutation_sym, sort_permutation.
  - rewrite length_firstn. subst sorted all.
    now rewrite sort_length, length_map.
  - eapply sorted_weaken; [| exact Hfirst].
    intros a b Hab. simpl in Hab. lra.
  - intros w o Hw Ho. specialize (Hcross w o Hw Ho). simpl in Hcross. lra.
Qed.

End WorstMismatches.

(** * Properties of position building *)

(** ** Maps *)

Lemma set_get_same {A : Type} (m : list (string * A)) (key : string) (v : A) :
  JS.get m key = Some v -> JS.set m key v = m.
Proof.
  induction m as [| [k w] m IH]; simpl; [discriminate |].
  destruct (String.eqb k key) eqn:E.
  - now intros [= ->].
  - intros H. now rewrite IH.
Qed.

(** ** One batch *)

Section BuildProperties.

Variable PAPER_BTC_MAX_PER_MARKET : Q.
Variable PAPER_ETH_MAX_PER_MARKET : Q.
Variable random : nat -> Q.

(** What the two executions of a batch do to the books and the state. *)
Lemma execute_summary (key : string) (market : Market.t)
    (batch : Builder.Batch) (g : Globals) (b : BuildState.t) :
  exists g' b' trades,
    Builder.executeDown key market batch
      (Builder.executeUp key market batch (g, b)) = (g', b')
    /\ tradeLog g' = tradeLog g ++ trades
    /\ (List.length trades <= 2)%nat
    /\ currentCapital g'
       = fold_left Qminus (map trade_cost trades) (currentCapital g)
    /\ totalTrades g' = (totalTrades g + Z.of_nat (List.length trades))%Z
    /\ (0 <= currentCapital g -> 0 <= currentCapital g')
    /\ Forall
         (fun trade =>
            trade_conditionId trade = key
            /\ 1 # 2 <= trade_shares trade
            /\ 0 < trade_cost trade
            /\ ((trade_side trade = UP
                 /\ trade_price trade = Market.priceUp market
                 /\ trade_shares trade = Builder.sharesUp batch
                 /\ trade_cost trade = Builder.tradeUp batch)
                \/ (trade_side trade = DOWN
                    /\ trade_price trade = Market.priceDown market
                    /\ trade_shares trade = Builder.sharesDown batch
                    /\ trade_cost trade = Builder.tradeDown batch)))
         trades
    /\ (BuildState.investedUp b' = BuildState.investedUp b
        \/ (BuildState.investedUp b'
            = BuildState.investedUp b + Builder.tradeUp batch
            /\ 0 < Builder.tradeUp batch
            /\ Builder.tradeUp batch <= currentCapital g))
    /\ (BuildState.investedDown b' = BuildState.investedDown b
        \/ (BuildState.investedDown b'
            = BuildState.investedDown b + Builder.tradeDown batch
            /\ 0 < Builder.tradeDown batch
            /\ Builder.tradeDown batch <= currentCapital g))
    /\ (BuildState.investedUp b'
        = fold_left Qplus (costsOn UP trades) (BuildState.investedUp b)
        /\ BuildState.investedDown b'
           = fold_left Qplus (costsOn DOWN trades)
               (BuildState.investedDown b))
    /\ BuildState.targetUp b' = BuildState.targetUp b
    /\ BuildState.targetDown b' = BuildState.targetDown b
    /\ positions g' = positions g
    /\ buildingPositions g' = buildingPositions g
    /\ totalPnL g' = totalPnL g
    /\ totalCycles g' = totalCycles g
    /\ discoveredMarkets g' = discoveredMarkets g
    /\ processedCycles g' = processedCycles g
    /\ pendingDeletes g' = pendingDeletes g
    /\ In (map trade_side trades) [[]; [UP]; [DOWN]; [UP; DOWN]].
Proof.
  unfold Builder.executeUp.
  destruct (JS.ge (Builder.sharesUp batch) Builder.MIN_SHARES
            && JS.gt (Builder.tradeUp batch) 0
            && JS.ge (currentCapital g) (Builder.tradeUp batch)) eqn:Eup;
    unfold Builder.executeDown;
    match goal with
    | |- context [if ?c then _ else _] => destruct c eqn:Edown
    end;
    repeat match goal with
           | H : _ && _ = true |- _ =>
               apply andb_prop in H; destruct H
           | H : JS.ge _ _ = true |- _ => apply JSFacts.ge_iff in H
           | H : JS.gt _ _ = true |- _ => apply JSFacts.gt_iff in H
           end;
    unfold Builder.MIN_SHARES in *;
    cbn [PaperBot.payTrade currentCapital trade_cost] in *;
    [eexists _, _, [_; _] | eexists _, _, [_] | eexists _, _, [_]
    | exists g, b, []];
    (split; [reflexivity |]); simpl;
    rewrite <- ?app_assoc, ?app_nil_r; simpl;
    repeat match goal with |- _ /\ _ => split end;
    try reflexivity; try (simpl; lra); try (simpl; lia);
    try (simpl; tauto);
    try (right; repeat split; try assumption; lra);
    repeat (apply Forall_cons || apply Forall_nil); simpl;
    (split; [reflexivity | split; [assumption | split; [assumption |]]]);
    ((left; repeat split; reflexivity)
     || (right; repeat split; reflexivity)).
Qed.

Lemma chooseBatch_priced (market : Market.t) (b : BuildState.t)
    (upDone downDone : bool) (n : nat) :
  priced market (fst (Builder.chooseBatch random market b upDone downDone n)).
Proof.
  unfold Builder.chooseBatch, priced.
  repeat match goal with
         | |- context [let '(_, _) := ?p in _] => destruct p
         | |- context [if ?c then _ else _] => destruct c
         end; simpl; split; tauto.
Qed.

Lemma capToTargets_priced (market : Market.t) (b : BuildState.t)
    (batch : Builder.Batch) :
  priced market batch -> priced market (Builder.capToTargets market b batch).
Proof.
  unfold Builder.capToTargets, priced. intros [Hu Hd].
  repeat match goal with
         | |- context [if ?c then _ else _] => destruct c
         end; simpl; split; tauto.
Qed.

Lemma capToCapital_priced (market : Market.t) (capital : Q)
    (batch : Builder.Batch) :
  priced market batch ->
  priced market (Builder.capToCapital market capital batch).
Proof.
  unfold Builder.capToCapital, priced. intros [Hu Hd].
  destruct (JS.gt _ _); simpl; split; tauto.
Qed.

Lemma capToTargets_bound (market : Market.t) (b : BuildState.t)
    (batch : Builder.Batch) :
  Builder.tradeUp (Builder.capToTargets market b batch)
  <= BuildState.targetUp b - BuildState.investedUp b
  /\ Builder.tradeDown (Builder.capToTargets market b batch)
     <= BuildState.targetDown b - BuildState.investedDown b.
Proof.
  unfold Builder.capToTargets.
  destruct (JS.gt (Builder.tradeUp batch) _) eqn:Eu;
    destruct (JS.gt (Builder.tradeDown batch) _) eqn:Ed; simpl;
    try apply JSFacts.gt_false in Eu; try apply JSFacts.gt_false in Ed;
    split; lra.
Qed.

Lemma scale_shrinks (capital total x : Q) :
  capital < total -> 0 < x * (capital / total) ->
  x * (capital / total) <= capital -> x * (capital / total) <= x.
Proof.
  intros Hlt Hpos Hle.
  assert (Hcap : 0 < capital) by lra.
  assert (Htotal : 0 < total) by lra.
  assert (Hs : capital / total * total == capital) by (field; lra).
  set (s := capital / total) in *.
  assert (Hs0 : 0 < s).
  { destruct (Qlt_le_dec 0 s) as [H | H]; [exact H |]. exfalso. nra. }
  assert (Hs1 : s < 1).
  { destruct (Qlt_le_dec s 1) as [H | H]; [exact H |]. exfalso. nra. }
  assert (Hx : 0 < x).
  { destruct (Qlt_le_dec 0 x) as [H | H]; [exact H |]. exfalso. nra. }
  nra.
Qed.

Lemma capToCapital_bound (market : Market.t) (capital : Q)
    (batch : Builder.Batch) :
  let batch' := Builder.capToCapital market capital batch in
  (0 < Builder.tradeUp batch' -> Builder.tradeUp batch' <= capital ->
   Builder.tradeUp batch' <= Builder.tradeUp batch)
  /\ (0 < Builder.tradeDown batch' -> Builder.tradeDown batch' <= capital ->
      Builder.tradeDown batch' <= Builder.tradeDown batch).
Proof.
  unfold Builder.capToCapital.
  destruct (JS.gt _ _) eqn:E; simpl; [| split; intros; lra].
  apply JSFacts.gt_iff in E.
  split; intros Hpos Hle; now apply scale_shrinks.
Qed.

Lemma nextGap_bounds (n : nat) :
  (forall k, 0 <= random k < 1) ->
  2000 <= fst (Builder.nextGap random n) < 60000.
Proof.
  intros Hrandom. specialize (Hrandom (S n)).
  unfold Builder.nextGap.
  repeat match goal with
         | |- context [if ?c then _ else _] => destruct c
         end; simpl; lra.
Qed.

Lemma prepared_state (now : Q) (market : Market.t) (b : BuildState.t) :
  let b1 := Builder.rebalance now market (Builder.raiseTargets b) in
  BuildState.investedUp b1 = BuildState.investedUp b
  /\ BuildState.investedDown b1 = BuildState.investedDown b
  /\ (withinTargets b -> withinTargets b1)
  /\ (Builder.upComplete b && Builder.downComplete b = false ->
      BuildState.targetUp b1 = BuildState.targetUp b
      /\ BuildState.targetDown b1 = BuildState.targetDown b).
Proof.
  unfold Builder.rebalance, Builder.raiseTargets, withinTargets.
  destruct (Builder.upComplete b && Builder.downComplete b);
    destruct (JS.ge _ _); simpl;
    repeat match goal with |- _ /\ _ => split end;
    try reflexivity; try tauto; try discriminate; intros; lra.
Qed.

(** What the function does from the timing gate on. *)
Lemma tradeBatch_summary (now : Q) (g : Globals) (n : nat)
    (market : Market.t) (b : BuildState.t) :
  0 < Market.priceUp market -> 0 < Market.priceDown market ->
  JS.get (buildingPositions g) (Market.conditionId market) = Some b ->
  exists trades b',
    let g' :=
      fst (Builder.tradeBatch random now g n market
             (Market.conditionId market) b) in
    tradeLog g' = tradeLog g ++ trades
    /\ (List.length trades <= 2)%nat
    /\ currentCapital g'
       = fold_left Qminus (map trade_cost trades) (currentCapital g)
    /\ totalTrades g' = (totalTrades g + Z.of_nat (List.length trades))%Z
    /\ (0 <= currentCapital g -> 0 <= currentCapital g')
    /\ Forall (buildTrade market) trades
    /\ buildingPositions g'
       = JS.set (buildingPositions g) (Market.conditionId market) b'
    /\ (BuildState.investedUp b'
        = fold_left Qplus (costsOn UP trades) (BuildState.investedUp b)
        /\ BuildState.investedDown b'
           = fold_left Qplus (costsOn DOWN trades)
               (BuildState.investedDown b))
    /\ (withinTargets b -> withinTargets b')
    /\ (Builder.upComplete b && Builder.downComplete b = false ->
        BuildState.targetUp b' = BuildState.targetUp b
        /\ BuildState.targetDown b' = BuildState.targetDown b)
    /\ (now < BuildState.nextTradeTime b ->
        trades = [] /\ b' = b /\ g' = g)
    /\ (BuildState.nextTradeTime b <= now ->
        (forall k, 0 <= random k < 1) ->
        BuildState.lastTradeTime b' = now
        /\ now + 2000 <= BuildState.nextTradeTime b' < now + 60000)
    /\ positions g' = positions g
    /\ totalPnL g' = totalPnL g
    /\ totalCycles g' = totalCycles g
    /\ discoveredMarkets g' = discoveredMarkets g
    /\ processedCycles g' = processedCycles g
    /\ pendingDeletes g' = pendingDeletes g
    /\ In (map trade_side trades) [[]; [UP]; [DOWN]; [UP; DOWN]].
Proof.
  intros Hup Hdown Hget. unfold Builder.tradeBatch.
  destruct (JS.lt now (BuildState.nextTradeTime b)) eqn:Egate.
  - exists [], b. simpl. rewrite app_nil_r, (set_get_same _ _ _ Hget).
    apply JSFacts.lt_iff in Egate. simpl.
    repeat match goal with |- _ /\ _ => split end;
      try reflexivity; try lra; try (simpl; lia); try tauto;
      try (intros; repeat split; reflexivity); try (intros; exfalso; lra).
    constructor.
  - apply JSFacts.lt_false in Egate.
    destruct (prepared_state now market b) as (Hiu & Hid & Hwithin & Hkeep).
    set (b1 := Builder.rebalance now market (Builder.raiseTargets b)) in *.
    pose proof (chooseBatch_priced market b1 (Builder.upComplete b)
                  (Builder.downComplete b) n) as Hpriced.
    destruct (Builder.chooseBatch random market b1 (Builder.upComplete b)
                (Builder.downComplete b) n) as [batch0 n1].
    simpl in Hpriced.
    apply (capToTargets_priced market b1) in Hpriced.
    apply (capToCapital_priced market (currentCapital g)) in Hpriced.
    destruct (capToTargets_bound market b1 batch0) as [Hbu Hbd].
    destruct (capToCapital_bound market (currentCapital g)
                (Builder.capToTargets market b1 batch0)) as [Hcu Hcd].
    set (batch := Builder.capToCapital market (currentCapital g)
                    (Builder.capToTargets market b1 batch0)) in *.
    destruct (execute_summary (Market.conditionId market) market batch g b1)
      as (g2 & b2 & trades & Hexec & Hlog & Hlen & Hcap & Htrades & Hnonneg
          & Hall & Hup2 & Hdown2 & Hinv & Htu & Htd & Hpos & Hbuild & Hpnl
          & Hcycles & Hmarkets & Hprocessed & Hpending & Hsides).
    destruct (Builder.executeUp _ market batch (g, b1)) as [g1' b1'].
    destruct (Builder.executeDown _ market batch (g1', b1')) as [g2' b2'].
    injection Hexec as -> ->.
    match goal with
    | |- context [Builder.nextGap random ?k] =>
        pose proof (nextGap_bounds k) as Hgap;
        destruct (Builder.nextGap random k) as [gap n2]
    end.
    simpl in Hgap.
    exists trades, (Builder.withTiming b2 now (now + gap)). simpl.
    rewrite Hbuild.
    repeat match goal with |- _ /\ _ => split end;
      try assumption; try reflexivity.
    + eapply Forall_impl; [| exact Hall].
      intros trade (Hid' & Hshares & Hcost & [Hside | Hside]);
        destruct Hside as (Hs & Hp & Hsh & Hc);
        destruct Hpriced as [Hpu Hpd];
        unfold buildTrade; rewrite Hs, Hp, Hsh, Hc in *;
        repeat match goal with |- _ /\ _ => split end;
        try assumption; try reflexivity.
      * destruct Hpu as [Hpu | [Hpu | Hpu]]; [now left | now right |].
        exfalso. rewrite Hpu in Hcost. lra.
      * destruct Hpd as [Hpd | [Hpd | Hpd]]; [now left | now right |].
        exfalso. rewrite Hpd in Hcost. lra.
    + simpl. rewrite <- Hiu. apply Hinv.
    + simpl. rewrite <- Hid. apply Hinv.
    + intros Hb. specialize (Hwithin Hb).
      unfold withinTargets in *. simpl. rewrite Htu, Htd.
      destruct Hwithin as [[Hu0 Hu1] [Hd0 Hd1]].
      destruct Hup2 as [-> | (-> & Hp & Hc)];
        destruct Hdown2 as [-> | (-> & Hp' & Hc')];
        try specialize (Hcu Hp Hc); try specialize (Hcd Hp' Hc');
        repeat split; lra.
    + intros Hraise. specialize (Hkeep Hraise). simpl.
      rewrite Htu, Htd. exact Hkeep.
    + intros Hlt. exfalso. lra.
    + intros _ Hrandom. specialize (Hgap Hrandom).
      split; [reflexivity | lra].
Qed.

(** ** One call *)

Local Abbreviation build :=
  (Builder.buildPositionIncrementally PAPER_BTC_MAX_PER_MARKET
     PAPER_ETH_MAX_PER_MARKET random).

(** The three ways a call can go: nothing happens to the globals, the
    position is finalized, or the function reaches the timing gate with the
    state it found or created. *)
Lemma build_cases (now finalizedAt : Q) (rt : Runtime) (market : Market.t) :
  let g := globals rt in
  let key := Market.conditionId market in
  globals (build now finalizedAt rt market) = g
  \/ (exists b,
        JS.get (buildingPositions g) key = Some b
        /\ 0 < BuildState.investedUp b
        /\ 0 < BuildState.investedDown b
        /\ Builder.has (positions g) key = false
        /\ globals (build now finalizedAt rt market)
           = PaperBot.finalizePosition finalizedAt g market b)
  \/ (0 < Market.priceUp market
      /\ 0 < Market.priceDown market
      /\ exists b g0 n,
           globals (build now finalizedAt rt market)
           = fst (Builder.tradeBatch random now g0 n market key b)
           /\ ((JS.get (buildingPositions g) key = Some b /\ g0 = g)
               \/ (JS.get (buildingPositions g) key = None
                   /\ Builder.newBuildState PAPER_BTC_MAX_PER_MARKET
                        PAPER_ETH_MAX_PER_MARKET now (currentCapital g)
                        market (random (draws rt)) = Some b
                   /\ g0 = Builder.withBuildState g key b))).
Proof.
  intros g key. unfold Builder.buildPositionIncrementally.
  fold g. fold key.
  destruct (Builder.emptyString _ || Builder.emptyString _);
    [now left |].
  destruct (JS.falsy (Market.priceUp market)
            || JS.falsy (Market.priceDown market)
            || JS.le (Market.priceUp market) 0
            || JS.le (Market.priceDown market) 0) eqn:Eprices;
    [now left |].
  apply orb_false_elim in Eprices. destruct Eprices as [Eprices Hdown].
  apply orb_false_elim in Eprices. destruct Eprices as [_ Hup].
  apply JSFacts.le_false in Hup, Hdown.
  destruct (negb (JS.falsy (Market.endDate market))
            && JS.gt (Market.endDate market) 0
            && JS.lt (Builder.timeToExpiration now market)
                 PaperBot.EXPIRATION_WINDOW_MS).
  - destruct (JS.get (buildingPositions g) key) as [b |] eqn:Eget;
      [| now left].
    destruct (JS.gt (BuildState.investedUp b) 0
              && JS.gt (BuildState.investedDown b) 0
              && negb (Builder.has (positions g) key)) eqn:Eready;
      [| now left].
    apply andb_prop in Eready. destruct Eready as [Eready Hfree].
    apply andb_prop in Eready. destruct Eready as [Hiu Hid].
    apply JSFacts.gt_iff in Hiu, Hid. apply negb_true_iff in Hfree.
    right. left. exists b. simpl. now repeat split.
  - destruct (JS.get (buildingPositions g) key) as [b |] eqn:Eget.
    + right. right. split; [exact Hup | split; [exact Hdown |]].
      exists b, g, (draws rt).
      destruct (Builder.tradeBatch random now g (draws rt) market key b).
      split; [reflexivity | left; now split].
    + destruct (Builder.newBuildState _ _ now (currentCapital g) market
                  (random (draws rt))) as [b |] eqn:Enew; [| now left].
      right. right. split; [exact Hup | split; [exact Hdown |]].
      exists b, (Builder.withBuildState g key b), (S (draws rt)).
      destruct (Builder.tradeBatch random now _ (S (draws rt)) market key b).
      split; [reflexivity | right; now repeat split].
Qed.

Lemma newBuildState_facts (now capital r : Q) (market : Market.t)
    (b : BuildState.t) :
  Builder.newBuildState PAPER_BTC_MAX_PER_MARKET PAPER_ETH_MAX_PER_MARKET
    now capital market r = Some b ->
  let size := BuildState.targetUp b + BuildState.targetDown b in
  BuildState.investedUp b = 0
  /\ BuildState.investedDown b = 0
  /\ BuildState.nextTradeTime b = now
  /\ 10 <= size
  /\ size <= capital * (70 # 100)
  /\ size <= (if Builder.includes (Market.marketKey market) "BTC"
              then PAPER_BTC_MAX_PER_MARKET else PAPER_ETH_MAX_PER_MARKET)
  /\ (49 # 100) * size <= BuildState.targetUp b
  /\ BuildState.targetUp b <= (52 # 100) * size.
Proof.
  unfold Builder.newBuildState.
  set (cap := if Builder.includes (Market.marketKey market) "BTC"
              then PAPER_BTC_MAX_PER_MARKET else PAPER_ETH_MAX_PER_MARKET).
  destruct (JS.lt (JS.min cap (capital * (70 # 100))) 10) eqn:Esize;
    [discriminate |].
  apply JSFacts.lt_false in Esize.
  intros [= <-]. simpl.
  assert (Hmin : JS.min cap (capital * (70 # 100)) <= cap
                 /\ JS.min cap (capital * (70 # 100))
                    <= capital * (70 # 100)).
  { unfold JS.min. destruct (JS.le cap _) eqn:E.
    - apply JSFacts.le_iff in E. split; lra.
    - apply JSFacts.le_false in E. split; lra. }
  destruct Hmin as [Hcap Hcapital].
  set (size := JS.min cap (capital * (70 # 100))) in *.
  set (x := Builder.UP_BIAS
            + (r - (5 # 10)) * 2 * Builder.DIRECTION_VARIANCE).
  assert (Hratio : 49 # 100 <= Builder.max (49 # 100) (JS.min (52 # 100) x)
                   /\ Builder.max (49 # 100) (JS.min (52 # 100) x)
                      <= 52 # 100).
  { unfold Builder.max, JS.min.
    destruct (JS.le (52 # 100) x) eqn:E1.
    - destruct (JS.le (49 # 100) (52 # 100)) eqn:E2.
      + split; lra.
      + apply JSFacts.le_false in E2. lra.
    - apply JSFacts.le_false in E1.
      destruct (JS.le (49 # 100) x) eqn:E2.
      + apply JSFacts.le_iff in E2. split; lra.
      + split; lra. }
  destruct Hratio as [Hlo Hhi].
  set (ratio := Builder.max (49 # 100) (JS.min (52 # 100) x)) in *.
  repeat match goal with |- _ /\ _ => split end;
    try reflexivity; nra.
Qed.

(** X26.  Position building accounts for every dollar it spends.  A call
    logs at most two trades, an UP trade before a DOWN trade, each a
    purchase on the market at the market's price of its side, of at least
    half a share and for a positive cost, the cost having been computed as
    shares times price or the shares as cost divided by price.  The costs
    are subtracted from the capital one after the other, and the capital
    does not become negative if it was not; the trade counter grows by the
    number of trades; each cost is added to the invested amount of its side
    in the market's build state; P&L and cycle counter are untouched. *)
Theorem build_accounts_for_every_dollar :
  forall (now finalizedAt : Q) (rt : Runtime) (market : Market.t),
    let g := globals rt in
    let g' := globals (build now finalizedAt rt market) in
    let key := Market.conditionId market in
    exists trades,
      tradeLog g' = tradeLog g ++ trades
      /\ In (map trade_side trades) [[]; [UP]; [DOWN]; [UP; DOWN]]
      /\ Forall (buildTrade market) trades
      /\ currentCapital g'
         = fold_left Qminus (map trade_cost trades) (currentCapital g)
      /\ (0 <= currentCapital g -> 0 <= currentCapital g')
      /\ totalTrades g' = (totalTrades g + Z.of_nat (List.length trades))%Z
      /\ (forall b',
            JS.get (buildingPositions g') key = Some b' ->
            BuildState.investedUp b'
            = fold_left Qplus (costsOn UP trades)
                match JS.get (buildingPositions g) key with
                | Some b => BuildState.investedUp b
                | None => 0
                end
            /\ BuildState.investedDown b'
               = fold_left Qplus (costsOn DOWN trades)
                   match JS.get (buildingPositions g) key with
                   | Some b => BuildState.investedDown b
                   | None => 0
                   end)
      /\ totalPnL g' = totalPnL g
      /\ totalCycles g' = totalCycles g.
Proof.
  intros now finalizedAt rt market g g' key.
  destruct (build_cases now finalizedAt rt market)
    as [Hsame | [(b & Hget & _ & _ & Hfree & Hfinal)
                | (Hup & Hdown & b & g0 & n & Hbatch & Hstate)]];
    try fold g in Hsame; try fold g in Hget; try fold g in Hfree;
    try fold g in Hfinal; try fold g in Hstate; try fold g' in Hsame;
    try fold g' in Hfinal; try fold g' in Hbatch; try fold key in Hget;
    try fold key in Hbatch; try fold key in Hstate.
  - exists []. rewrite Hsame, app_nil_r. simpl.
    repeat match goal with |- _ /\ _ => split end;
      try reflexivity; try tauto; try apply Forall_nil; try lia.
    intros b' Hb'. now rewrite Hb'.
  - exists []. rewrite Hfinal, app_nil_r. simpl.
    repeat match goal with |- _ /\ _ => split end;
      try reflexivity; try tauto; try apply Forall_nil; try lia.
    intros b' Hb'. fold key in Hb'.
    rewrite get_delete, String.eqb_refl in Hb'. discriminate.
  - assert (Hsummary :
      exists b0 g1,
        JS.get (buildingPositions g1) key = Some b0
        /\ g' = fst (Builder.tradeBatch random now g1 n market key b0)
        /\ tradeLog g1 = tradeLog g
        /\ currentCapital g1 = currentCapital g
        /\ totalTrades g1 = totalTrades g
        /\ totalPnL g1 = totalPnL g
        /\ totalCycles g1 = totalCycles g
        /\ BuildState.investedUp b0
           = match JS.get (buildingPositions g) key with
             | Some b => BuildState.investedUp b
             | None => 0
             end
        /\ BuildState.investedDown b0
           = match JS.get (buildingPositions g) key with
             | Some b => BuildState.investedDown b
             | None => 0
             end).
    { destruct Hstate as [[Hget ->] | (Hget & Hnew & ->)].
      - exists b, g. rewrite Hget. now repeat split.
      - apply newBuildState_facts in Hnew.
        destruct Hnew as (Hiu & Hid & _).
        exists b, (Builder.withBuildState g key b). rewrite Hget.
        split; [apply JSFacts.get_set_same |]. now repeat split. }
    destruct Hsummary as (b0 & g1 & Hget1 & Hg' & Hlog1 & Hcap1 & Hcount1
                          & Hpnl1 & Hcycles1 & Hiu & Hid).
    destruct (tradeBatch_summary now g1 n market b0 Hup Hdown Hget1)
      as (trades & b' & Hlog & _ & Hcap & Hcount & Hnonneg & Hall & Hbuild
          & Hinv & _ & _ & _ & _ & _ & Hpnl & Hcycles & _ & _ & _ & Hsides).
    fold key in Hlog, Hcap, Hcount, Hnonneg, Hbuild, Hpnl, Hcycles.
    rewrite <- Hg' in *.
    exists trades.
    rewrite <- Hlog1, <- Hcap1, <- Hcount1, <- Hpnl1, <- Hcycles1,
      <- Hiu, <- Hid.
    repeat match goal with |- _ /\ _ => split end; try assumption.
    intros b'' Hb''. rewrite Hbuild, JSFacts.get_set_same in Hb''.
    injection Hb'' as <-. exact Hinv.
Qed.

Lemma has_set {A : Type} (m : list (string * A)) (k k' : string) (v : A) :
  Builder.has (JS.set m k v) k' = String.eqb k k' || Builder.has m k'.
Proof.
  unfold Builder.has.
  destruct (String.eqb_spec k k') as [-> | Hne].
  - now rewrite JSFacts.get_set_same.
  - rewrite get_set_other; [reflexivity | congruence].
Qed.

Lemma has_delete {A : Type} (m : list (string * A)) (k k' : string) :
  Builder.has (JS.delete m k) k' = negb (String.eqb k k') && Builder.has m k'.
Proof.
  unfold Builder.has. rewrite get_delete.
  now destruct (String.eqb k k').
Qed.

Lemma Forall_get {A : Type} (P : A -> Prop) (m : list (string * A))
    (k : string) (v : A) :
  Forall (fun entry => P (snd entry)) m -> JS.get m k = Some v -> P v.
Proof.
  induction 1 as [| [k0 w] m Hw _ IH]; simpl; [discriminate |].
  destruct (String.eqb k0 k); [now intros [= <-] | exact IH].
Qed.

Lemma Forall_set {A : Type} (P : A -> Prop) (m : list (string * A))
    (k : string) (v : A) :
  Forall (fun entry => P (snd entry)) m -> P v ->
  Forall (fun entry => P (snd entry)) (JS.set m k v).
Proof.
  intros Hm Hv. induction Hm as [| [k0 w] m Hw Hm IH]; simpl.
  - now repeat constructor.
  - destruct (String.eqb k0 k); constructor; assumption.
Qed.

Lemma Forall_delete {A : Type} (P : A -> Prop) (m : list (string * A))
    (k : string) :
  Forall (fun entry => P (snd entry)) m ->
  Forall (fun entry => P (snd entry)) (JS.delete m k).
Proof.
  intros Hm. apply Forall_forall. intros entry Hin.
  apply filter_In in Hin. destruct Hin as [Hin _].
  revert entry Hin. now apply Forall_forall.
Qed.

(** X27.  Building never overshoots: if every build state has invested on
    either side at least nothing and at most its target, the same holds
    after a call, for the state traded on, for a state created and for all
    others. *)
Theorem build_stays_within_targets :
  forall (now finalizedAt : Q) (rt : Runtime) (market : Market.t),
    Forall (fun entry => withinTargets (snd entry))
      (buildingPositions (globals rt)) ->
    Forall (fun entry => withinTargets (snd entry))
      (buildingPositions (globals (build now finalizedAt rt market))).
Proof.
  intros now finalizedAt rt market Hall.
  destruct (build_cases now finalizedAt rt market)
    as [-> | [(b & Hget & _ & _ & Hfree & ->)
             | (Hup & Hdown & b & g0 & n & -> & Hstate)]].
  - exact Hall.
  - simpl. now apply Forall_delete.
  - destruct Hstate as [[Hget ->] | (Hget & Hnew & ->)].
    + destruct (tradeBatch_summary now (globals rt) n market b Hup Hdown
                  Hget)
        as (trades & b' & _ & _ & _ & _ & _ & _ & -> & _ & Hwithin & _).
      apply Forall_set; [exact Hall |].
      apply Hwithin. exact (Forall_get _ _ _ _ Hall Hget).
    + apply newBuildState_facts in Hnew.
      destruct Hnew as (Hiu & Hid & _ & Hsize & _ & _ & Hlo & Hhi).
      destruct (tradeBatch_summary now
                  (Builder.withBuildState (globals rt)
                     (Market.conditionId market) b)
                  n market b Hup Hdown (JSFacts.get_set_same _ _ _))
        as (trades & b' & _ & _ & _ & _ & _ & _ & -> & _ & Hwithin & _).
      assert (Hb : withinTargets b).
      { unfold withinTargets. rewrite Hiu, Hid. repeat split; lra. }
      simpl. apply Forall_set; [| exact (Hwithin Hb)].
      apply Forall_set; assumption.
Qed.

(** X28.  Batches are paced.  A call made before the build state's next
    trade time logs no trade and spends nothing; and when a call does log a
    trade, with [Math.random()] in [0, 1), the state's next trade time is
    at least 2 and less than 60 seconds after the call. *)
Theorem build_paces_batches :
  forall (now finalizedAt : Q) (rt : Runtime) (market : Market.t),
    (forall k, 0 <= random k < 1) ->
    let g := globals rt in
    let g' := globals (build now finalizedAt rt market) in
    let key := Market.conditionId market in
    (forall b,
       JS.get (buildingPositions g) key = Some b ->
       now < BuildState.nextTradeTime b ->
       tradeLog g' = tradeLog g /\ currentCapital g' = currentCapital g)
    /\ (tradeLog g' <> tradeLog g ->
        exists b',
          JS.get (buildingPositions g') key = Some b'
          /\ BuildState.lastTradeTime b' = now
          /\ now + 2000 <= BuildState.nextTradeTime b' < now + 60000).
Proof.
  intros now finalizedAt rt market Hrandom g g' key.
  destruct (build_cases now finalizedAt rt market)
    as [Hsame | [(b & Hget & _ & _ & Hfree & Hfinal)
                | (Hup & Hdown & b & g0 & n & Hbatch & Hstate)]];
    fold g in Hsame || fold g in Hget, Hfree, Hfinal
    || fold g in Hstate; fold g' in Hsame || fold g' in Hfinal
    || fold g' in Hbatch; try fold key in Hget; try fold key in Hbatch;
    try fold key in Hstate.
  - rewrite Hsame. split; [now split | congruence].
  - rewrite Hfinal. simpl. split; [now split | congruence].
  - assert (Hsummary :
      exists b0 g1,
        JS.get (buildingPositions g1) key = Some b0
        /\ g' = fst (Builder.tradeBatch random now g1 n market key b0)
        /\ tradeLog g1 = tradeLog g
        /\ (forall b1, JS.get (buildingPositions g) key = Some b1 ->
              b1 = b0 /\ g1 = g)).
    { destruct Hstate as [[Hget ->] | (Hget & Hnew & ->)].
      - exists b, g. repeat split; try assumption; congruence.
      - exists b, (Builder.withBuildState g key b).
        split; [apply JSFacts.get_set_same |].
        repeat split; try assumption; congruence. }
    destruct Hsummary as (b0 & g1 & Hget1 & Hg' & Hlog1 & Hfound).
    destruct (tradeBatch_summary now g1 n market b0 Hup Hdown Hget1)
      as (trades & b' & Hlog & _ & _ & _ & _ & _ & Hbuild & _ & _ & _
          & Hwait & Hpace & _).
    fold key in Hlog, Hbuild, Hwait, Hpace. rewrite <- Hg' in *.
    split.
    + intros b1 Hb1 Hlt. destruct (Hfound b1 Hb1) as [-> ->].
      destruct (Hwait Hlt) as (_ & _ & ->). now split.
    + intros Hchanged. exists b'. rewrite Hbuild.
      split; [apply JSFacts.get_set_same |].
      apply Hpace; [| exact Hrandom].
      destruct (Qlt_le_dec now (BuildState.nextTradeTime b0)) as [Hlt | Hle];
        [| exact Hle].
      destruct (Hwait Hlt) as (-> & _ & _).
      rewrite app_nil_r in Hlog. congruence.
Qed.

(** X29.  How a build starts.  For a market without a build state, a call
    creates none when the per-market maximum or 70% of the capital is below
    $10; a state it does create targets, on both sides together, at least
    $10 and at most the per-market maximum and 70% of the capital, with 49%
    to 52% of that on UP, whatever [Math.random()] returns. *)
Theorem build_start_is_sized :
  forall (now finalizedAt : Q) (rt : Runtime) (market : Market.t),
    let g := globals rt in
    let g' := globals (build now finalizedAt rt market) in
    let key := Market.conditionId market in
    let maxPerMarket :=
      if Builder.includes (Market.marketKey market) "BTC"
      then PAPER_BTC_MAX_PER_MARKET else PAPER_ETH_MAX_PER_MARKET in
    JS.get (buildingPositions g) key = None ->
    (maxPerMarket < 10 \/ currentCapital g * (70 # 100) < 10 -> g' = g)
    /\ forall b',
         JS.get (buildingPositions g') key = Some b' ->
         let size := BuildState.targetUp b' + BuildState.targetDown b' in
         10 <= size
         /\ size <= maxPerMarket
         /\ size <= currentCapital g * (70 # 100)
         /\ (49 # 100) * size <= BuildState.targetUp b'
         /\ BuildState.targetUp b' <= (52 # 100) * size.
Proof.
  intros now finalizedAt rt market g g' key maxPerMarket Hnone.
  destruct (build_cases now finalizedAt rt market)
    as [Hsame | [(b & Hget & _) | (Hup & Hdown & b & g0 & n & Hbatch
                                   & Hstate)]];
    try fold g in Hsame; try fold g in Hget; try fold g in Hstate;
    try fold g' in Hsame; try fold g' in Hbatch;
    try fold key in Hget; try fold key in Hbatch; try fold key in Hstate.
  - rewrite Hsame. split; [reflexivity |]. intros b' Hb'. congruence.
  - congruence.
  - destruct Hstate as [[Hget _] | (_ & Hnew & ->)]; [congruence |].
    apply newBuildState_facts in Hnew. fold maxPerMarket in Hnew.
    destruct Hnew as (Hiu & Hid & _ & Hsize & Hcapital & Hmax & Hlo & Hhi).
    split; [intros [Hsmall | Hsmall]; exfalso; lra |].
    destruct (tradeBatch_summary now (Builder.withBuildState g key b) n
                market b Hup Hdown (JSFacts.get_set_same _ _ _))
      as (trades & b1 & _ & _ & _ & _ & _ & _ & Hbuild & _ & _ & Hkeep & _).
    fold key in Hbuild. rewrite <- Hbatch in Hbuild.
    intros b' Hb'. rewrite Hbuild, JSFacts.get_set_same in Hb'.
    injection Hb' as <-.
    destruct Hkeep as [-> ->].
    + unfold Builder.upComplete. rewrite Hiu.
      replace (JS.ge 0 (BuildState.targetUp b * (98 # 100))) with false;
        [reflexivity |].
      symmetry. apply JSFacts.ge_false. lra.
    + repeat split; assumption.
Qed.

(** ** The loop over the discovered markets *)

Variable PAPER_MIN_TRADE : Q.
Variable PAPER_MAX_TRADE : Q.
Variable Number_toString : Q -> string.

Lemma arbitrage_keeps_maps (now : Q) (g : Globals)
    (position : MarketPosition) (market : Market.t) :
  let g' :=
    fst (PaperBot.executeArbitrageTrade PAPER_MIN_TRADE PAPER_MAX_TRADE
           Number_toString now g position market) in
  positions g' = positions g
  /\ buildingPositions g' = buildingPositions g.
Proof.
  unfold PaperBot.executeArbitrageTrade.
  repeat match goal with
         | |- context [match ?c with _ => _ end] => destruct c
         end; simpl; now split.
Qed.

(** X30.  A market is never being built while it holds a position: if that
    is so for every market before the loop body runs on an entry of
    [discoveredMarkets] whose key is the market's own condition id, it is so
    afterwards. *)
Theorem processMarket_keeps_exclusive :
  forall (now calledAt finalizedAt : Q) (rt : Runtime) (conditionId : string)
         (market : Market.t),
    Market.conditionId market = conditionId ->
    exclusive (globals rt) ->
    exclusive
      (globals
         (Builder.processMarket PAPER_BTC_MAX_PER_MARKET
            PAPER_ETH_MAX_PER_MARKET random PAPER_MIN_TRADE PAPER_MAX_TRADE
            Number_toString now calledAt finalizedAt rt
            (conditionId, market))).
Proof.
  intros now calledAt finalizedAt rt conditionId market <- Hexcl.
  assert (Hbuild :
    Builder.has (buildingPositions (globals rt)) (Market.conditionId market)
    = true
    \/ Builder.has (positions (globals rt)) (Market.conditionId market)
       = false ->
    exclusive (globals (build calledAt finalizedAt rt market))).
  { intros Hfree.
    assert (Hkey : Builder.has (positions (globals rt))
                     (Market.conditionId market) = false)
      by (destruct Hfree as [H | H]; [now apply Hexcl | exact H]).
    destruct (build_cases calledAt finalizedAt rt market)
      as [-> | [(b & Hget & _ & _ & _ & ->)
               | (Hup & Hdown & b & g0 & n & -> & Hstate)]];
      [exact Hexcl | |].
    - intros k. simpl.  rewrite has_delete, has_set.
      destruct (String.eqb (Market.conditionId market) k); simpl;
        [discriminate |].
      apply Hexcl.
    - assert (Hg0 :
        JS.get (buildingPositions g0) (Market.conditionId market) = Some b
        /\ positions g0 = positions (globals rt)
        /\ forall k, Builder.has (buildingPositions g0) k = true ->
                     k = (Market.conditionId market)
                     \/ Builder.has (buildingPositions (globals rt)) k
                        = true).
      { destruct Hstate as [[Hget ->] | (Hget & Hnew & ->)].
        - repeat split; auto.
        - simpl. split; [apply JSFacts.get_set_same |].
          split; [reflexivity |]. intros k.  rewrite has_set.
          destruct (String.eqb_spec (Market.conditionId market) k); auto. }
      destruct Hg0 as (Hget0 & Hpos0 & Hkeys0).
      destruct (tradeBatch_summary calledAt g0 n market b Hup Hdown Hget0)
        as (trades & b' & _ & _ & _ & _ & _ & _ & Hbuilding & _ & _ & _ & _
            & _ & Hpos & _).
      intros k. rewrite Hbuilding, Hpos, Hpos0, has_set.
      destruct (String.eqb_spec (Market.conditionId market) k)
        as [<- | Hne]; simpl.
      + intros _. exact Hkey.
      + intros Hk. destruct (Hkeys0 k Hk) as [-> | Hold];
          [contradiction | now apply Hexcl]. }
  unfold Builder.processMarket.
  destruct (negb (JS.falsy (Market.endDate market))
            && JS.gt (Market.endDate market) 0
            && JS.le (Market.endDate market) now); [exact Hexcl |].
  destruct (negb (negb (Builder.emptyString (Market.assetUp market))
                  && negb (Builder.emptyString (Market.assetDown market))));
    [exact Hexcl |].
  
  destruct (Builder.has (buildingPositions (globals rt))
              (Market.conditionId market)) eqn:Ebuilding;
    [apply Hbuild; now left |].
  destruct (JS.get (positions (globals rt)) (Market.conditionId market))
    as [position |] eqn:Eposition.
  - destruct (negb (hasArbitragePosition position)
              && negb (isSettled position)); [| exact Hexcl].
    destruct (arbitrage_keeps_maps calledAt (globals rt) position market)
      as [Hpos Hbuilding].
    destruct (PaperBot.executeArbitrageTrade _ _ _ calledAt (globals rt)
                position market) as [g1 position1].
    simpl in *. intros k. simpl. rewrite Hbuilding, Hpos, has_set.
    intros Hk.
    destruct (String.eqb_spec (Market.conditionId market) k) as [<- | Hne];
      [congruence | now apply Hexcl].
  - apply Hbuild. right. unfold Builder.has. now rewrite Eposition.
Qed.

End BuildProperties.

(** ** Instances of the building properties *)

(** The call proposes 2 UP shares at 0.97; the trade is capped at the
    $1.50 that remain of the UP target, which is reached exactly. *)
Lemma build_stays_within_targets_witness :
  let g' :=
    globals
      (Builder.buildPositionIncrementally 2400 1800 steady_random
         1765999000000 1765999000000
         (runtime_example nearly_built_globals_example) market_example) in
  Forall (fun entry => withinTargets (snd entry)) (buildingPositions g')
  /\ List.length (tradeLog g') = 1%nat
  /\ exists b',
       JS.get (buildingPositions g') "0xabc" = Some b'
       /\ BuildState.investedUp b' == BuildState.targetUp b'.
Proof.
  intro g'. split.
  - apply build_stays_within_targets.
    repeat constructor; vm_compute; discriminate.
  - split; [reflexivity |].
    eexists. split; [vm_compute; reflexivity | vm_compute; reflexivity].
Defined.

Lemma build_paces_batches_witness :
  let g' :=
    globals
      (Builder.buildPositionIncrementally 2400 1800 steady_random
         1765999000000 1765999000000 (runtime_example (globals_example 1000))
         market_example) in
  exists b',
    JS.get (buildingPositions g') "0xabc" = Some b'
    /\ BuildState.lastTradeTime b' = 1765999000000
    /\ 1765999000000 + 2000 <= BuildState.nextTradeTime b'
       < 1765999000000 + 60000.
Proof.
  intro g'.
  apply (build_paces_batches 2400 1800 steady_random 1765999000000
           1765999000000 (runtime_example (globals_example 1000))
           market_example).
  - intros k. split; vm_compute; [discriminate | reflexivity].
  - vm_compute. discriminate.
Defined.

Lemma build_start_is_sized_witness :
  globals
    (Builder.buildPositionIncrementally 2400 1800 steady_random
       1765999000000 1765999000000 (runtime_example (globals_example 10))
       market_example)
  = globals_example 10.
Proof.
  apply (build_start_is_sized 2400 1800 steady_random 1765999000000
           1765999000000 (runtime_example (globals_example 10))
           market_example eq_refl).
  right. vm_compute. reflexivity.
Defined.

Lemma processMarket_keeps_exclusive_witness :
  exclusive
    (globals
       (Builder.processMarket 2400 1800 steady_random (1 # 2) 15 showInteger
          1765999000000 1765999000000 1765999000000
          (runtime_example (globals_example 1000))
          ("0xabc"%string, market_example))).
Proof.
  apply processMarket_keeps_exclusive; [reflexivity |].
  intros key Hkey. vm_compute in Hkey. discriminate.
Defined.

(** * Arbitrage cycles across the monitor's operations *)

Section SessionProperties.

Variable PAPER_BTC_MAX_PER_MARKET : Q.
Variable PAPER_ETH_MAX_PER_MARKET : Q.
Variable random : nat -> Q.
Variable PAPER_MIN_TRADE : Q.
Variable PAPER_MAX_TRADE : Q.
Variable Number_toString : Q -> string.

Local Abbreviation arbitrage :=
  (PaperBot.executeArbitrageTrade PAPER_MIN_TRADE PAPER_MAX_TRADE
     Number_toString).
Local Abbreviation keyOf := (PaperBot.cycleKey Number_toString).
Local Abbreviation run :=
  (Session.run PAPER_BTC_MAX_PER_MARKET PAPER_ETH_MAX_PER_MARKET random
     PAPER_MIN_TRADE PAPER_MAX_TRADE Number_toString).
Local Abbreviation runAll :=
  (Session.runAll PAPER_BTC_MAX_PER_MARKET PAPER_ETH_MAX_PER_MARKET random
     PAPER_MIN_TRADE PAPER_MAX_TRADE Number_toString).
Local Abbreviation unpruned :=
  (Session.unpruned PAPER_BTC_MAX_PER_MARKET PAPER_ETH_MAX_PER_MARKET random
     PAPER_MIN_TRADE PAPER_MAX_TRADE Number_toString).

Lemma build_keeps_cycles (now finalizedAt : Q) (rt : Runtime)
    (market : Market.t) :
  processedCycles
    (globals
       (Builder.buildPositionIncrementally PAPER_BTC_MAX_PER_MARKET
          PAPER_ETH_MAX_PER_MARKET random now finalizedAt rt market))
  = processedCycles (globals rt).
Proof.
  destruct (build_cases PAPER_BTC_MAX_PER_MARKET PAPER_ETH_MAX_PER_MARKET
              random now finalizedAt rt market)
    as [-> | [(b & _ & _ & _ & _ & ->)
             | (Hup & Hdown & b & g0 & n & -> & Hstate)]];
    [reflexivity | reflexivity |].
  assert (Hg0 :
    JS.get (buildingPositions g0) (Market.conditionId market) = Some b
    /\ processedCycles g0 = processedCycles (globals rt)).
  { destruct Hstate as [[Hget ->] | (_ & _ & ->)].
    - now split.
    - split; [apply JSFacts.get_set_same | reflexivity]. }
  destruct Hg0 as [Hget <-].
  destruct (tradeBatch_summary random now g0 n market b Hup Hdown Hget)
    as (trades & b' & _ & _ & _ & _ & _ & _ & _ & _ & _ & _ & _ & _ & _ & _
        & _ & _ & Hcycles & _).
  exact Hcycles.
Qed.

Lemma processMarket_keeps_cycles (now calledAt finalizedAt : Q)
    (rt : Runtime) (entry : string * Market.t) (k : string) :
  In k (processedCycles (globals rt)) ->
  In k (processedCycles
          (globals
             (Builder.processMarket PAPER_BTC_MAX_PER_MARKET
                PAPER_ETH_MAX_PER_MARKET random PAPER_MIN_TRADE
                PAPER_MAX_TRADE Number_toString now calledAt finalizedAt rt
                entry))).
Proof.
  intro Hin. destruct entry as [conditionId market].
  unfold Builder.processMarket.
  destruct (_ && _ && _); [exact Hin |].
  destruct (negb _); [exact Hin |].
  destruct (Builder.has _ _); [now rewrite build_keeps_cycles |].
  destruct (JS.get _ _) as [position |];
    [| now rewrite build_keeps_cycles].
  destruct (_ && _); [| exact Hin].
  pose proof (arbitrage_keeps_cycles PAPER_MIN_TRADE PAPER_MAX_TRADE
                Number_toString calledAt (globals rt) position market k Hin)
    as Hkept.
  destruct (PaperBot.executeArbitrageTrade _ _ _ calledAt (globals rt)
              position market) as [g' position'].
  exact Hkept.
Qed.

(** Keys leave [processedCycles] only in a [settlePositions] that finds
    more than 1000 of them. *)
Lemma run_keeps_cycles (rt : Runtime) (op : Session.Operation) (k : string) :
  unpruned rt [op] = true ->
  In k (processedCycles (globals rt)) ->
  In k (processedCycles (globals (run rt op))).
Proof.
  intros Hsize Hin.
  destruct op as [markets ids | now book | now proactive
                 | now calledAt finalizedAt entry | now book |
                 | now position market | position upWon downWon
                 | now market buildState | now finalizedAt market];
    cbn [Session.run Session.onGlobals globals].
  - exact Hin.
  - exact Hin.
  - unfold Monitor.cleanupExpiredMarketsAndPositions.
    destruct (Monitor.cleanupPositions _ _ _ _).
    destruct (Monitor.cleanupBuilding _ _ _ _). exact Hin.
  - now apply processMarket_keeps_cycles.
  - cbn [Session.unpruned] in Hsize. rewrite andb_true_r in Hsize.
    apply Nat.leb_le in Hsize.
    now rewrite settlePositions_cycles.
  - unfold Session.firePendingDelete.
    now destruct (pendingDeletes (globals rt)).
  - now apply arbitrage_keeps_cycles.
  - now rewrite settlePosition_cycles.
  - exact Hin.
  - now rewrite build_keeps_cycles.
Qed.

Lemma runAll_keeps_cycles (ops : list Session.Operation) (k : string) :
  forall rt,
    unpruned rt ops = true ->
    In k (processedCycles (globals rt)) ->
    In k (processedCycles (globals (runAll rt ops))).
Proof.
  induction ops as [| op ops IH]; intros rt Hsize Hin; [exact Hin |].
  cbn [Session.unpruned] in Hsize. apply andb_prop in Hsize.
  destruct Hsize as [Hop Hrest].
  cbn [Session.runAll fold_left]. apply IH; [exact Hrest |].
  apply run_keeps_cycles; [| exact Hin].
  cbn [Session.unpruned]. now rewrite Hop.
Qed.

(** C2 (amended).  While its key stays in [processedCycles], a cycle is
    closed: an invocation that purchases records the key of its market and
    expiry-minute bucket; and once an invocation has recorded the key, every
    later invocation for the same market and bucket, straight away or after
    any operations of the monitor among which no [settlePositions] finds
    more than 1000 keys in the set, buys nothing: the globals, capital and
    trade log among them, and the position it is given, its arbitrage fields
    among them, come back unchanged. *)
Theorem arbitrage_once_per_cycle_until_pruned :
  forall (now0 : Q) (rt0 : Runtime) (position0 : MarketPosition)
         (market0 : Market.t) (ops : list Session.Operation)
         (now : Q) (position : MarketPosition) (market : Market.t),
    let rt1 := run rt0 (Session.Arbitrage now0 position0 market0) in
    (tradeLog (globals rt1) <> tradeLog (globals rt0) ->
     In (keyOf position0) (processedCycles (globals rt1)))
    /\ (In (keyOf position0) (processedCycles (globals rt1)) ->
        unpruned rt1 ops = true ->
        conditionId position = conditionId position0 ->
        Qfloor (endDate position / 60000)
        = Qfloor (endDate position0 / 60000) ->
        let g := globals (runAll rt1 ops) in
        arbitrage now g position market = (g, position)
        /\ currentCapital (fst (arbitrage now g position market))
           = currentCapital g
        /\ tradeLog (fst (arbitrage now g position market)) = tradeLog g
        /\ arbSharesUp (snd (arbitrage now g position market))
           = arbSharesUp position
        /\ arbSharesDown (snd (arbitrage now g position market))
           = arbSharesDown position
        /\ arbCostUp (snd (arbitrage now g position market))
           = arbCostUp position
        /\ arbCostDown (snd (arbitrage now g position market))
           = arbCostDown position).
Proof.
  intros now0 rt0 position0 market0 ops now position market rt1. split.
  - subst rt1. cbn [Session.run Session.onGlobals globals].
    destruct (arbitrage_cases PAPER_MIN_TRADE PAPER_MAX_TRADE Number_toString
                now0 (globals rt0) position0 market0)
      as [(Hsame & _) | (winner & loserPrice & _ & _ & _ & _ & ->)].
    + intro Hchanged. now rewrite Hsame in Hchanged.
    + intros _. cbn [fst PaperBot.payTrade PaperBot.markCycle processedCycles].
      apply JSFacts.In_add. now left.
  - intros Hrecorded Hsize Hid Hbucket g.
    assert (Hnoop : arbitrage now g position market = (g, position)).
    { apply recorded_cycle_blocks.
      rewrite (cycleKey_same_bucket Number_toString position0 position Hid
                 Hbucket).
      now apply runAll_keeps_cycles. }
    rewrite Hnoop. repeat split.
Qed.

(** C10 (amended).  A clear winner met with capital below the minimum trade
    size records the cycle key and buys nothing; after that, and after any
    operations of the monitor among which no [settlePositions] finds more
    than 1000 keys in [processedCycles], no invocation for that market and
    bucket buys, whatever the capital has become. *)
Theorem arbitrage_underfunded_cycle_spent_until_pruned :
  forall (now : Q) (rt : Runtime) (position : MarketPosition)
         (market : Market.t) (winner : Side) (loserPrice : Q),
    hasArbitragePosition position = false ->
    isSettled position = false ->
    10000 <= PaperBot.timeToExpiration now position ->
    PaperBot.timeToExpiration now position <= PaperBot.EXPIRATION_WINDOW_MS ->
    PaperBot.clearWinner (Market.priceUp market) (Market.priceDown market)
    = Some (winner, loserPrice) ->
    ~ In (keyOf position) (processedCycles (globals rt)) ->
    JS.min (currentCapital (globals rt)) PAPER_MAX_TRADE < PAPER_MIN_TRADE ->
    let attempt := arbitrage now (globals rt) position market in
    let rt1 := run rt (Session.Arbitrage now position market) in
    snd attempt = position
    /\ currentCapital (globals rt1) = currentCapital (globals rt)
    /\ tradeLog (globals rt1) = tradeLog (globals rt)
    /\ In (keyOf position) (processedCycles (globals rt1))
    /\ forall (ops : list Session.Operation) (now' : Q)
              (position' : MarketPosition) (market' : Market.t),
         unpruned rt1 ops = true ->
         conditionId position' = conditionId position ->
         Qfloor (endDate position' / 60000)
         = Qfloor (endDate position / 60000) ->
         let g' := globals (runAll rt1 ops) in
         arbitrage now' g' position' market' = (g', position').
Proof.
  intros now rt position market winner loserPrice
         Hnoarb Hopen Hlow Hhigh Hclear Hfresh Hpoor attempt rt1.
  assert (Hattempt :
            attempt
            = (PaperBot.markCycle (globals rt) (keyOf position), position)).
  { subst attempt. unfold PaperBot.executeArbitrageTrade.
    rewrite Hnoarb, Hopen. simpl.
    assert (E1 : JS.gt (PaperBot.timeToExpiration now position)
                   PaperBot.EXPIRATION_WINDOW_MS = false)
      by now apply JSFacts.gt_false.
    assert (E2 : JS.lt (PaperBot.timeToExpiration now position) 10000
                 = false) by now apply JSFacts.lt_false.
    rewrite E1, E2, Hclear. simpl.
    destruct (JS.has (processedCycles (globals rt)) (keyOf position))
      eqn:Ehas.
    - apply JSFacts.has_In in Ehas. contradiction.
    - assert (E3 : JS.lt (JS.min (currentCapital (globals rt))
                            PAPER_MAX_TRADE) PAPER_MIN_TRADE = true)
        by now apply JSFacts.lt_iff.
      now rewrite E3. }
  assert (Hrt1 : globals rt1
                 = PaperBot.markCycle (globals rt) (keyOf position)).
  { subst rt1. cbn [Session.run Session.onGlobals globals].
    change (fst attempt
            = PaperBot.markCycle (globals rt) (keyOf position)).
    now rewrite Hattempt. }
  assert (Hkey : In (keyOf position) (processedCycles (globals rt1))).
  { rewrite Hrt1. simpl. apply JSFacts.In_add. now left. }
  split; [now rewrite Hattempt |].
  split; [now rewrite Hrt1 |].
  split; [now rewrite Hrt1 |].
  split; [exact Hkey |].
  intros ops now' position' market' Hsize Hid Hbucket g'.
  apply recorded_cycle_blocks.
  rewrite (cycleKey_same_bucket Number_toString position position' Hid
             Hbucket).
  now apply runAll_keeps_cycles.
Qed.

End SessionProperties.

(** ** Instances: a cycle stays closed, and is opened again by the prune *)

(** The first attempt buys and records the key; after a quiet stretch a
    fresh attempt on the unmarked position of the same cycle buys
    nothing. *)
Lemma arbitrage_once_per_cycle_until_pruned_witness :
  let rt1 :=
    Session.run 2400 1800 steady_random (1 # 2) 15 showInteger
      (runtime_example (globals_example 9000))
      (Session.Arbitrage 1765999939000 position_example market_example) in
  let g :=
    globals
      (Session.runAll 2400 1800 steady_random (1 # 2) 15 showInteger rt1
         quiet_operations_example) in
  tradeLog (globals rt1) <> []
  /\ PaperBot.executeArbitrageTrade (1 # 2) 15 showInteger 1765999940000 g
       position_example market_example
     = (g, position_example).
Proof.
  intros rt1 g. split; [vm_compute; discriminate |].
  apply (proj2 (arbitrage_once_per_cycle_until_pruned 2400 1800 steady_random
                  (1 # 2) 15 showInteger 1765999939000
                  (runtime_example (globals_example 9000)) position_example
                  market_example quiet_operations_example 1765999940000
                  position_example market_example)).
  - vm_compute. left. reflexivity.
  - vm_compute. reflexivity.
  - reflexivity.
  - reflexivity.
Defined.

(** The same cycle after the prune.  Both attempts are made on the
    unmarked position of market 0xabc, 61 and 60 seconds before its expiry;
    between them, attempts on a thousand other markets record their keys
    and a [settlePositions], finding 1001 keys, deletes the 501 oldest.
    Both attempts buy. *)
Lemma recorded_cycle_reopened_counterexample :
  let rt1 :=
    Session.run 2400 1800 steady_random (1 # 2) 15 showInteger
      (runtime_example (globals_example 20000))
      (Session.Arbitrage 1765999939000 position_example market_example) in
  let rt2 :=
    Session.runAll 2400 1800 steady_random (1 # 2) 15 showInteger rt1
      (crowd_example 1765999939000
       ++ [Session.SettlePositions 1765999939500 noBook]) in
  let key := PaperBot.cycleKey showInteger position_example in
  let again :=
    PaperBot.executeArbitrageTrade (1 # 2) 15 showInteger 1765999940000
      (globals rt2) position_example market_example in
  List.length (tradeLog (globals rt1)) = 1%nat
  /\ JS.has (processedCycles (globals rt1)) key = true
  /\ JS.has (processedCycles (globals rt2)) key = false
  /\ List.length (tradeLog (fst again))
     = S (List.length (tradeLog (globals rt2)))
  /\ currentCapital (fst again) == currentCapital (globals rt2) - 15
  /\ arbSharesDown (snd again) == 500
  /\ arbCostDown (snd again) == 15.
Proof.
  vm_compute. repeat split; reflexivity.
Qed.

(** With 0.20 of capital the attempt only records the key; after a quiet
    stretch, with the capital back above the minimum, the same cycle is
    still refused. *)
Lemma arbitrage_underfunded_cycle_spent_until_pruned_witness :
  let rt1 :=
    Session.run 2400 1800 steady_random (1 # 2) 15 showInteger
      (runtime_example (globals_example (1 # 5)))
      (Session.Arbitrage 1765999939000 position_example market_example) in
  let g' :=
    globals
      (Session.runAll 2400 1800 steady_random (1 # 2) 15 showInteger rt1
         quiet_operations_example) in
  tradeLog (globals rt1) = []
  /\ 1 # 2 <= currentCapital g'
  /\ PaperBot.executeArbitrageTrade (1 # 2) 15 showInteger 1765999940000 g'
       position_example market_example
     = (g', position_example).
Proof.
  intros rt1 g'.
  destruct (arbitrage_underfunded_cycle_spent_until_pruned 2400 1800
              steady_random (1 # 2) 15 showInteger 1765999939000
              (runtime_example (globals_example (1 # 5))) position_example
              market_example UP (3 # 100))
    as (_ & _ & Hlog & _ & Hspent).
  - reflexivity.
  - reflexivity.
  - vm_compute. discriminate.
  - vm_compute. discriminate.
  - reflexivity.
  - simpl. tauto.
  - reflexivity.
  - split; [exact Hlog |].
    split; [vm_compute; discriminate |].
    apply Hspent; [vm_compute; reflexivity | reflexivity | reflexivity].
Defined.

(** The underfunded cycle after the prune: the attempt with 0.20 of capital
    buys nothing and records the key; attempts on a thousand other markets
    record theirs; a [settlePositions] settles the due position of an older
    market, which brings the capital to 1200.20, and, finding 1001 keys,
    deletes the 501 oldest; one second after the first attempt the same
    position is bought for. *)
Lemma underfunded_cycle_reopened_counterexample :
  let rt1 :=
    Session.run 2400 1800 steady_random (1 # 2) 15 showInteger
      (runtime_example underfunded_globals_example)
      (Session.Arbitrage 1765999939000 position_example market_example) in
  let rt2 :=
    Session.runAll 2400 1800 steady_random (1 # 2) 15 showInteger rt1
      (crowd_example 1765999939000
       ++ [Session.SettlePositions 1765999939500 noBook]) in
  let key := PaperBot.cycleKey showInteger position_example in
  let retry :=
    PaperBot.executeArbitrageTrade (1 # 2) 15 showInteger 1765999940000
      (globals rt2) position_example market_example in
  tradeLog (globals rt1) = []
  /\ JS.has (processedCycles (globals rt1)) key = true
  /\ tradeLog (globals rt2) = []
  /\ JS.has (processedCycles (globals rt2)) key = false
  /\ List.length (tradeLog (fst retry)) = 1%nat
  /\ currentCapital (fst retry) == currentCapital (globals rt2) - 15
  /\ arbSharesDown (snd retry) == 500.
Proof.
  vm_compute. repeat split; reflexivity.
Qed.
